(** * The label layout engine of [unificacion.py]

    A shallow embedding of the calculation engine ("motor de calculo") of
    [unificacion.py]: [evaluar_z_uniforme], [evaluar_rollo_estandar],
    [calcular_metraje_material], [obtener_z_sugerido], the row function
    [calcular_z_y_metraje], the stock cascade of [crear_tabla_resumen] and
    [extraer_ancho_rollo_mm].

    Numbers.  Python's [int] is [Z].  Python's [float] is embedded twice.

    The first embedding is on exact rationals [Q]: every arithmetic
    operation is the exact one, comparisons are the exact ones ([==] is
    [Qeq]), and there is neither rounding, overflow, infinity nor NaN.  It
    carries the properties of the arithmetic of the engine: the formulas of
    the material usage, the invariants of a fit, the kind of result of the
    search, what does not depend on the quantity.

    The second embedding, [Module Doble], is on binary64 floats, computed
    as Python computes them.  A float that is compared with a threshold
    can fall on the other side of it than the exact value, so the
    properties of what the engine decides (the repeats that are feasible,
    the labels that fit across, the cylinder with the fewest meters, the
    row of a component) are stated on that embedding.

    Exceptions.  On exact rationals the only exception the engine can raise
    is [ZeroDivisionError]: computations live in the monad [Run], which
    records every divisor met by [/] and [//] on a variable divisor and
    yields no value once a divisor is zero.  On floats a computation that
    raises ([ZeroDivisionError], or [int] of an infinity or a NaN) is
    [None]. *)

From Stdlib Require Import ZArith QArith Qround Qabs Qpower List String Bool.
From Stdlib Require Import Lia Lqa.
From Stdlib Require Import Ascii DecimalString DecimalPos DecimalZ.
From Stdlib Require Import Sorted Permutation.
From Stdlib Require Import Floats.
Import ListNotations.

Local Open Scope Q_scope.

(** ** Python numerics over exact rationals *)

(** [a < b] on floats. *)
Definition Qltb (a b : Q) : bool := negb (Qle_bool b a).

(** Python's [max(a, b)]: the first argument unless the second is larger. *)
Definition py_max (a b : Q) : Q := if Qltb a b then b else a.

(** Python's [int(x)] on a float: truncation toward zero. *)
Definition py_int (x : Q) : Z := Z.quot (Qnum x) (Zpos (Qden x)).

(** Python's [str(k)] on an int, as used by f-strings. *)
Definition py_str (k : Z) : string := NilZero.string_of_int (Z.to_int k).

(** Python's [range(a, b)]. *)
Definition py_range (a b : Z) : list Z :=
  map (fun i => (a + Z.of_nat i)%Z) (seq 0 (Z.to_nat (b - a))).

(** ** Computations that may raise [ZeroDivisionError] *)

Record Run (A : Type) : Type := mkRun {
  divisors : list Q;      (* every divisor met, in program order *)
  value : option A        (* [None]: ZeroDivisionError was raised *)
}.
Arguments mkRun {A} _ _.
Arguments divisors {A} _.
Arguments value {A} _.

Definition ret {A : Type} (a : A) : Run A := mkRun [] (Some a).

Definition bind {A B : Type} (m : Run A) (f : A -> Run B) : Run B :=
  match m with
  | mkRun dm None => mkRun dm None
  | mkRun dm (Some a) =>
      match f a with
      | mkRun df v => mkRun (dm ++ df) v
      end
  end.

Notation "x <- m ;; k" := (bind m (fun x => k))
  (at level 61, m at next level, right associativity).
Notation "' p <- m ;; k" := (bind m (fun x => match x with p => k end))
  (at level 61, p pattern, m at next level, right associativity).

(** [a / b] on floats. *)
Definition truediv (a b : Q) : Run Q :=
  mkRun [b] (if Qeq_bool b 0 then None else Some (a / b)).

(** [a // b] on floats: the floor of the quotient, still a float. *)
Definition floordiv (a b : Q) : Run Q :=
  mkRun [b] (if Qeq_bool b 0 then None else Some (inject_Z (Qfloor (a / b)))).

(** The computation returns [a] without raising. *)
Definition returns {A : Type} (m : Run A) (a : A) : Prop := value m = Some a.

(** Every division executed had a positive divisor. *)
Definition divisors_positive {A : Type} (m : Run A) : Prop :=
  Forall (fun d => 0 < d) (divisors m).

(** The computation returns without raising, every division it executed had
    a positive divisor, and the value returned satisfies [P]. *)
Definition safely {A : Type} (m : Run A) (P : A -> Prop) : Prop :=
  exists a, returns m a /\ divisors_positive m /\ P a.

(** ** Constants of the engine *)

Definition FACTOR_CILINDRO_A_MM : Q := 3175 # 1000.
Definition ROLLO_BASE_MM : Q := 330.
Definition BANDERA_HORIZONTAL : Q := 20.
Definition GAP_HORIZONTAL_OBJETIVO : Q := 27 # 10.
Definition GAP_HORIZONTAL_MIN : Q := 23 # 10.
Definition GAP_HORIZONTAL_MAX : Q := 20.
Definition GAP_VERTICAL_OBJETIVO : Q := 27 # 10.
Definition GAP_VERTICAL_MIN : Q := 25 # 10.
Definition GAP_VERTICAL_MAX : Q := 20.
Definition MAX_REPETICIONES_VERTICALES : Z := 8.
Definition AJUSTE_DESARROLLO_REP_MM : Q := 75 # 100.

(** The list literal handed to [sorted(..., reverse=True)]. *)
Definition CILINDROS_FB_literal : list Z :=
  [60; 67; 70; 74; 77; 80; 84; 88; 91; 97; 99; 102; 105; 107; 108; 111;
   116; 117; 122; 127; 129; 168]%Z.

(** Insertion into a descending list, and the sort built from it. *)
Fixpoint insertar_desc (x : Z) (l : list Z) : list Z :=
  match l with
  | [] => [x]
  | y :: l' => if (y <=? x)%Z then x :: l else y :: insertar_desc x l'
  end.

Definition sorted_reverse (l : list Z) : list Z :=
  fold_right insertar_desc [] l.

Definition CILINDROS_FB : list Z :=
  Eval cbv in sorted_reverse CILINDROS_FB_literal.

(** ** [evaluar_z_uniforme]: vertical fit on one cylinder *)

(** The [detalle] message.  Its first form interpolates two floats with
    float formatting, so the message is kept as a tag with its arguments. *)
Inductive Detalle : Type :=
  | DesarrolloMenorQueAlto (desarrollo alto_etq : Q)
      (* "Desarrollo {desarrollo:.1f} mm < Alto etiqueta {alto_etq} mm" *)
  | DetalleOK                    (* "OK" *)
  | SinCombinacionValida.        (* "Sin combinación válida de n" *)

Record EvaluacionZUniforme : Type := mkEvaluacionZUniforme {
  ev_z : Z;
  ev_desarrollo_mm : Q;
  ev_n : Z;
  ev_gap : Q;
  ev_diff_obj : Q;
  ev_valido : bool;
  ev_detalle : Detalle
}.

(** The tuple [cand = (n, gap, diff)]. *)
Definition Candidato : Type := (Z * Q * Q)%type.

(** The update of [mejor] at the end of the loop body. *)
Definition actualizar_mejor (mejor : option Candidato) (cand : Candidato)
  : option Candidato :=
  match mejor with
  | None => Some cand
  | Some (n_best, gap_best, diff_best) =>
      let '(c0, c1, c2) := cand in
      if (n_best <? c0)%Z
         || ((c0 =? n_best)%Z
             && (Qltb c2 diff_best
                 || (Qeq_bool c2 diff_best && Qltb c1 gap_best)))
      then Some cand
      else mejor
  end.

(** The loop [for n in range(1, max_n + 1)] with its [break] and
    [continue], over the values of [n] still to visit. *)
Fixpoint bucle_n (ns : list Z) (desarrollo alto_etq gap_obj gap_min gap_max : Q)
    (mejor : option Candidato) : Run (option Candidato) :=
  match ns with
  | [] => ret mejor
  | n :: resto =>
      if Qltb desarrollo (inject_Z n * alto_etq) then ret mejor
      else
        gap <- truediv (desarrollo - inject_Z n * alto_etq) (inject_Z n) ;;
        if Qltb gap 0 then
          bucle_n resto desarrollo alto_etq gap_obj gap_min gap_max mejor
        else if (1 <? n)%Z && (Qltb gap gap_min || Qltb gap_max gap) then
          bucle_n resto desarrollo alto_etq gap_obj gap_min gap_max mejor
        else
          let gap := if (n =? 1)%Z then py_max gap gap_min else gap in
          let diff := Qabs (gap - gap_obj) in
          bucle_n resto desarrollo alto_etq gap_obj gap_min gap_max
            (actualizar_mejor mejor (n, gap, diff))
  end.

Definition evaluar_z_uniforme (z : Z) (alto_etq gap_obj gap_min gap_max : Q)
    (max_n : Z) : Run EvaluacionZUniforme :=
  let desarrollo := inject_Z z * FACTOR_CILINDRO_A_MM in
  if Qltb desarrollo alto_etq then
    ret (mkEvaluacionZUniforme z desarrollo 0 0 9999 false
           (DesarrolloMenorQueAlto desarrollo alto_etq))
  else
    mejor <- bucle_n (py_range 1 (max_n + 1)) desarrollo alto_etq
               gap_obj gap_min gap_max None ;;
    match mejor with
    | Some (n_sel, gap_sel, diff_sel) =>
        ret (mkEvaluacionZUniforme z desarrollo n_sel gap_sel diff_sel true
               DetalleOK)
    | None =>
        ret (mkEvaluacionZUniforme z desarrollo 0 0 9999 false
               SinCombinacionValida)
    end.

(** *** Feasible repeats, in the words of the specification *)

(** The gap of [n] repeats: [(circumference - n * height) / n]. *)
Definition gap_de (desarrollo alto_etq : Q) (n : Z) : Q :=
  (desarrollo - inject_Z n * alto_etq) / inject_Z n.

(** [n] is one of the repeats the selection ranges over: between 1 and the
    bound, [n * height <= circumference], a gap that is not negative and,
    for [n > 1], lies in [[gap_min, gap_max]]. *)
Definition factible (desarrollo alto_etq gap_min gap_max : Q) (max_n n : Z)
  : Prop :=
  (1 <= n <= max_n)%Z
  /\ inject_Z n * alto_etq <= desarrollo
  /\ 0 <= gap_de desarrollo alto_etq n
  /\ ((1 < n)%Z ->
      gap_min <= gap_de desarrollo alto_etq n
      /\ gap_de desarrollo alto_etq n <= gap_max).

(** The gap the evaluator reports for [n] repeats: that of [n], raised to
    [gap_min] when [n = 1]. *)
Definition gap_reportado (desarrollo alto_etq gap_min : Q) (n : Z) : Q :=
  if (n =? 1)%Z
  then py_max (gap_de desarrollo alto_etq n) gap_min
  else gap_de desarrollo alto_etq n.

(** The strict priority order of the selection: more repeats; on a tie, a
    smaller distance to the target gap; on a further tie, a smaller gap. *)
Definition no_peor (gap_obj : Q) (n1 : Z) (g1 : Q) (n2 : Z) (g2 : Q) : Prop :=
  (n2 < n1)%Z
  \/ (n1 = n2
      /\ (Qabs (g1 - gap_obj) < Qabs (g2 - gap_obj)
          \/ (Qabs (g1 - gap_obj) == Qabs (g2 - gap_obj) /\ g1 <= g2))).

(** ** [evaluar_rollo_estandar]: horizontal fit on one roll *)

(** The returned dict.  The two early returns carry no ["ancho_util"] key. *)
Record EvaluacionRollo : Type := mkEvaluacionRollo {
  etq_eje : Z;
  gap_entre : option Q;
  aprovechamiento_pct : Q;
  ancho_util : option Q
}.

Definition evaluar_rollo_estandar (ancho_mm ancho_etq gap_h_usado bandera_mm : Q)
  : Run EvaluacionRollo :=
  if Qle_bool ancho_mm 0 then ret (mkEvaluacionRollo 0 None 0 None)
  else
    let paso := ancho_etq + gap_h_usado in
    if Qle_bool paso 0 then ret (mkEvaluacionRollo 0 None 0 None)
    else
      let ancho_util := py_max 0 (ancho_mm - bandera_mm) in
      c <- floordiv ancho_util paso ;;
      let etq_eje := Z.max 0 (py_int c) in
      '(ancho_util, etq_eje) <-
        (if (etq_eje <=? 0)%Z then
           let ancho_util := ancho_mm in
           c <- floordiv ancho_util paso ;;
           ret (ancho_util, Z.max 0 (py_int c))
         else ret (ancho_util, etq_eje)) ;;
      '(etq_eje, gap_entre) <-
        (if (etq_eje <=? 0)%Z && Qle_bool ancho_etq ancho_util then
           let etq_eje := 1%Z in
           let gap_total := py_max 0 (ancho_util - ancho_etq) in
           ret (etq_eje, Some gap_total)
         else
           let gap_total :=
             py_max 0 (ancho_util - inject_Z etq_eje * ancho_etq) in
           if (1 <? etq_eje)%Z then
             g <- truediv gap_total (inject_Z (etq_eje - 1)) ;;
             ret (etq_eje, Some g)
           else ret (etq_eje, None)) ;;
      aprovechamiento <-
        (if Qltb 0 ancho_util then
           r <- truediv (inject_Z etq_eje * ancho_etq) ancho_util ;;
           ret (r * 100)
         else ret 0) ;;
      ret (mkEvaluacionRollo etq_eje gap_entre aprovechamiento (Some ancho_util)).

(** ** [calcular_metraje_material]: material usage *)

Record Metraje : Type := mkMetraje {
  repeticiones_reales : Q;
  ml : Q;
  m2 : Q
}.

Definition calcular_metraje_material (unidades etq_repeat : Z)
    (desarrollo_mm ancho_rollo_mm ajuste_mm : Q) : Run Metraje :=
  if (etq_repeat <=? 0)%Z || Qle_bool desarrollo_mm 0
     || Qle_bool ancho_rollo_mm 0
  then ret (mkMetraje 0 0 0)
  else
    repeticiones_reales <- truediv (inject_Z unidades) (inject_Z etq_repeat) ;;
    let longitud_sin_merma_mm := repeticiones_reales * desarrollo_mm in
    let merma_mm := repeticiones_reales * ajuste_mm in
    let longitud_total_mm := longitud_sin_merma_mm + merma_mm in
    let ml := longitud_total_mm / 1000 in
    let m2 := ml * (ancho_rollo_mm / 1000) in
    ret (mkMetraje repeticiones_reales ml m2).

(** ** [obtener_z_sugerido]: the cylinder search *)

Local Open Scope string_scope.

(** The dict returned for a valid configuration.  ["es_valido": True] is the
    constructor [Valido] below; [s_rollo_alternativo] tells whether the key
    ["rollo_alternativo": True] is present. *)
Record Solucion : Type := mkSolucion {
  s_z : Z;
  s_n : Z;
  s_desarrollo_mm : Q;
  s_gap_vertical : Q;
  s_etq_eje : Z;
  s_gap_horizontal_real : option Q;
  s_etq_repeat : Z;
  s_repeticiones : Q;
  s_ml : Q;
  s_m2 : Q;
  s_ancho_rollo_mm : Q;
  s_rollo_alternativo : bool
}.

(** The dict returned with ["es_valido": False]. *)
Record Imposibilidad : Type := mkImposibilidad {
  i_z : Z;
  i_ancho_rollo_mm : Q;
  i_motivo_imposibilidad : option string;
  i_gap_horizontal_real : Q
}.

Inductive Resultado : Type :=
  | Valido (s : Solucion)
  | NoValido (i : Imposibilidad).

(** The variables a scan of the catalog updates: [mejor], the reason and
    the fallback cylinder ([motivo_imposibilidad], [z_fallback] in the first
    loop; [motivo_imposibilidad_330], [z_fallback_330] in the second). *)
Record Estado : Type := mkEstado {
  mejor : option Solucion;
  motivo : option string;
  fallback : option Z
}.

(** [for z in l: body]. *)
Fixpoint for_each {S : Type} (body : S -> Z -> Run S) (l : list Z) (st : S)
  : Run S :=
  match l with
  | [] => ret st
  | z :: l' => st' <- body st z ;; for_each body l' st'
  end.

(** [mejor is None or metraje["ml"] < mejor["ml"]]. *)
Definition mejora (mejor : option Solucion) (metraje : Metraje) : bool :=
  match mejor with
  | None => true
  | Some m => Qltb (ml metraje) (s_ml m)
  end.

Definition motivo_alto (alto_etq : Q) : string :=
  "Alto " ++ py_str (py_int alto_etq)
  ++ "mm no cabe en ningun cilindro disponible (60-168mm)".

Definition motivo_ancho (ancho_etq ancho_rollo_mm : Q) : string :=
  "Ancho " ++ py_str (py_int ancho_etq) ++ "mm no cabe en rollo "
  ++ py_str (py_int ancho_rollo_mm) ++ "mm".

Definition motivo_ancho_330 (ancho_etq : Q) : string :=
  "Ancho " ++ py_str (py_int ancho_etq)
  ++ "mm no cabe incluso en rollo estandar "
  ++ py_str (py_int ROLLO_BASE_MM) ++ "mm".

(** Body of the first loop (the roll width asked for). *)
Definition cuerpo_primera (alto_etq ancho_etq : Q) (unidades : Z)
    (ancho_rollo_mm : Q) (st : Estado) (z : Z) : Run Estado :=
  ev_z <- evaluar_z_uniforme z alto_etq GAP_VERTICAL_OBJETIVO
            GAP_VERTICAL_MIN GAP_VERTICAL_MAX MAX_REPETICIONES_VERTICALES ;;
  if negb (ev_valido ev_z) then
    match motivo st with
    | None => ret (mkEstado (mejor st) (Some (motivo_alto alto_etq))
                     (fallback st))
    | Some _ => ret st
    end
  else
    ev_rollo <- evaluar_rollo_estandar ancho_rollo_mm ancho_etq
                  GAP_HORIZONTAL_OBJETIVO BANDERA_HORIZONTAL ;;
    if (etq_eje ev_rollo <=? 0)%Z then
      match fallback st with
      | None => ret (mkEstado (mejor st)
                       (Some (motivo_ancho ancho_etq ancho_rollo_mm)) (Some z))
      | Some _ => ret st
      end
    else
      let etq_repeat := (ev_n ev_z * etq_eje ev_rollo)%Z in
      metraje <- calcular_metraje_material unidades etq_repeat
                   (ev_desarrollo_mm ev_z) ancho_rollo_mm
                   AJUSTE_DESARROLLO_REP_MM ;;
      if mejora (mejor st) metraje then
        ret (mkEstado
               (Some (mkSolucion z (ev_n ev_z) (ev_desarrollo_mm ev_z)
                        (ev_gap ev_z) (etq_eje ev_rollo) (gap_entre ev_rollo)
                        etq_repeat (repeticiones_reales metraje) (ml metraje)
                        (m2 metraje) ancho_rollo_mm false))
               (motivo st) (fallback st))
      else ret st.

(** Body of the second loop (the standard roll). *)
Definition cuerpo_segunda (alto_etq ancho_etq : Q) (unidades : Z)
    (st : Estado) (z : Z) : Run Estado :=
  ev_z <- evaluar_z_uniforme z alto_etq GAP_VERTICAL_OBJETIVO
            GAP_VERTICAL_MIN GAP_VERTICAL_MAX MAX_REPETICIONES_VERTICALES ;;
  if negb (ev_valido ev_z) then ret st
  else
    ev_rollo <- evaluar_rollo_estandar ROLLO_BASE_MM ancho_etq
                  GAP_HORIZONTAL_OBJETIVO BANDERA_HORIZONTAL ;;
    if (etq_eje ev_rollo <=? 0)%Z then
      match fallback st with
      | None => ret (mkEstado (mejor st) (Some (motivo_ancho_330 ancho_etq))
                       (Some z))
      | Some _ => ret st
      end
    else
      let etq_repeat := (ev_n ev_z * etq_eje ev_rollo)%Z in
      metraje <- calcular_metraje_material unidades etq_repeat
                   (ev_desarrollo_mm ev_z) ROLLO_BASE_MM
                   AJUSTE_DESARROLLO_REP_MM ;;
      if mejora (mejor st) metraje then
        ret (mkEstado
               (Some (mkSolucion z (ev_n ev_z) (ev_desarrollo_mm ev_z)
                        (ev_gap ev_z) (etq_eje ev_rollo) (gap_entre ev_rollo)
                        etq_repeat (repeticiones_reales metraje) (ml metraje)
                        (m2 metraje) ROLLO_BASE_MM true))
               (motivo st) (fallback st))
      else ret st.

(** The two loop bodies have one shape: they differ in the roll width, in
    what the invalid branch records ([motivo_v]), in the text of the
    horizontal reason ([motivo_h]) and in the ["rollo_alternativo"] key.
    [cuerpo_comun] is that shape; the proofs go through it once, and
    [cuerpo_primera_comun] and [cuerpo_segunda_comun] relate it to the two
    bodies above. *)
Definition cuerpo_comun (alto_etq ancho_etq : Q) (unidades : Z)
    (ancho_rollo_mm : Q) (motivo_v : option string) (motivo_h : string)
    (alternativo : bool) (st : Estado) (z : Z) : Run Estado :=
  ev_z <- evaluar_z_uniforme z alto_etq GAP_VERTICAL_OBJETIVO
            GAP_VERTICAL_MIN GAP_VERTICAL_MAX MAX_REPETICIONES_VERTICALES ;;
  if negb (ev_valido ev_z) then
    match motivo_v with
    | Some texto =>
        match motivo st with
        | None => ret (mkEstado (mejor st) (Some texto) (fallback st))
        | Some _ => ret st
        end
    | None => ret st
    end
  else
    ev_rollo <- evaluar_rollo_estandar ancho_rollo_mm ancho_etq
                  GAP_HORIZONTAL_OBJETIVO BANDERA_HORIZONTAL ;;
    if (etq_eje ev_rollo <=? 0)%Z then
      match fallback st with
      | None => ret (mkEstado (mejor st) (Some motivo_h) (Some z))
      | Some _ => ret st
      end
    else
      let etq_repeat := (ev_n ev_z * etq_eje ev_rollo)%Z in
      metraje <- calcular_metraje_material unidades etq_repeat
                   (ev_desarrollo_mm ev_z) ancho_rollo_mm
                   AJUSTE_DESARROLLO_REP_MM ;;
      if mejora (mejor st) metraje then
        ret (mkEstado
               (Some (mkSolucion z (ev_n ev_z) (ev_desarrollo_mm ev_z)
                        (ev_gap ev_z) (etq_eje ev_rollo) (gap_entre ev_rollo)
                        etq_repeat (repeticiones_reales metraje) (ml metraje)
                        (m2 metraje) ancho_rollo_mm alternativo))
               (motivo st) (fallback st))
      else ret st.

(** The state a turn of [cuerpo_comun] leaves, for each of its three ways
    out: the cylinder is too short for the label, no label fits across the
    roll, or the candidate is compared with the best so far. *)
Definition tras_invalido (motivo_v : option string) (st : Estado) : Estado :=
  match motivo_v with
  | Some texto =>
      match motivo st with
      | None => mkEstado (mejor st) (Some texto) (fallback st)
      | Some _ => st
      end
  | None => st
  end.

Definition tras_no_cabe (motivo_h : string) (st : Estado) (z : Z) : Estado :=
  match fallback st with
  | None => mkEstado (mejor st) (Some motivo_h) (Some z)
  | Some _ => st
  end.

Definition tras_metraje (ancho_rollo_mm : Q) (alternativo : bool)
    (st : Estado) (z : Z) (ev : EvaluacionZUniforme) (r : EvaluacionRollo)
    (m : Metraje) : Estado :=
  if mejora (mejor st) m then
    mkEstado
      (Some (mkSolucion z (ev_n ev) (ev_desarrollo_mm ev) (ev_gap ev)
               (etq_eje r) (gap_entre r) (ev_n ev * etq_eje r)%Z
               (repeticiones_reales m) (ml m) (m2 m) ancho_rollo_mm
               alternativo))
      (motivo st) (fallback st)
  else st.

(** A recorded fallback cylinder always comes with a reason that is not
    empty. *)
Definition con_motivo (st : Estado) : Prop :=
  forall zf, fallback st = Some zf ->
             exists s, motivo st = Some s /\ s <> EmptyString.

(** The scan has met a cylinder the label fits around. *)
Definition decidido (st : Estado) : Prop :=
  mejor st <> None \/ fallback st <> None.

(** The first scan, from [mejor = None], [motivo_imposibilidad = None],
    [z_fallback = None]. *)
Definition primera_pasada (alto_etq ancho_etq : Q) (unidades : Z)
    (ancho_rollo_mm : Q) : Run Estado :=
  for_each (cuerpo_primera alto_etq ancho_etq unidades ancho_rollo_mm)
    CILINDROS_FB (mkEstado None None None).

(** The second scan; it is only reached with [mejor = None]. *)
Definition segunda_pasada (alto_etq ancho_etq : Q) (unidades : Z) : Run Estado :=
  for_each (cuerpo_segunda alto_etq ancho_etq unidades)
    CILINDROS_FB (mkEstado None None None).

(** Truthiness of [motivo_imposibilidad]: neither [None] nor empty. *)
Definition verdadero (s : option string) : bool :=
  match s with
  | None => false
  | Some t => negb (String.eqb t "")
  end.

(** The last two statements of the function. *)
Definition retorno_final (st : Estado) (ancho_rollo_mm : Q) : option Resultado :=
  match fallback st with
  | Some zf =>
      if verdadero (motivo st) then
        Some (NoValido (mkImposibilidad zf ancho_rollo_mm (motivo st) 0))
      else None
  | None => None
  end.

Definition obtener_z_sugerido (alto_etq ancho_etq : Q) (unidades : Z)
    (ancho_rollo_mm : option Q) : Run (option Resultado) :=
  let ancho_rollo_mm :=
    match ancho_rollo_mm with
    | None => ROLLO_BASE_MM
    | Some w => w
    end in
  st <- primera_pasada alto_etq ancho_etq unidades ancho_rollo_mm ;;
  match mejor st with
  | Some m => ret (Some (Valido m))
  | None =>
      if negb (Qeq_bool ancho_rollo_mm ROLLO_BASE_MM) then
        st330 <- segunda_pasada alto_etq ancho_etq unidades ;;
        match mejor st330 with
        | Some m => ret (Some (Valido m))
        | None =>
            match fallback st330 with
            | Some zf =>
                ret (Some (NoValido (mkImposibilidad zf ROLLO_BASE_MM
                                       (motivo st330) 0)))
            | None => ret (retorno_final st ancho_rollo_mm)
            end
        end
      else ret (retorno_final st ancho_rollo_mm)
  end.

(** *** Relations between results, used to state the properties *)

(** [s] with its ["rollo_alternativo"] key set to [b]. *)
Definition marcar (b : bool) (s : Solucion) : Solucion :=
  mkSolucion (s_z s) (s_n s) (s_desarrollo_mm s) (s_gap_vertical s)
    (s_etq_eje s) (s_gap_horizontal_real s) (s_etq_repeat s)
    (s_repeticiones s) (s_ml s) (s_m2 s) (s_ancho_rollo_mm s) b.

(** [s2] is the configuration [s1] with every quantity-dependent figure
    (revolutions, linear meters, area) doubled. *)
Definition doble_solucion (s1 s2 : Solucion) : Prop :=
  s_z s2 = s_z s1 /\ s_n s2 = s_n s1
  /\ s_desarrollo_mm s2 = s_desarrollo_mm s1
  /\ s_gap_vertical s2 = s_gap_vertical s1
  /\ s_etq_eje s2 = s_etq_eje s1
  /\ s_gap_horizontal_real s2 = s_gap_horizontal_real s1
  /\ s_etq_repeat s2 = s_etq_repeat s1
  /\ s_ancho_rollo_mm s2 = s_ancho_rollo_mm s1
  /\ s_rollo_alternativo s2 = s_rollo_alternativo s1
  /\ s_repeticiones s2 == 2 * s_repeticiones s1
  /\ s_ml s2 == 2 * s_ml s1
  /\ s_m2 s2 == 2 * s_m2 s1.

(** The same for the running best of two scans. *)
Definition doble_mejor (b1 b2 : option Solucion) : Prop :=
  match b1, b2 with
  | Some s1, Some s2 => doble_solucion s1 s2
  | None, None => True
  | _, _ => False
  end.

Definition doble_resultado (r1 r2 : option Resultado) : Prop :=
  match r1, r2 with
  | Some (Valido s1), Some (Valido s2) => doble_solucion s1 s2
  | Some (NoValido i1), Some (NoValido i2) => i1 = i2
  | None, None => True
  | _, _ => False
  end.

(** ** The caller [calcular_z_y_metraje], up to [resultado_z]

    The whole function, with the row it returns, is
    [Doble.calcular_z_y_metraje]. *)

(** [max(1, int(e)) if e > 0 else 1]. *)
Definition unidades_para_calculo (etiquetas_a_producir : Q) : Z :=
  if Qltb 0 etiquetas_a_producir
  then Z.max 1 (py_int etiquetas_a_producir)
  else 1%Z.

(** What the row function has in hand before it builds its output row:
    either the "SIN MEDIDAS" row, or [resultado_z].  [ancho_rollo] is what
    [extraer_ancho_rollo_mm] returned for the component name. *)
Inductive Fila : Type :=
  | SinMedidas
  | Calculado (resultado_z : option Resultado).

Definition calcular_z_y_metraje (alto ancho etiquetas_a_producir : Q)
    (ancho_rollo : option Q) : Run Fila :=
  let ancho_rollo :=
    match ancho_rollo with
    | None => ROLLO_BASE_MM
    | Some w => w
    end in
  if Qeq_bool alto 0 || Qeq_bool ancho 0 then ret SinMedidas
  else
    resultado_z <- obtener_z_sugerido alto ancho
                     (unidades_para_calculo etiquetas_a_producir)
                     (Some ancho_rollo) ;;
    ret (Calculado resultado_z).

Local Close Scope string_scope.

(** *** Candidates of the search

    [candidato_de ... z s]: [s] is the dict the loop body builds for
    cylinder [z], from its vertical fit, the horizontal fit on the roll and
    the material usage of the two. *)
Definition candidato_de (alto_etq ancho_etq : Q) (unidades : Z)
    (ancho_rollo_mm : Q) (alternativo : bool) (z : Z) (s : Solucion) : Prop :=
  exists ev r m,
    returns
      (evaluar_z_uniforme z alto_etq GAP_VERTICAL_OBJETIVO GAP_VERTICAL_MIN
         GAP_VERTICAL_MAX MAX_REPETICIONES_VERTICALES) ev
    /\ ev_valido ev = true
    /\ returns
         (evaluar_rollo_estandar ancho_rollo_mm ancho_etq
            GAP_HORIZONTAL_OBJETIVO BANDERA_HORIZONTAL) r
    /\ (0 < etq_eje r)%Z
    /\ returns
         (calcular_metraje_material unidades (ev_n ev * etq_eje r)
            (ev_desarrollo_mm ev) ancho_rollo_mm AJUSTE_DESARROLLO_REP_MM) m
    /\ s = mkSolucion z (ev_n ev) (ev_desarrollo_mm ev) (ev_gap ev)
             (etq_eje r) (gap_entre r) (ev_n ev * etq_eje r)%Z
             (repeticiones_reales m) (ml m) (m2 m) ancho_rollo_mm alternativo.

(** [s] is the best of the catalog: a candidate of its own cylinder, with
    linear meters no larger than those of any candidate, and of the largest
    cylinder among the candidates with the same linear meters. *)
Definition minimo_del_catalogo (alto_etq ancho_etq : Q) (unidades : Z)
    (ancho_rollo_mm : Q) (alternativo : bool) (zs : list Z) (s : Solucion)
  : Prop :=
  In (s_z s) zs
  /\ candidato_de alto_etq ancho_etq unidades ancho_rollo_mm alternativo
       (s_z s) s
  /\ forall z s',
       In z zs ->
       candidato_de alto_etq ancho_etq unidades ancho_rollo_mm alternativo
         z s' ->
       s_ml s <= s_ml s' /\ (s_ml s' == s_ml s -> (z <= s_z s)%Z).

(** What a scan has established after the cylinders [zs]. *)
Definition mejor_hasta (alto_etq ancho_etq : Q) (unidades : Z)
    (ancho_rollo_mm : Q) (alternativo : bool) (zs : list Z) (st : Estado)
  : Prop :=
  match mejor st with
  | Some s =>
      minimo_del_catalogo alto_etq ancho_etq unidades ancho_rollo_mm
        alternativo zs s
  | None =>
      forall z s', In z zs ->
                   ~ candidato_de alto_etq ancho_etq unidades ancho_rollo_mm
                       alternativo z s'
  end.

(** A label of width [ancho_etq] fits across a roll of width [w]: the roll
    and the step (label plus target gap) are positive and the label is not
    wider than the roll. *)
Definition cabe_en_rollo (ancho_etq w : Q) : Prop :=
  0 < w /\ 0 < ancho_etq + GAP_HORIZONTAL_OBJETIVO /\ ancho_etq <= w.

(** ** The stock cascade of [crear_tabla_resumen]

    The loop over [df_resumen.index] that carries the stock of a component
    from one of its rows to the next, on two ledgers: the one of the engine
    (square meters with waste) and the one of the factor.  The table has
    been sorted and its index reset, so the loop visits the rows in order
    and each index names one row: the table is the list of its rows, and
    the cells written are listed row by row.  Floats are rationals here as
    in the engine, and the component code is a string. *)

(** The columns of a row the loop reads. *)
Record FilaResumen : Type := mkFilaResumen {
  Componente : string;
  Stock_Acumulado_Original : Q;
  Metros_Cuadrados_Con_Merma : Q;
  Metros_Cuadrados_Factor : Q
}.

(** The columns of a row the loop writes. *)
Record FilaCascada : Type := mkFilaCascada {
  Stock_Acumulado_Cascada : Q;
  Stock_Final_m2 : Q;
  Stock_Acumulado_Factor_Cascada : Q;
  Stock_Final_Factor : Q
}.

(** The three variables the loop carries. *)
Record EstadoCascada : Type := mkEstadoCascada {
  componente_anterior : option string;
  stock_tradicional : Q;
  stock_factor : Q
}.

(** [componente_actual != componente_anterior]. *)
Definition cambia_componente (componente_actual : string)
    (anterior : option string) : bool :=
  match anterior with
  | None => true
  | Some c => negb (String.eqb componente_actual c)
  end.

(** One turn of the loop: the state for the next row and the cells
    written. *)
Definition paso_cascada (st : EstadoCascada) (fila : FilaResumen)
  : EstadoCascada * FilaCascada :=
  let componente_actual := Componente fila in
  let st :=
    if cambia_componente componente_actual (componente_anterior st) then
      let stock_original := Stock_Acumulado_Original fila in
      mkEstadoCascada (Some componente_actual) stock_original stock_original
    else st in
  let metros_merma := Metros_Cuadrados_Con_Merma fila in
  let stock_final_m2 := stock_tradicional st - metros_merma in
  let metros_factor := Metros_Cuadrados_Factor fila in
  let stock_final_factor := stock_factor st - metros_factor in
  (mkEstadoCascada (componente_anterior st) stock_final_m2 stock_final_factor,
   mkFilaCascada (stock_tradicional st) stock_final_m2 (stock_factor st)
     stock_final_factor).

Fixpoint cascadeo (st : EstadoCascada) (filas : list FilaResumen)
  : list FilaCascada :=
  match filas with
  | [] => []
  | fila :: resto =>
      let (st', celdas) := paso_cascada st fila in
      celdas :: cascadeo st' resto
  end.

(** The loop from [componente_anterior = None] and both stocks at 0.0. *)
Definition cascadeo_de_stock (filas : list FilaResumen) : list FilaCascada :=
  cascadeo (mkEstadoCascada None 0 0) filas.

(** [(df_resumen['Stock_Final_m2'] > 0).astype(int)] and the same on the
    factor ledger, for one row. *)
Definition Disponibilidad (celdas : FilaCascada) : Z :=
  if Qltb 0 (Stock_Final_m2 celdas) then 1%Z else 0%Z.

Definition Disponibilidad_Factor (celdas : FilaCascada) : Z :=
  if Qltb 0 (Stock_Final_Factor celdas) then 1%Z else 0%Z.

(** The sum of a list of amounts, to state what a block has consumed. *)
Definition suma (l : list Q) : Q := fold_right Qplus 0 l.

(** ** [extraer_ancho_rollo_mm]: the roll width in a component name

    The function is its pattern, [(\d+)\s*MM(?:\s|$)] with [re.IGNORECASE],
    handed to [re.findall], whose first group is converted by [float].
    Names are strings of characters with code points below 256; on those
    [\d] is the ten ASCII digits, [\s] the characters below, and [M]
    without case is [M] or [m].  The value [float] gives for a digit string
    is the number it writes. *)

Local Open Scope char_scope.

Definition es_digito (c : ascii) : bool :=
  let n := nat_of_ascii c in (48 <=? n)%nat && (n <=? 57)%nat.

(** Tab to carriage return, the four separators 28 to 31, the space, the
    next-line character 133 and the no-break space 160. *)
Definition es_espacio (c : ascii) : bool :=
  let n := nat_of_ascii c in
  ((9 <=? n)%nat && (n <=? 13)%nat)
  || ((28 <=? n)%nat && (n <=? 32)%nat)
  || (n =? 133)%nat || (n =? 160)%nat.

Definition es_M (c : ascii) : bool := Ascii.eqb c "M" || Ascii.eqb c "m".

Local Close Scope char_scope.

(** [\d+], greedy: the longest run of digits [s] starts with, and what
    follows it. *)
Fixpoint digitos (s : string) : string * string :=
  match s with
  | EmptyString => (EmptyString, EmptyString)
  | String c s' =>
      if es_digito c then
        let (d, r) := digitos s' in (String c d, r)
      else (EmptyString, s)
  end.

(** [\s*], greedy: [s] without the whitespace it starts with. *)
Fixpoint sin_espacios (s : string) : string :=
  match s with
  | EmptyString => EmptyString
  | String c s' => if es_espacio c then sin_espacios s' else s
  end.

(** [(?:\s|$)]: a whitespace character comes next, or nothing does. *)
Definition fin_o_espacio (s : string) : bool :=
  match s with
  | EmptyString => true
  | String c _ => es_espacio c
  end.

(** A match of the pattern at the start of [s], as its group 1.  Giving
    back characters of the digit run or of the whitespace leaves a digit or
    a whitespace character where [M] is wanted, so the longest runs decide
    the match. *)
Definition coincide (s : string) : option string :=
  let (d, r) := digitos s in
  match d with
  | EmptyString => None
  | String _ _ =>
      match sin_espacios r with
      | String a (String b r') =>
          if es_M a && es_M b && fin_o_espacio r' then Some d else None
      | _ => None
      end
  end.

(** [coincidencias[0]]: group 1 of the leftmost match, if there is one. *)
Fixpoint primera_coincidencia (s : string) : option string :=
  match coincide s with
  | Some d => Some d
  | None =>
      match s with
      | EmptyString => None
      | String _ s' => primera_coincidencia s'
      end
  end.

(** [float(...)] of a string of digits. *)
Definition float_de_digitos (d : string) : option Q :=
  match NilZero.uint_of_string d with
  | Some u => Some (inject_Z (Z.of_uint u))
  | None => None
  end.

Definition extraer_ancho_rollo_mm (nombre_componente : string) : option Q :=
  match nombre_componente with
  | EmptyString => None
  | String _ _ =>
      match primera_coincidencia nombre_componente with
      | Some d => float_de_digitos d
      | None => None
      end
  end.

(** Every character of [s] satisfies [p]. *)
Fixpoint todos (p : ascii -> bool) (s : string) : bool :=
  match s with
  | EmptyString => true
  | String c s' => p c && todos p s'
  end.

(** * The engine on binary64 floats

    The definitions above compute on exact rationals.  Where the engine
    decides by comparing a computed float with a threshold (a circumference
    against a height, a gap against its limits, the floor of a quotient),
    the rounding of binary64 can decide otherwise than the exact value, so
    the properties of those decisions are stated on the definitions below,
    which compute as Python does on its floats: Rocq's primitive floats
    are binary64 with round to nearest, ties to even, and their operations
    are those of the hardware.  Python ints are [Z].

    Two conversions are more regular here than in Python, far outside the
    sizes the engine works with: an int beyond the range of the floats
    (some 1.8e308) converts to an infinity, where Python raises
    OverflowError, and the floor of a quotient is the exact one also beyond
    2^51, where CPython's is computed with a rounding. *)

Module Doble.

Local Open Scope float_scope.

(** ** Python numerics on binary64 *)

(** [float(k)] for an int, as in [k * x] and [x / k]: the nearest float,
    ties to even.  (Python raises OverflowError for an int beyond the
    range of the floats, some 1.8e308; here the conversion gives an
    infinity.) *)
Definition float_de_int (k : Z) : float :=
  SF2Prim (binary_normalize prec emax k 0 false).

(** Python's [max(a, b)]: the first argument unless the second is larger. *)
Definition py_max (a b : float) : float := if a <? b then b else a.

(** [a / b] on floats raises ZeroDivisionError when [b] is [0.0] or
    [-0.0]; [None] stands for the exception. *)
Definition truediv (a b : float) : option float :=
  if b =? 0 then None else Some (a / b).

(** [a / k] for a float and an int. *)
Definition truediv_int (a : float) (k : Z) : option float :=
  if (k =? 0)%Z then None else Some (a / float_de_int k).

(** An int as an unrounded [spec_float] (not for 0). *)
Definition Z2SF (k : Z) : spec_float :=
  S754_finite (k <? 0)%Z (Z.to_pos (Z.abs k)) 0.

(** [j / k] for two ints: the float nearest to the exact quotient; it
    raises ZeroDivisionError for [k = 0] and OverflowError when the
    quotient is too large for a float. *)
Definition int_truediv (j k : Z) : option float :=
  if (k =? 0)%Z then None
  else if (j =? 0)%Z then Some (if (k <? 0)%Z then (-0)%float else 0%float)
  else
    match SFdiv prec emax (Z2SF j) (Z2SF k) with
    | S754_infinity _ => None
    | r => Some (SF2Prim r)
    end.

(** The number a float stands for; infinities and NaN stand for none. *)
Definition racional (x : float) : option Q :=
  match Prim2SF x with
  | S754_zero _ => Some 0%Q
  | S754_finite s m e =>
      Some ((if s then - inject_Z (Zpos m) else inject_Z (Zpos m))
            * Qpower 2 e)%Q
  | S754_infinity _ | S754_nan => None
  end.

(** [int(a // b)].  On floats [a // b] is the floor of the quotient of the
    two floats taken exactly, not of the rounded [a / b]: CPython computes
    it from the exact remainder [fmod(a, b)], so it is that floor as long
    as the quotient is below 2^51 or so, which is where this definition
    follows it.  It raises ZeroDivisionError when [b] is zero, and [int]
    raises on a NaN, which is what [a // b] is when [a] is infinite or one
    of the two is NaN.  Against an infinite [b] a finite [a] gives [0.0],
    or [-1.0] when the signs differ. *)
Definition floordiv_int (a b : float) : option Z :=
  match racional a, racional b with
  | Some qa, Some qb =>
      if Qeq_bool qb 0 then None else Some (Qfloor (qa / qb))
  | Some qa, None =>
      match Prim2SF b with
      | S754_infinity sb =>
          if Qeq_bool qa 0 then Some 0%Z
          else if Bool.eqb (negb (Qle_bool 0 qa)) sb then Some 0%Z
               else Some (-1)%Z
      | _ => None
      end
  | None, _ => None
  end.

(** [int(x)] on a float: truncation toward zero; it raises on an infinity
    or a NaN. *)
Definition py_int (x : float) : option Z :=
  match racional x with
  | Some q => Some (Z.quot (Qnum q) (Zpos (Qden q)))
  | None => None
  end.

(** The integer nearest to a non-negative rational, ties to even. *)
Definition redondeo_par (q : Q) : Z :=
  let f := Qfloor q in
  match (q - inject_Z f ?= 1 # 2)%Q with
  | Lt => f
  | Gt => (f + 1)%Z
  | Eq => if Z.even f then f else (f + 1)%Z
  end.

(** [round(x, ndigits)] on a float, for [ndigits >= 0]: the decimal with
    [ndigits] digits nearest to the exact value of [x], ties to even, and
    then the float nearest to that decimal; zeros, infinities and NaN are
    returned as they are. *)
Definition py_round (x : float) (ndigits : Z) : float :=
  match Prim2SF x with
  | S754_finite s m e =>
      let q := (inject_Z (Zpos m) * Qpower 2 e * inject_Z (10 ^ ndigits))%Q in
      match redondeo_par q with
      | Zpos r =>
          SF2Prim (SFdiv prec emax (S754_finite s r 0)
                     (S754_finite false (Z.to_pos (10 ^ ndigits)) 0))
      | _ => SF2Prim (S754_zero s)
      end
  | _ => x
  end.

(** Sequencing of computations that may raise. *)
Definition bind {A B : Type} (m : option A) (f : A -> option B) : option B :=
  match m with
  | Some a => f a
  | None => None
  end.

Notation "x <-- m ;; k" := (bind m (fun x => k))
  (at level 61, m at next level, right associativity).
Notation "' p <-- m ;; k" := (bind m (fun x => match x with p => k end))
  (at level 61, p pattern, m at next level, right associativity).

(** ** Constants of the engine *)

Set Warnings "-inexact-float".

Definition FACTOR_CILINDRO_A_MM : float := 3.175.
Definition ROLLO_BASE_MM : float := 330.
Definition BANDERA_HORIZONTAL : float := 20.
Definition GAP_HORIZONTAL_OBJETIVO : float := 2.7.
Definition GAP_VERTICAL_OBJETIVO : float := 2.7.
Definition GAP_VERTICAL_MIN : float := 2.5.
Definition GAP_VERTICAL_MAX : float := 20.
Definition MAX_REPETICIONES_VERTICALES : Z := 8.
Definition AJUSTE_DESARROLLO_REP_MM : float := 0.75.

Set Warnings "inexact-float".

(** ** [evaluar_z_uniforme]: vertical fit on one cylinder *)

Inductive Detalle : Type :=
  | DesarrolloMenorQueAlto (desarrollo alto_etq : float)
  | DetalleOK
  | SinCombinacionValida.

Record EvaluacionZUniforme : Type := mkEvaluacionZUniforme {
  ev_z : Z;
  ev_desarrollo_mm : float;
  ev_n : Z;
  ev_gap : float;
  ev_diff_obj : float;
  ev_valido : bool;
  ev_detalle : Detalle
}.

(** The tuple [cand = (n, gap, diff)]. *)
Definition Candidato : Type := (Z * float * float)%type.

(** The test that replaces [mejor] by [cand] at the end of the loop
    body. *)
Definition prefiere (cand mejor : Candidato) : bool :=
  let '(n_best, gap_best, diff_best) := mejor in
  let '(c0, c1, c2) := cand in
  (n_best <? c0)%Z
  || ((c0 =? n_best)%Z
      && ((c2 <? diff_best) || ((c2 =? diff_best) && (c1 <? gap_best)))).

Definition actualizar_mejor (mejor : option Candidato) (cand : Candidato)
  : option Candidato :=
  match mejor with
  | None => Some cand
  | Some m => if prefiere cand m then Some cand else mejor
  end.

(** The loop [for n in range(1, max_n + 1)] with its [break] and
    [continue], over the values of [n] still to visit. *)
Fixpoint bucle_n (ns : list Z)
    (desarrollo alto_etq gap_obj gap_min gap_max : float)
    (mejor : option Candidato) : option (option Candidato) :=
  match ns with
  | [] => Some mejor
  | n :: resto =>
      if desarrollo <? float_de_int n * alto_etq then Some mejor
      else
        gap <-- truediv_int (desarrollo - float_de_int n * alto_etq) n ;;
        if gap <? 0 then
          bucle_n resto desarrollo alto_etq gap_obj gap_min gap_max mejor
        else if (1 <? n)%Z && ((gap <? gap_min) || (gap_max <? gap)) then
          bucle_n resto desarrollo alto_etq gap_obj gap_min gap_max mejor
        else
          let gap := if (n =? 1)%Z then py_max gap gap_min else gap in
          let diff := abs (gap - gap_obj) in
          bucle_n resto desarrollo alto_etq gap_obj gap_min gap_max
            (actualizar_mejor mejor (n, gap, diff))
  end.

Definition evaluar_z_uniforme (z : Z)
    (alto_etq gap_obj gap_min gap_max : float) (max_n : Z)
  : option EvaluacionZUniforme :=
  let desarrollo := float_de_int z * FACTOR_CILINDRO_A_MM in
  if desarrollo <? alto_etq then
    Some (mkEvaluacionZUniforme z desarrollo 0 0 9999 false
            (DesarrolloMenorQueAlto desarrollo alto_etq))
  else
    mejor <-- bucle_n (py_range 1 (max_n + 1)) desarrollo alto_etq
               gap_obj gap_min gap_max None ;;
    match mejor with
    | Some (n_sel, gap_sel, diff_sel) =>
        Some (mkEvaluacionZUniforme z desarrollo n_sel gap_sel diff_sel true
                DetalleOK)
    | None =>
        Some (mkEvaluacionZUniforme z desarrollo 0 0 9999 false
                SinCombinacionValida)
    end.

(** *** The repeats the selection ranges over *)

(** The gap of [n] repeats as the loop computes it. *)
Definition gap_de (desarrollo alto_etq : float) (n : Z) : float :=
  (desarrollo - float_de_int n * alto_etq) / float_de_int n.

(** [n] is one of the repeats the selection ranges over: between 1 and the
    bound, with no repeat count up to [n] whose [n * height] is above the
    circumference (the scan stops at the first), a gap that is not negative
    and, for [n > 1], not below [gap_min] and not above [gap_max]; every
    comparison is the one the code makes on the floats it computed. *)
Definition factible (desarrollo alto_etq gap_min gap_max : float)
    (max_n n : Z) : Prop :=
  (1 <= n <= max_n)%Z
  /\ (forall k, (1 <= k <= n)%Z ->
                (desarrollo <? float_de_int k * alto_etq) = false)
  /\ (gap_de desarrollo alto_etq n <? 0) = false
  /\ ((1 < n)%Z ->
      (gap_de desarrollo alto_etq n <? gap_min) = false
      /\ (gap_max <? gap_de desarrollo alto_etq n) = false).

(** The gap the evaluator reports for [n] repeats: that of [n], raised to
    [gap_min] when [n = 1]. *)
Definition gap_reportado (desarrollo alto_etq gap_min : float) (n : Z)
  : float :=
  if (n =? 1)%Z
  then py_max (gap_de desarrollo alto_etq n) gap_min
  else gap_de desarrollo alto_etq n.

(** The pair [(n, gap, diff)] the loop builds for [n] repeats. *)
Definition par_de (desarrollo alto_etq gap_obj gap_min : float) (n : Z)
  : Candidato :=
  (n, gap_reportado desarrollo alto_etq gap_min n,
   abs (gap_reportado desarrollo alto_etq gap_min n - gap_obj)).

(** ** [evaluar_rollo_estandar]: horizontal fit on one roll *)

(** The returned dict.  The two early returns carry no ["ancho_util"]
    key. *)
Record EvaluacionRollo : Type := mkEvaluacionRollo {
  etq_eje : Z;
  gap_entre : option float;
  aprovechamiento_pct : float;
  ancho_util : option float
}.

Definition evaluar_rollo_estandar
    (ancho_mm ancho_etq gap_h_usado bandera_mm : float)
  : option EvaluacionRollo :=
  if ancho_mm <=? 0 then Some (mkEvaluacionRollo 0 None 0 None)
  else
    let paso := ancho_etq + gap_h_usado in
    if paso <=? 0 then Some (mkEvaluacionRollo 0 None 0 None)
    else
      let ancho_util := py_max 0 (ancho_mm - bandera_mm) in
      c <-- floordiv_int ancho_util paso ;;
      let etq_eje := Z.max 0 c in
      '(ancho_util, etq_eje) <--
        (if (etq_eje <=? 0)%Z then
           let ancho_util := ancho_mm in
           c <-- floordiv_int ancho_util paso ;;
           Some (ancho_util, Z.max 0 c)
         else Some (ancho_util, etq_eje)) ;;
      '(etq_eje, gap_entre) <--
        (if (etq_eje <=? 0)%Z && (ancho_etq <=? ancho_util) then
           let etq_eje := 1%Z in
           let gap_total := py_max 0 (ancho_util - ancho_etq) in
           Some (etq_eje, Some gap_total)
         else
           let gap_total :=
             py_max 0 (ancho_util - float_de_int etq_eje * ancho_etq) in
           if (1 <? etq_eje)%Z then
             g <-- truediv_int gap_total (etq_eje - 1) ;;
             Some (etq_eje, Some g)
           else Some (etq_eje, None)) ;;
      aprovechamiento <--
        (if 0 <? ancho_util then
           r <-- truediv (float_de_int etq_eje * ancho_etq) ancho_util ;;
           Some (r * 100)
         else Some 0) ;;
      Some (mkEvaluacionRollo etq_eje gap_entre aprovechamiento
              (Some ancho_util)).

(** *** The horizontal fit in the words of the specification

    Written from the specification text, not from the code, to be compared
    with [evaluar_rollo_estandar]: on the floats, with the count of whole
    steps taken by [floordiv_int].  [None] where the count cannot be
    taken. *)

Record HorizontalFitResult : Type := mkHorizontalFitResult {
  across_count : Z;
  gap_mm : option float;
  utilization_pct : float;
  usable_width_mm : float
}.

Definition horizontal_fit_spec (roll_width label_width gap flag_margin : float)
  : option HorizontalFitResult :=
  (* usable width = roll width minus the flag margin, clamped to >= 0 *)
  let usable_flag := py_max 0 (roll_width - flag_margin) in
  (* the count of whole steps label_width + gap in the usable width *)
  count_flag <-- floordiv_int usable_flag (label_width + gap) ;;
  (* if that is 0, retry with the full roll width as usable width *)
  count_full <-- (if (count_flag =? 0)%Z
                  then floordiv_int roll_width (label_width + gap)
                  else Some count_flag) ;;
  let usable := if (count_flag =? 0)%Z then roll_width else usable_flag in
  (* if still 0 but usable_width >= label_width, a single column whose gap
     is the whole one-sided leftover; otherwise across_count = 0 *)
  let forced := (count_full =? 0)%Z && (label_width <=? usable) in
  let count := if forced then 1%Z else count_full in
  let gap_out :=
    if forced then Some (py_max 0 (usable - label_width))
    else if (1 <? count)%Z
         then Some (py_max 0 (usable - float_de_int count * label_width)
                    / float_de_int (count - 1))
         else None in
  let utilization :=
    if 0 <? usable
    then float_de_int count * label_width / usable * 100
    else 0 in
  Some (mkHorizontalFitResult count gap_out utilization usable).

(** ** [calcular_metraje_material]: material usage *)

Record Metraje : Type := mkMetraje {
  repeticiones_reales : float;
  ml : float;
  m2 : float
}.

Definition calcular_metraje_material (unidades etq_repeat : Z)
    (desarrollo_mm ancho_rollo_mm ajuste_mm : float) : option Metraje :=
  if (etq_repeat <=? 0)%Z || (desarrollo_mm <=? 0) || (ancho_rollo_mm <=? 0)
  then Some (mkMetraje 0 0 0)
  else
    repeticiones_reales <-- int_truediv unidades etq_repeat ;;
    let longitud_sin_merma_mm := repeticiones_reales * desarrollo_mm in
    let merma_mm := repeticiones_reales * ajuste_mm in
    let longitud_total_mm := longitud_sin_merma_mm + merma_mm in
    let ml := longitud_total_mm / 1000 in
    let m2 := ml * (ancho_rollo_mm / 1000) in
    Some (mkMetraje repeticiones_reales ml m2).

(** ** [obtener_z_sugerido]: the cylinder with the least linear meters *)

(** The dict returned with ["es_valido": True]; [s_rollo_alternativo] is
    the ["rollo_alternativo"] key, present only in the second pass. *)
Record Solucion : Type := mkSolucion {
  s_z : Z;
  s_n : Z;
  s_desarrollo_mm : float;
  s_gap_vertical : float;
  s_etq_eje : Z;
  s_gap_horizontal_real : option float;
  s_etq_repeat : Z;
  s_repeticiones : float;
  s_ml : float;
  s_m2 : float;
  s_ancho_rollo_mm : float;
  s_rollo_alternativo : bool
}.

(** The dict returned with ["es_valido": False]. *)
Record Imposibilidad : Type := mkImposibilidad {
  i_z : Z;
  i_ancho_rollo_mm : float;
  i_motivo_imposibilidad : option string;
  i_gap_horizontal_real : float
}.

Inductive Resultado : Type :=
  | Valido (s : Solucion)
  | NoValido (i : Imposibilidad).

(** The three variables a scan carries. *)
Record Estado : Type := mkEstado {
  mejor : option Solucion;
  motivo : option string;
  fallback : option Z
}.

Fixpoint for_each {S : Type} (body : S -> Z -> option S) (l : list Z)
    (st : S) : option S :=
  match l with
  | [] => Some st
  | z :: l' => st' <-- body st z ;; for_each body l' st'
  end.

(** [mejor is None or metraje["ml"] < mejor["ml"]]. *)
Definition mejora (mejor : option Solucion) (metraje : Metraje) : bool :=
  match mejor with
  | None => true
  | Some m => ml metraje <? s_ml m
  end.

Local Open Scope string_scope.

(** The three f-strings; [int(...)] of a float may raise. *)
Definition motivo_alto (alto_etq : float) : option string :=
  k <-- py_int alto_etq ;;
  Some ("Alto " ++ py_str k
        ++ "mm no cabe en ningun cilindro disponible (60-168mm)").

Definition motivo_ancho (ancho_etq ancho_rollo_mm : float) : option string :=
  k <-- py_int ancho_etq ;;
  j <-- py_int ancho_rollo_mm ;;
  Some ("Ancho " ++ py_str k ++ "mm no cabe en rollo " ++ py_str j ++ "mm").

Definition motivo_ancho_330 (ancho_etq : float) : option string :=
  k <-- py_int ancho_etq ;;
  j <-- py_int ROLLO_BASE_MM ;;
  Some ("Ancho " ++ py_str k ++ "mm no cabe incluso en rollo estandar "
        ++ py_str j ++ "mm").

Local Close Scope string_scope.

(** Body of the first loop (the roll width asked for). *)
Definition cuerpo_primera (alto_etq ancho_etq : float) (unidades : Z)
    (ancho_rollo_mm : float) (st : Estado) (z : Z) : option Estado :=
  ev_z <-- evaluar_z_uniforme z alto_etq GAP_VERTICAL_OBJETIVO
             GAP_VERTICAL_MIN GAP_VERTICAL_MAX MAX_REPETICIONES_VERTICALES ;;
  if negb (ev_valido ev_z) then
    match motivo st with
    | None =>
        texto <-- motivo_alto alto_etq ;;
        Some (mkEstado (mejor st) (Some texto) (fallback st))
    | Some _ => Some st
    end
  else
    ev_rollo <-- evaluar_rollo_estandar ancho_rollo_mm ancho_etq
                   GAP_HORIZONTAL_OBJETIVO BANDERA_HORIZONTAL ;;
    if (etq_eje ev_rollo <=? 0)%Z then
      match fallback st with
      | None =>
          texto <-- motivo_ancho ancho_etq ancho_rollo_mm ;;
          Some (mkEstado (mejor st) (Some texto) (Some z))
      | Some _ => Some st
      end
    else
      let etq_repeat := (ev_n ev_z * etq_eje ev_rollo)%Z in
      metraje <-- calcular_metraje_material unidades etq_repeat
                    (ev_desarrollo_mm ev_z) ancho_rollo_mm
                    AJUSTE_DESARROLLO_REP_MM ;;
      if mejora (mejor st) metraje then
        Some (mkEstado
                (Some (mkSolucion z (ev_n ev_z) (ev_desarrollo_mm ev_z)
                         (ev_gap ev_z) (etq_eje ev_rollo)
                         (gap_entre ev_rollo) etq_repeat
                         (repeticiones_reales metraje) (ml metraje)
                         (m2 metraje) ancho_rollo_mm false))
                (motivo st) (fallback st))
      else Some st.

(** Body of the second loop (the standard roll). *)
Definition cuerpo_segunda (alto_etq ancho_etq : float) (unidades : Z)
    (st : Estado) (z : Z) : option Estado :=
  ev_z <-- evaluar_z_uniforme z alto_etq GAP_VERTICAL_OBJETIVO
             GAP_VERTICAL_MIN GAP_VERTICAL_MAX MAX_REPETICIONES_VERTICALES ;;
  if negb (ev_valido ev_z) then Some st
  else
    ev_rollo <-- evaluar_rollo_estandar ROLLO_BASE_MM ancho_etq
                   GAP_HORIZONTAL_OBJETIVO BANDERA_HORIZONTAL ;;
    if (etq_eje ev_rollo <=? 0)%Z then
      match fallback st with
      | None =>
          texto <-- motivo_ancho_330 ancho_etq ;;
          Some (mkEstado (mejor st) (Some texto) (Some z))
      | Some _ => Some st
      end
    else
      let etq_repeat := (ev_n ev_z * etq_eje ev_rollo)%Z in
      metraje <-- calcular_metraje_material unidades etq_repeat
                    (ev_desarrollo_mm ev_z) ROLLO_BASE_MM
                    AJUSTE_DESARROLLO_REP_MM ;;
      if mejora (mejor st) metraje then
        Some (mkEstado
                (Some (mkSolucion z (ev_n ev_z) (ev_desarrollo_mm ev_z)
                         (ev_gap ev_z) (etq_eje ev_rollo)
                         (gap_entre ev_rollo) etq_repeat
                         (repeticiones_reales metraje) (ml metraje)
                         (m2 metraje) ROLLO_BASE_MM true))
                (motivo st) (fallback st))
      else Some st.

(** The two loop bodies have one shape: they differ in the roll width, in
    what the invalid branch records ([texto_v], the text to compute, if
    any), in the text of the horizontal reason ([texto_h]) and in the
    ["rollo_alternativo"] key.  [cuerpo_comun] is that shape, for the
    proofs. *)
Definition cuerpo_comun (alto_etq ancho_etq : float) (unidades : Z)
    (ancho_rollo_mm : float) (texto_v : option (option string))
    (texto_h : option string) (alternativo : bool) (st : Estado) (z : Z)
  : option Estado :=
  ev_z <-- evaluar_z_uniforme z alto_etq GAP_VERTICAL_OBJETIVO
             GAP_VERTICAL_MIN GAP_VERTICAL_MAX MAX_REPETICIONES_VERTICALES ;;
  if negb (ev_valido ev_z) then
    match texto_v with
    | Some t =>
        match motivo st with
        | None =>
            texto <-- t ;;
            Some (mkEstado (mejor st) (Some texto) (fallback st))
        | Some _ => Some st
        end
    | None => Some st
    end
  else
    ev_rollo <-- evaluar_rollo_estandar ancho_rollo_mm ancho_etq
                   GAP_HORIZONTAL_OBJETIVO BANDERA_HORIZONTAL ;;
    if (etq_eje ev_rollo <=? 0)%Z then
      match fallback st with
      | None =>
          texto <-- texto_h ;;
          Some (mkEstado (mejor st) (Some texto) (Some z))
      | Some _ => Some st
      end
    else
      let etq_repeat := (ev_n ev_z * etq_eje ev_rollo)%Z in
      metraje <-- calcular_metraje_material unidades etq_repeat
                    (ev_desarrollo_mm ev_z) ancho_rollo_mm
                    AJUSTE_DESARROLLO_REP_MM ;;
      if mejora (mejor st) metraje then
        Some (mkEstado
                (Some (mkSolucion z (ev_n ev_z) (ev_desarrollo_mm ev_z)
                         (ev_gap ev_z) (etq_eje ev_rollo)
                         (gap_entre ev_rollo) etq_repeat
                         (repeticiones_reales metraje) (ml metraje)
                         (m2 metraje) ancho_rollo_mm alternativo))
                (motivo st) (fallback st))
      else Some st.

(** The first scan, from [mejor = None], [motivo_imposibilidad = None],
    [z_fallback = None]. *)
Definition primera_pasada (alto_etq ancho_etq : float) (unidades : Z)
    (ancho_rollo_mm : float) : option Estado :=
  for_each (cuerpo_primera alto_etq ancho_etq unidades ancho_rollo_mm)
    CILINDROS_FB (mkEstado None None None).

(** The second scan; it is only reached with [mejor = None]. *)
Definition segunda_pasada (alto_etq ancho_etq : float) (unidades : Z)
  : option Estado :=
  for_each (cuerpo_segunda alto_etq ancho_etq unidades)
    CILINDROS_FB (mkEstado None None None).

(** The last two statements of the function. *)
Definition retorno_final (st : Estado) (ancho_rollo_mm : float)
  : option Resultado :=
  match fallback st with
  | Some zf =>
      if verdadero (motivo st) then
        Some (NoValido (mkImposibilidad zf ancho_rollo_mm (motivo st) 0))
      else None
  | None => None
  end.

(** The outer [option] is for an exception, the inner one for the
    [return None] of the source. *)
Definition obtener_z_sugerido (alto_etq ancho_etq : float) (unidades : Z)
    (ancho_rollo_mm : option float) : option (option Resultado) :=
  let ancho_rollo_mm :=
    match ancho_rollo_mm with
    | None => ROLLO_BASE_MM
    | Some w => w
    end in
  st <-- primera_pasada alto_etq ancho_etq unidades ancho_rollo_mm ;;
  match mejor st with
  | Some m => Some (Some (Valido m))
  | None =>
      if negb (ancho_rollo_mm =? ROLLO_BASE_MM) then
        st330 <-- segunda_pasada alto_etq ancho_etq unidades ;;
        match mejor st330 with
        | Some m => Some (Some (Valido m))
        | None =>
            match fallback st330 with
            | Some zf =>
                Some (Some (NoValido (mkImposibilidad zf ROLLO_BASE_MM
                                        (motivo st330) 0)))
            | None => Some (retorno_final st ancho_rollo_mm)
            end
        end
      else Some (retorno_final st ancho_rollo_mm)
  end.

(** ** [extraer_ancho_rollo_mm] on floats *)

(** [float(d)] for a string of digits: the float nearest to the number
    (an infinity beyond the range of the floats, as in Python). *)
Definition float_de_digitos (d : string) : option float :=
  match NilZero.uint_of_string d with
  | Some u => Some (float_de_int (Z.of_uint u))
  | None => None
  end.

Definition extraer_ancho_rollo_mm (nombre_componente : string)
  : option float :=
  match nombre_componente with
  | EmptyString => None
  | String _ _ =>
      match primera_coincidencia nombre_componente with
      | Some d => float_de_digitos d
      | None => None
      end
  end.

(** ** [calcular_z_y_metraje]: the row of a component *)

(** [max(1, int(e)) if e > 0 else 1]. *)
Definition unidades_para_calculo (etiquetas_a_producir : float) : option Z :=
  if 0 <? etiquetas_a_producir
  then k <-- py_int etiquetas_a_producir ;; Some (Z.max 1 k)
  else Some 1%Z.

(** The [pd.Series] the function returns, by its keys; [None] is Python's
    [None]. *)
Record Fila : Type := mkFila {
  Z_Sugerido : option Z;
  Desarrollo_mm : option float;
  gap_vertical : option float;
  Ancho_rollo_mm : float;
  n_vertical : option Z;
  gap_horizontal_real : option float;
  etq_eje_horizontal : option Z;
  Etiquetas_repeticion : option Z;
  Repeticiones : option float;
  Merma_mm : option float;
  Merma_m : option float;
  ML_sin_merma : option float;
  M2_sin_merma : option float;
  motivo_imposibilidad : option string
}.

(** The dict appended to [imposibilidades_tecnicas]. *)
Record ImposibilidadTecnica : Type := mkImposibilidadTecnica {
  Codigo : string;
  Componente : string;
  Alto_mm : Z;
  Ancho_mm : Z;
  Z_Asignado : Z;
  Rollo_mm : Z;
  Motivo : option string
}.

Definition fila_vacia (ancho_rollo : float) (motivo : string) : Fila :=
  mkFila None None None ancho_rollo None None None None None None None None
    None (Some motivo).

Local Open Scope string_scope.

(** The function from [if resultado_z is None] on: the row, and what is
    appended to [imposibilidades_tecnicas], if anything. *)
Definition fila_de_resultado (alto ancho : float)
    (nombre_componente codigo : string) (ancho_rollo : float)
    (resultado_z : option Resultado)
  : option (Fila * option ImposibilidadTecnica) :=
  match resultado_z with
  | None =>
      k <-- py_int alto ;;
      j <-- py_int ancho ;;
      Some (fila_vacia ancho_rollo
              ("IMPOSIBLE: Etiqueta " ++ py_str k ++ "x" ++ py_str j
               ++ "mm no cabe en ningun rollo disponible"),
            None)
  | Some (NoValido i) =>
      k <-- py_int alto ;;
      j <-- py_int ancho ;;
      r <-- py_int (i_ancho_rollo_mm i) ;;
      Some (mkFila (Some (i_z i)) None None (i_ancho_rollo_mm i) None
              (Some 0%float) None None None None None None None
              (i_motivo_imposibilidad i),
            Some (mkImposibilidadTecnica codigo nombre_componente k j
                    (i_z i) r (i_motivo_imposibilidad i)))
  | Some (Valido s) =>
      let repeticiones := s_repeticiones s in
      let merma_total_mm :=
        (repeticiones * AJUSTE_DESARROLLO_REP_MM)%float in
      let etiquetas_por_rep := (s_n s * s_etq_eje s)%Z in
      let gap_horizontal_real :=
        match s_gap_horizontal_real s with
        | Some g => Some g
        | None =>
            if (s_etq_eje s =? 1)%Z then
              let rollo := s_ancho_rollo_mm s in
              Some (if (ancho <? rollo)%float
                    then ((rollo - ancho) / 2)%float else 0%float)
            else None
        end in
      Some (mkFila (Some (s_z s))
              (Some (py_round (s_desarrollo_mm s) 2))
              (Some (py_round (s_gap_vertical s) 2))
              (s_ancho_rollo_mm s)
              (Some (s_n s))
              (option_map (fun g => py_round g 2) gap_horizontal_real)
              (Some (s_etq_eje s))
              (Some etiquetas_por_rep)
              (if (repeticiones =? 0)%float then None
               else Some (py_round repeticiones 2))
              (Some (py_round merma_total_mm 2))
              (Some (py_round (merma_total_mm / 1000)%float 4))
              (Some (py_round (s_ml s) 2))
              (Some (py_round (s_m2 s) 2))
              (Some ""),
            None)
  end.

(** [row] is read at its keys ['Etiqueta_Alto'], ['Etiqueta_Ancho'],
    ['Etiquetas_a_Producir'], ['Nomb_componente'] and ['Codigo']; the three
    numbers are taken as floats, and [round] as the built-in of Python on a
    float. *)
Definition calcular_z_y_metraje (alto ancho etiquetas_a_producir : float)
    (nombre_componente codigo : string)
  : option (Fila * option ImposibilidadTecnica) :=
  let ancho_rollo :=
    match extraer_ancho_rollo_mm nombre_componente with
    | None => ROLLO_BASE_MM
    | Some w => w
    end in
  if (alto =? 0)%float || (ancho =? 0)%float then
    Some (fila_vacia ancho_rollo "SIN MEDIDAS", None)
  else
    unidades <-- unidades_para_calculo etiquetas_a_producir ;;
    resultado_z <-- obtener_z_sugerido alto ancho unidades
                      (Some ancho_rollo) ;;
    fila_de_resultado alto ancho nombre_componente codigo ancho_rollo
      resultado_z.

Local Close Scope string_scope.

(** *** Candidates of the search *)

(** [s] is the dict a loop body builds for cylinder [z] on the roll
    [ancho_rollo_mm], from its vertical fit, the horizontal fit on the roll
    and the material usage of the two. *)
Definition candidato_de (alto_etq ancho_etq : float) (unidades : Z)
    (ancho_rollo_mm : float) (alternativo : bool) (z : Z) (s : Solucion)
  : Prop :=
  exists ev r m,
    evaluar_z_uniforme z alto_etq GAP_VERTICAL_OBJETIVO GAP_VERTICAL_MIN
      GAP_VERTICAL_MAX MAX_REPETICIONES_VERTICALES = Some ev
    /\ ev_valido ev = true
    /\ evaluar_rollo_estandar ancho_rollo_mm ancho_etq
         GAP_HORIZONTAL_OBJETIVO BANDERA_HORIZONTAL = Some r
    /\ (0 < etq_eje r)%Z
    /\ calcular_metraje_material unidades (ev_n ev * etq_eje r)
         (ev_desarrollo_mm ev) ancho_rollo_mm AJUSTE_DESARROLLO_REP_MM
       = Some m
    /\ s = mkSolucion z (ev_n ev) (ev_desarrollo_mm ev) (ev_gap ev)
             (etq_eje r) (gap_entre r) (ev_n ev * etq_eje r)%Z
             (repeticiones_reales m) (ml m) (m2 m) ancho_rollo_mm alternativo.

(** [s] is the best of the cylinders [zs]: the candidate of its own
    cylinder, with no candidate of fewer linear meters, and of the largest
    cylinder among the candidates with the same linear meters; the
    comparisons are those of the floats. *)
Definition minimo_del_catalogo (alto_etq ancho_etq : float) (unidades : Z)
    (ancho_rollo_mm : float) (alternativo : bool) (zs : list Z)
    (s : Solucion) : Prop :=
  In (s_z s) zs
  /\ candidato_de alto_etq ancho_etq unidades ancho_rollo_mm alternativo
       (s_z s) s
  /\ forall z s',
       In z zs ->
       candidato_de alto_etq ancho_etq unidades ancho_rollo_mm alternativo
         z s' ->
       (s_ml s' <? s_ml s) = false
       /\ ((s_ml s' =? s_ml s) = true -> (z <= s_z s)%Z).

(** What a scan has established after the cylinders [zs]. *)
Definition mejor_hasta (alto_etq ancho_etq : float) (unidades : Z)
    (ancho_rollo_mm : float) (alternativo : bool) (zs : list Z)
    (st : Estado) : Prop :=
  match mejor st with
  | Some s =>
      minimo_del_catalogo alto_etq ancho_etq unidades ancho_rollo_mm
        alternativo zs s
  | None =>
      forall z s', In z zs ->
                   ~ candidato_de alto_etq ancho_etq unidades ancho_rollo_mm
                       alternativo z s'
  end.

End Doble.

(** ** Notions used to state and prove the properties on floats *)

(** The order of two non-NaN values of [spec_float], read off the
    constructors as [SFcompare] does: a key that is compared
    lexicographically. *)
Definition clave (x : spec_float) : Z * Z * Z :=
  match x with
  | S754_nan => (0, 0, 0)%Z
  | S754_zero _ => (0, 0, 0)%Z
  | S754_infinity false => (2, 0, 0)%Z
  | S754_infinity true => (-2, 0, 0)%Z
  | S754_finite false m e => (1, e, Zpos m)%Z
  | S754_finite true m e => (-1, - e, Zneg m)%Z
  end.

Definition lex (a b : Z * Z * Z) : comparison :=
  let '(a1, a2, a3) := a in
  let '(b1, b2, b3) := b in
  match (a1 ?= b1)%Z with
  | Eq => match (a2 ?= b2)%Z with
          | Eq => (a3 ?= b3)%Z
          | c => c
          end
  | c => c
  end.

(** Zero, a positive finite float or plus infinity. *)
Definition no_negativo (x : float) : Prop :=
  match Prim2SF x with
  | S754_zero _ | S754_finite false _ _ | S754_infinity false => True
  | _ => False
  end.

(** The floats that compare below zero. *)
Definition negativo (x : spec_float) : Prop :=
  match x with
  | S754_finite true _ _ | S754_infinity true => True
  | _ => False
  end.

(** The floats that compare above zero. *)
Definition positivo_sf (x : spec_float) : Prop :=
  match x with
  | S754_finite false _ _ | S754_infinity false => True
  | _ => False
  end.

(** The fields of the code's dict, from the result in the words of the
    specification. *)
Definition rollo_de_spec (h : Doble.HorizontalFitResult)
  : Doble.EvaluacionRollo :=
  Doble.mkEvaluacionRollo (Doble.across_count h) (Doble.gap_mm h)
    (Doble.utilization_pct h) (Some (Doble.usable_width_mm h)).

(** * Properties *)

(** ** Comparisons and numeric helpers *)

Lemma Qltb_true (a b : Q) : Qltb a b = true <-> a < b.
Proof.
  unfold Qltb. rewrite negb_true_iff. split; intros H.
  - apply Qnot_le_lt. intros Hle. apply Qle_bool_iff in Hle. congruence.
  - destruct (Qle_bool b a) eqn:E; [|reflexivity].
    apply Qle_bool_iff in E. exfalso. apply (Qlt_not_le _ _ H E).
Qed.

Lemma Qltb_false (a b : Q) : Qltb a b = false <-> b <= a.
Proof.
  unfold Qltb. rewrite negb_false_iff. apply Qle_bool_iff.
Qed.

Lemma Qle_bool_false (a b : Q) : Qle_bool a b = false <-> b < a.
Proof.
  rewrite <- Qltb_true. unfold Qltb. rewrite negb_true_iff. reflexivity.
Qed.

Lemma Qeq_bool_false_of_lt (b : Q) : 0 < b -> Qeq_bool b 0 = false.
Proof.
  intros H. destruct (Qeq_bool b 0) eqn:E; [|reflexivity].
  apply Qeq_bool_eq in E. rewrite E in H. exfalso. apply (Qlt_irrefl 0 H).
Qed.

Lemma py_max_cases (a b : Q) :
  (a < b /\ py_max a b = b) \/ (b <= a /\ py_max a b = a).
Proof.
  unfold py_max. destruct (Qltb a b) eqn:E.
  - left. split; [apply Qltb_true, E | reflexivity].
  - right. split; [apply Qltb_false, E | reflexivity].
Qed.

Lemma py_int_inject_Z (k : Z) : py_int (inject_Z k) = k.
Proof. unfold py_int. cbn. apply Z.quot_1_r. Qed.

Lemma inject_Z_pos (k : Z) : (0 < k)%Z -> 0 < inject_Z k.
Proof. intros H. rewrite Zlt_Qlt in H. exact H. Qed.

Lemma inject_Z_ge1 (k : Z) : (1 <= k)%Z -> 1 <= inject_Z k.
Proof. intros H. rewrite Zle_Qle in H. exact H. Qed.

Lemma inject_Z_nonneg (k : Z) : (0 <= k)%Z -> 0 <= inject_Z k.
Proof. intros H. rewrite Zle_Qle in H. exact H. Qed.

(** [floor(a / b)] is the integer [k] with [k * b <= a < (k + 1) * b]. *)
Lemma Qfloor_div_bounds (a b : Q) :
  0 < b ->
  inject_Z (Qfloor (a / b)) * b <= a /\ a < (inject_Z (Qfloor (a / b)) + 1) * b.
Proof.
  intros Hb.
  assert (Hq : a == (a / b) * b) by (field; lra).
  pose proof (Qfloor_le (a / b)) as Hlo.
  pose proof (Qlt_floor (a / b)) as Hhi.
  rewrite inject_Z_plus in Hhi. change (inject_Z 1) with 1 in Hhi.
  split.
  - rewrite Hq at 2. apply Qmult_le_compat_r; lra.
  - rewrite Hq at 1. apply Qmult_lt_compat_r; lra.
Qed.

(** ** The monad *)

Lemma value_bind {A B : Type} (m : Run A) (f : A -> Run B) :
  value (bind m f) =
  match value m with
  | None => None
  | Some a => value (f a)
  end.
Proof.
  destruct m as [dm [a|]]; cbn; [|reflexivity]. destruct (f a); reflexivity.
Qed.

Lemma divisors_bind {A B : Type} (m : Run A) (f : A -> Run B) :
  divisors (bind m f) =
  match value m with
  | None => divisors m
  | Some a => divisors m ++ divisors (f a)
  end.
Proof.
  destruct m as [dm [a|]]; cbn; [|reflexivity]. destruct (f a); reflexivity.
Qed.

Lemma returns_bind {A B : Type} (m : Run A) (f : A -> Run B) (a : A) (b : B) :
  returns m a -> returns (f a) b -> returns (bind m f) b.
Proof.
  unfold returns. intros Hm Hf. rewrite value_bind, Hm. exact Hf.
Qed.

Lemma returns_bind_inv {A B : Type} (m : Run A) (f : A -> Run B) (b : B) :
  returns (bind m f) b -> exists a, returns m a /\ returns (f a) b.
Proof.
  unfold returns. rewrite value_bind. destruct (value m) as [a|]; [|discriminate].
  intros H. exists a. split; [reflexivity | exact H].
Qed.

Lemma returns_inj {A : Type} (m : Run A) (a b : A) :
  returns m a -> returns m b -> a = b.
Proof. unfold returns. congruence. Qed.

Lemma positive_ret {A : Type} (a : A) : divisors_positive (ret a).
Proof. constructor. Qed.

Lemma positive_bind {A B : Type} (m : Run A) (f : A -> Run B) :
  divisors_positive m ->
  (forall a, returns m a -> divisors_positive (f a)) ->
  divisors_positive (bind m f).
Proof.
  unfold divisors_positive, returns. intros Hm Hf. rewrite divisors_bind.
  destruct (value m) as [a|]; [|exact Hm].
  apply Forall_app. split; [exact Hm | apply Hf; reflexivity].
Qed.

Lemma truediv_pos (a b : Q) :
  0 < b -> truediv a b = mkRun [b] (Some (a / b)).
Proof. intros H. unfold truediv. rewrite Qeq_bool_false_of_lt; auto. Qed.

Lemma floordiv_pos (a b : Q) :
  0 < b -> floordiv a b = mkRun [b] (Some (inject_Z (Qfloor (a / b)))).
Proof. intros H. unfold floordiv. rewrite Qeq_bool_false_of_lt; auto. Qed.

(** ** [calcular_metraje_material] *)

Lemma calcular_metraje_material_guard (unidades etq_repeat : Z)
    (desarrollo_mm ancho_rollo_mm ajuste_mm : Q) :
  (etq_repeat <= 0)%Z \/ desarrollo_mm <= 0 \/ ancho_rollo_mm <= 0 ->
  calcular_metraje_material unidades etq_repeat desarrollo_mm ancho_rollo_mm
    ajuste_mm = ret (mkMetraje 0 0 0).
Proof.
  intros H. unfold calcular_metraje_material.
  assert (E : (etq_repeat <=? 0)%Z || Qle_bool desarrollo_mm 0
              || Qle_bool ancho_rollo_mm 0 = true).
  { destruct H as [H | [H | H]].
    - apply Z.leb_le in H. rewrite H. reflexivity.
    - apply Qle_bool_iff in H. rewrite H. apply orb_true_iff. left.
      apply orb_true_r.
    - apply Qle_bool_iff in H. rewrite H. apply orb_true_r. }
  rewrite E. reflexivity.
Qed.

Lemma calcular_metraje_material_run (unidades etq_repeat : Z)
    (desarrollo_mm ancho_rollo_mm ajuste_mm : Q) :
  (0 < etq_repeat)%Z -> 0 < desarrollo_mm -> 0 < ancho_rollo_mm ->
  calcular_metraje_material unidades etq_repeat desarrollo_mm ancho_rollo_mm
    ajuste_mm =
  mkRun [inject_Z etq_repeat]
    (Some (mkMetraje
             (inject_Z unidades / inject_Z etq_repeat)
             ((inject_Z unidades / inject_Z etq_repeat * desarrollo_mm
               + inject_Z unidades / inject_Z etq_repeat * ajuste_mm) / 1000)
             ((inject_Z unidades / inject_Z etq_repeat * desarrollo_mm
               + inject_Z unidades / inject_Z etq_repeat * ajuste_mm) / 1000
              * (ancho_rollo_mm / 1000)))).
Proof.
  intros He Hd Hw. unfold calcular_metraje_material.
  assert (E : (etq_repeat <=? 0)%Z || Qle_bool desarrollo_mm 0
              || Qle_bool ancho_rollo_mm 0 = false).
  { apply orb_false_iff. split; [apply orb_false_iff; split|].
    - apply Z.leb_gt, He.
    - apply Qle_bool_false, Hd.
    - apply Qle_bool_false, Hw. }
  rewrite E. rewrite truediv_pos by (apply inject_Z_pos, He).
  reflexivity.
Qed.

(** C7. The material-usage calculator returns
    revolutions = quantity / labels_per_revolution,
    linear_meters = (revolutions * circumference + revolutions * 0.75) / 1000
    and area_m2 = linear_meters * (roll_width / 1000); all three outputs are
    zero whenever labels_per_revolution <= 0, circumference <= 0 or
    roll width <= 0.  In both cases it returns without raising. *)
Theorem calcular_metraje_material_formulas (unidades etq_repeat : Z)
    (desarrollo_mm ancho_rollo_mm : Q) :
  ((etq_repeat <= 0)%Z \/ desarrollo_mm <= 0 \/ ancho_rollo_mm <= 0 ->
   returns
     (calcular_metraje_material unidades etq_repeat desarrollo_mm
        ancho_rollo_mm AJUSTE_DESARROLLO_REP_MM)
     (mkMetraje 0 0 0))
  /\
  ((0 < etq_repeat)%Z /\ 0 < desarrollo_mm /\ 0 < ancho_rollo_mm ->
   exists r : Metraje,
     returns
       (calcular_metraje_material unidades etq_repeat desarrollo_mm
          ancho_rollo_mm AJUSTE_DESARROLLO_REP_MM) r
     /\ repeticiones_reales r = inject_Z unidades / inject_Z etq_repeat
     /\ ml r = (repeticiones_reales r * desarrollo_mm
                + repeticiones_reales r * (75 # 100)) / 1000
     /\ m2 r = ml r * (ancho_rollo_mm / 1000)).
Proof.
  split.
  - intros H. rewrite calcular_metraje_material_guard by exact H.
    reflexivity.
  - intros (He & Hd & Hw).
    rewrite calcular_metraje_material_run by assumption.
    eexists. split; [reflexivity|]. cbn [repeticiones_reales ml m2].
    repeat split; reflexivity.
Qed.

(** Both branches of C7 on concrete inputs: 10000 labels at 63 per
    revolution on cylinder 116 and the standard roll, and a zero
    labels-per-revolution. *)
Example calcular_metraje_material_ejemplo :
  returns (calcular_metraje_material 10000 63 (3683 # 10) 330 (75 # 100))
    (mkMetraje (10000 / 63)
       ((10000 / 63 * (3683 # 10) + 10000 / 63 * (75 # 100)) / 1000)
       ((10000 / 63 * (3683 # 10) + 10000 / 63 * (75 # 100)) / 1000
        * (330 / 1000)))
  /\ returns (calcular_metraje_material 10000 0 (3683 # 10) 330 (75 # 100))
       (mkMetraje 0 0 0).
Proof. split; reflexivity. Qed.

(** Rules for [safely], one per construct of the monad. *)

Lemma safely_ret {A : Type} (a : A) (P : A -> Prop) : P a -> safely (ret a) P.
Proof. intros H. exists a. repeat split; [constructor | exact H]. Qed.

Lemma safely_bind {A B : Type} (m : Run A) (f : A -> Run B) (P : B -> Prop) :
  safely m (fun a => safely (f a) P) -> safely (bind m f) P.
Proof.
  intros (a & Ha & Hm & b & Hb & Hf & HP). exists b. repeat split.
  - exact (returns_bind m f a b Ha Hb).
  - apply positive_bind; [exact Hm|]. intros a' Ha'.
    rewrite (returns_inj m a' a Ha' Ha). exact Hf.
  - exact HP.
Qed.

Lemma safely_truediv (a b : Q) (P : Q -> Prop) :
  0 < b -> P (a / b) -> safely (truediv a b) P.
Proof.
  intros Hb HP. rewrite truediv_pos by exact Hb. exists (a / b).
  repeat split; [|exact HP]. constructor; [exact Hb | constructor].
Qed.

Lemma safely_floordiv (a b : Q) (P : Q -> Prop) :
  0 < b -> P (inject_Z (Qfloor (a / b))) -> safely (floordiv a b) P.
Proof.
  intros Hb HP. rewrite floordiv_pos by exact Hb.
  exists (inject_Z (Qfloor (a / b))).
  repeat split; [|exact HP]. constructor; [exact Hb | constructor].
Qed.

Lemma safely_mono {A : Type} (m : Run A) (P R : A -> Prop) :
  safely m P -> (forall a, P a -> R a) -> safely m R.
Proof.
  intros (a & Ha & Hm & HP) H. exists a. repeat split; auto.
Qed.

Lemma safely_returns {A : Type} (m : Run A) (P : A -> Prop) (a : A) :
  safely m P -> returns m a -> P a.
Proof.
  intros (a' & Ha' & _ & HP) Ha. rewrite (returns_inj m a a' Ha Ha'). exact HP.
Qed.

(** ** [evaluar_rollo_estandar] *)

Lemma evaluar_rollo_estandar_guard (ancho_mm ancho_etq gap_h_usado bandera_mm : Q) :
  ancho_mm <= 0 \/ ancho_etq + gap_h_usado <= 0 ->
  evaluar_rollo_estandar ancho_mm ancho_etq gap_h_usado bandera_mm =
  ret (mkEvaluacionRollo 0 None 0 None).
Proof.
  intros H. unfold evaluar_rollo_estandar.
  destruct (Qle_bool ancho_mm 0) eqn:E1; [reflexivity|].
  destruct H as [H | H].
  - apply Qle_bool_iff in H. congruence.
  - apply Qle_bool_iff in H. rewrite H. reflexivity.
Qed.

(** The run of the function past its two guards, branch by branch: [u] is
    the final [ancho_util] and [k] the value of [etq_eje] before the
    single-label rule. *)
Lemma evaluar_rollo_estandar_run (ancho_mm ancho_etq gap_h_usado bandera_mm : Q) :
  0 < ancho_mm -> 0 < ancho_etq + gap_h_usado ->
  safely (evaluar_rollo_estandar ancho_mm ancho_etq gap_h_usado bandera_mm)
    (fun r => exists (u : Q) (k : Z),
    ancho_util r = Some u
    /\ ((0 < Qfloor (py_max 0 (ancho_mm - bandera_mm)
                     / (ancho_etq + gap_h_usado)))%Z
        /\ u = py_max 0 (ancho_mm - bandera_mm)
        /\ k = Qfloor (u / (ancho_etq + gap_h_usado))
        \/
        (Qfloor (py_max 0 (ancho_mm - bandera_mm)
                 / (ancho_etq + gap_h_usado)) <= 0)%Z
        /\ u = ancho_mm
        /\ k = Z.max 0 (Qfloor (u / (ancho_etq + gap_h_usado))))
    /\ ((k <= 0)%Z /\ ancho_etq <= u /\ etq_eje r = 1%Z
        /\ gap_entre r = Some (py_max 0 (u - ancho_etq))
        \/
        ((0 < k)%Z \/ u < ancho_etq) /\ etq_eje r = k
        /\ gap_entre r =
           (if (1 <? k)%Z
            then Some (py_max 0 (u - inject_Z k * ancho_etq)
                       / inject_Z (k - 1))
            else None))
    /\ aprovechamiento_pct r =
       (if Qltb 0 u then inject_Z (etq_eje r) * ancho_etq / u * 100 else 0)).
Proof.
  intros Ha Hp. unfold evaluar_rollo_estandar.
  assert (E1 : Qle_bool ancho_mm 0 = false) by (apply Qle_bool_false, Ha).
  assert (E2 : Qle_bool (ancho_etq + gap_h_usado) 0 = false)
    by (apply Qle_bool_false, Hp).
  rewrite E1, E2.
  apply safely_bind, safely_floordiv; [exact Hp|].
  rewrite py_int_inject_Z.
  set (paso := ancho_etq + gap_h_usado) in *.
  set (u1 := py_max 0 (ancho_mm - bandera_mm)).
  apply safely_bind.
  destruct (Z.max 0 (Qfloor (u1 / paso)) <=? 0)%Z eqn:Ek1.
  - apply Z.leb_le in Ek1.
    apply safely_bind, safely_floordiv; [exact Hp|].
    apply safely_ret. rewrite py_int_inject_Z.
    set (k := Z.max 0 (Qfloor (ancho_mm / paso))).
    apply safely_bind.
    destruct ((k <=? 0)%Z && Qle_bool ancho_etq ancho_mm) eqn:Ec.
    + apply andb_true_iff in Ec as [Ek Ew].
      apply Z.leb_le in Ek. apply Qle_bool_iff in Ew.
      apply safely_ret, safely_bind.
      assert (E0 : Qltb 0 ancho_mm = true) by (apply Qltb_true, Ha).
      rewrite E0.
      apply safely_bind, safely_truediv; [exact Ha|].
      apply safely_ret, safely_ret.
      exists ancho_mm, k. cbn [ancho_util etq_eje gap_entre aprovechamiento_pct].
      rewrite E0. repeat split.
      * right. repeat split. lia.
      * left. repeat split; assumption.
    + assert (Hc : (0 < k)%Z \/ ancho_mm < ancho_etq).
      { apply andb_false_iff in Ec as [Ec | Ec].
        - left. apply Z.leb_gt, Ec.
        - right. apply Qle_bool_false, Ec. }
      assert (E0 : Qltb 0 ancho_mm = true) by (apply Qltb_true, Ha).
      destruct (1 <? k)%Z eqn:E1k.
      * apply Z.ltb_lt in E1k.
        apply safely_bind, safely_truediv;
          [apply inject_Z_pos; lia|].
        apply safely_ret, safely_bind. rewrite E0.
        apply safely_bind, safely_truediv; [exact Ha|].
        apply safely_ret, safely_ret.
        exists ancho_mm, k.
        cbn [ancho_util etq_eje gap_entre aprovechamiento_pct].
        rewrite E0. repeat split.
        -- right. repeat split. lia.
        -- right. repeat split; [exact Hc|].
           apply Z.ltb_lt in E1k. rewrite E1k. reflexivity.
      * apply safely_ret, safely_bind. rewrite E0.
        apply safely_bind, safely_truediv; [exact Ha|].
        apply safely_ret, safely_ret.
        exists ancho_mm, k.
        cbn [ancho_util etq_eje gap_entre aprovechamiento_pct].
        rewrite E0. repeat split.
        -- right. repeat split. lia.
        -- right. repeat split; [exact Hc|]. rewrite E1k. reflexivity.
  - apply Z.leb_gt in Ek1.
    assert (Hk : (0 < Qfloor (u1 / paso))%Z) by lia.
    rewrite Z.max_r by lia.
    set (k := Qfloor (u1 / paso)) in *.
    assert (Hu : 0 < u1).
    { destruct (Qfloor_div_bounds u1 paso Hp) as [Hlo _]. fold k in Hlo.
      assert (1 <= inject_Z k) by (apply inject_Z_ge1; lia).
      nra. }
    assert (E0 : Qltb 0 u1 = true) by (apply Qltb_true, Hu).
    apply safely_ret, safely_bind.
    assert (Ec : (k <=? 0)%Z && Qle_bool ancho_etq u1 = false).
    { apply andb_false_iff. left. apply Z.leb_gt, Hk. }
    rewrite Ec.
    destruct (1 <? k)%Z eqn:E1k.
    + apply Z.ltb_lt in E1k.
      apply safely_bind, safely_truediv; [apply inject_Z_pos; lia|].
      apply safely_ret, safely_bind. rewrite E0.
      apply safely_bind, safely_truediv; [exact Hu|].
      apply safely_ret, safely_ret.
      exists u1, k.
      cbn [ancho_util etq_eje gap_entre aprovechamiento_pct].
      rewrite E0. repeat split.
      * left. repeat split. exact Hk.
      * right. repeat split; [left; exact Hk|].
        apply Z.ltb_lt in E1k. rewrite E1k. reflexivity.
    + apply safely_ret, safely_bind. rewrite E0.
      apply safely_bind, safely_truediv; [exact Hu|].
      apply safely_ret, safely_ret.
      exists u1, k.
      cbn [ancho_util etq_eje gap_entre aprovechamiento_pct].
      rewrite E0. repeat split.
      * left. repeat split. exact Hk.
      * right. repeat split; [left; exact Hk|]. rewrite E1k. reflexivity.
Qed.

(** Bounds on the run of [evaluar_rollo_estandar] past its guards: the
    usable width is not negative and [k] whole steps fit in it. *)
Lemma evaluar_rollo_estandar_bounds (ancho_mm ancho_etq gap_h_usado bandera_mm : Q) :
  0 < ancho_mm -> 0 < ancho_etq + gap_h_usado ->
  safely (evaluar_rollo_estandar ancho_mm ancho_etq gap_h_usado bandera_mm)
    (fun r => exists (u : Q) (k : Z),
       ancho_util r = Some u
       /\ 0 <= u /\ (0 <= k)%Z
       /\ inject_Z k * (ancho_etq + gap_h_usado) <= u
       /\ ((k <= 0)%Z /\ ancho_etq <= u /\ etq_eje r = 1%Z
           \/ ((0 < k)%Z \/ u < ancho_etq) /\ etq_eje r = k)).
Proof.
  intros Ha Hp.
  apply (safely_mono _ _ _
           (evaluar_rollo_estandar_run ancho_mm ancho_etq gap_h_usado
              bandera_mm Ha Hp)).
  intros r (u & k & Hu & Hsel & Hres & _).
  exists u, k. split; [exact Hu|].
  assert (Hu1 : 0 <= py_max 0 (ancho_mm - bandera_mm)).
  { destruct (py_max_cases 0 (ancho_mm - bandera_mm)) as [[H E] | [H E]];
      rewrite E; lra. }
  assert (Hfacts : 0 <= u /\ (0 <= k)%Z
                   /\ inject_Z k * (ancho_etq + gap_h_usado) <= u).
  { destruct Hsel as [(Hk & Eu & Ek) | (Hk & Eu & Ek)].
    - subst u. rewrite Ek. repeat split; [exact Hu1 | lia |].
      apply (Qfloor_div_bounds _ _ Hp).
    - subst u. split; [lra|].
      split; [rewrite Ek; apply Z.le_max_l|].
      destruct (Qfloor_div_bounds ancho_mm _ Hp) as [Hlo _].
      rewrite Ek.
      destruct (Z.max_spec 0 (Qfloor (ancho_mm / (ancho_etq + gap_h_usado))))
        as [[_ E] | [_ E]]; rewrite E; [exact Hlo|].
      change (inject_Z 0) with 0. lra. }
  destruct Hfacts as (H0u & H0k & Hkp). repeat split; try assumption.
  destruct Hres as [(Hk & Hw & He & _) | (Hc & He & _)].
  - left. repeat split; assumption.
  - right. split; assumption.
Qed.

(** C8, as stated, fails: with a negative gap the step [ancho_etq +
    gap_h_usado] is shorter than the label, and 310 labels of 100 mm are
    counted on a usable width of 310 mm. *)
Lemma evaluar_rollo_estandar_gap_negativo :
  exists (r : EvaluacionRollo) (u : Q),
    returns (evaluar_rollo_estandar 330 100 (-99) 20) r
    /\ ancho_util r = Some u
    /\ etq_eje r = 310%Z
    /\ u == 310
    /\ ~ inject_Z (etq_eje r) * 100 <= u.
Proof.
  eexists. eexists. split; [vm_compute; reflexivity|].
  split; [reflexivity|]. split; [reflexivity|].
  split; [reflexivity|]. cbn [etq_eje]. intros H. vm_compute in H.
  apply H. reflexivity.
Qed.

(** C8 (amended). For every roll width, every label width and every gap
    that is not negative, the horizontal fit returns without raising and,
    whenever the result carries a usable width, across_count * label_width
    <= usable_width; a result without usable width (roll width <= 0 or
    label_width + gap <= 0) has across_count = 0. *)
Theorem evaluar_rollo_estandar_cobertura
    (ancho_mm ancho_etq gap_h_usado bandera_mm : Q) :
  0 <= gap_h_usado ->
  safely (evaluar_rollo_estandar ancho_mm ancho_etq gap_h_usado bandera_mm)
    (fun r =>
       match ancho_util r with
       | Some u => inject_Z (etq_eje r) * ancho_etq <= u
       | None => etq_eje r = 0%Z
       end).
Proof.
  intros Hg.
  destruct (Qlt_le_dec 0 ancho_mm) as [Ha | Ha];
    [destruct (Qlt_le_dec 0 (ancho_etq + gap_h_usado)) as [Hp | Hp]|].
  - apply (safely_mono _ _ _
             (evaluar_rollo_estandar_bounds ancho_mm ancho_etq gap_h_usado
                bandera_mm Ha Hp)).
    intros r (u & k & Hu & H0u & H0k & Hkp & Hres). rewrite Hu.
    destruct Hres as [(_ & Hw & He) | (_ & He)]; rewrite He.
    + change (inject_Z 1) with 1. lra.
    + pose proof (inject_Z_nonneg k H0k) as Hk.
      destruct (Qlt_le_dec ancho_etq 0) as [Hneg | Hpos]; nra.
  - rewrite evaluar_rollo_estandar_guard by (right; exact Hp).
    apply safely_ret. reflexivity.
  - rewrite evaluar_rollo_estandar_guard by (left; exact Ha).
    apply safely_ret. reflexivity.
Qed.

Lemma evaluar_rollo_estandar_cobertura_witness :
  0 <= 27 # 10
  /\ safely (evaluar_rollo_estandar 330 30 (27 # 10) 20)
       (fun r =>
          match ancho_util r with
          | Some u => inject_Z (etq_eje r) * 30 <= u
          | None => etq_eje r = 0%Z
          end).
Proof.
  split.
  - discriminate.
  - apply (evaluar_rollo_estandar_cobertura 330 30 (27 # 10) 20). discriminate.
Defined.

(** On every input the horizontal fit returns, with positive divisors
    only, and the two guards give the empty result. *)
Lemma evaluar_rollo_estandar_safely
    (ancho_mm ancho_etq gap_h_usado bandera_mm : Q) :
  safely (evaluar_rollo_estandar ancho_mm ancho_etq gap_h_usado bandera_mm)
    (fun r =>
       (ancho_mm <= 0 \/ ancho_etq + gap_h_usado <= 0) ->
       etq_eje r = 0%Z /\ gap_entre r = None /\ aprovechamiento_pct r = 0).
Proof.
  destruct (Qlt_le_dec 0 ancho_mm) as [Ha | Ha];
    [destruct (Qlt_le_dec 0 (ancho_etq + gap_h_usado)) as [Hp | Hp]|].
  - apply (safely_mono _ _ _
             (evaluar_rollo_estandar_run ancho_mm ancho_etq gap_h_usado
                bandera_mm Ha Hp)).
    intros r _ [Hd | Hd]; exfalso; lra.
  - rewrite evaluar_rollo_estandar_guard by (right; exact Hp).
    apply safely_ret. intros _. repeat split.
  - rewrite evaluar_rollo_estandar_guard by (left; exact Ha).
    apply safely_ret. intros _. repeat split.
Qed.

(** C10. The horizontal fit is total: on every input it returns without
    raising and every division it executes ([//] by the step, [/] by
    [etq_eje - 1], [/] by the usable width) has a positive divisor; and for
    a roll width <= 0, or a label width and gap whose sum is <= 0, the
    result is across_count = 0, no gap and 0.0 utilization. *)
Theorem evaluar_rollo_estandar_total
    (ancho_mm ancho_etq gap_h_usado bandera_mm : Q) :
  (exists r,
     returns
       (evaluar_rollo_estandar ancho_mm ancho_etq gap_h_usado bandera_mm) r
     /\ ((ancho_mm <= 0 \/ ancho_etq + gap_h_usado <= 0) ->
         etq_eje r = 0%Z /\ gap_entre r = None
         /\ aprovechamiento_pct r = 0))
  /\ divisors_positive
       (evaluar_rollo_estandar ancho_mm ancho_etq gap_h_usado bandera_mm).
Proof.
  destruct (evaluar_rollo_estandar_safely ancho_mm ancho_etq gap_h_usado
              bandera_mm) as (r & Hr & Hd & Hdeg).
  split; [exists r; split; assumption | exact Hd].
Qed.

(** C10 on degenerate inputs, with the divisor log: no division at all. *)
Example evaluar_rollo_estandar_degenerado :
  evaluar_rollo_estandar 0 30 (27 # 10) 20
  = mkRun [] (Some (mkEvaluacionRollo 0 None 0 None))
  /\ evaluar_rollo_estandar (-5) 30 (27 # 10) 20
     = mkRun [] (Some (mkEvaluacionRollo 0 None 0 None))
  /\ evaluar_rollo_estandar 330 30 (-30) 20
     = mkRun [] (Some (mkEvaluacionRollo 0 None 0 None))
  /\ divisors (evaluar_rollo_estandar 330 30 (27 # 10) 20)
     = [327 # 10; 8; 310].
Proof. repeat split. Qed.

Lemma py_max_0_nonneg (x : Q) : 0 <= x -> py_max 0 x == x.
Proof.
  intros H. destruct (py_max_cases 0 x) as [[_ E] | [H' E]]; rewrite E.
  - reflexivity.
  - lra.
Qed.

Lemma Qfloor_div_nonneg (a b : Q) : 0 <= a -> 0 < b -> (0 <= Qfloor (a / b))%Z.
Proof.
  intros Ha Hb. destruct (Qfloor_div_bounds a b Hb) as [_ Hhi].
  destruct (Z_lt_le_dec (Qfloor (a / b)) 0) as [Hneg | Hok]; [|exact Hok].
  exfalso.
  assert (H1 : inject_Z (Qfloor (a / b)) + 1 <= 0).
  { assert (H2 : (Qfloor (a / b) + 1 <= 0)%Z) by lia.
    rewrite Zle_Qle, inject_Z_plus in H2. exact H2. }
  nra.
Qed.

Lemma inject_Z_pred (k : Z) : inject_Z (k - 1) == inject_Z k - 1.
Proof.
  unfold Z.sub. rewrite inject_Z_plus. reflexivity.
Qed.

(** The horizontal fit at work: nine labels of 30 mm on the standard roll, a forced single
    column of 329 mm, and a label that does not fit. *)
Example evaluar_rollo_estandar_ejemplos :
  returns (evaluar_rollo_estandar 330 30 (27 # 10) 20)
    (mkEvaluacionRollo 9 (Some ((310 - 9 * 30) / 8)) (9 * 30 / 310 * 100)
       (Some 310))
  /\ returns (evaluar_rollo_estandar 330 329 (27 # 10) 20)
       (mkEvaluacionRollo 1 (Some 1) (1 * 329 / 330 * 100) (Some 330))
  /\ returns (evaluar_rollo_estandar 330 340 (27 # 10) 20)
       (mkEvaluacionRollo 0 None (0 * 340 / 330 * 100) (Some 330)).
Proof. repeat split. Qed.

(** ** [evaluar_z_uniforme] *)

Lemma py_range_In (a b m : Z) : In m (py_range a b) <-> (a <= m < b)%Z.
Proof.
  unfold py_range. rewrite in_map_iff. split.
  - intros (i & Hi & Hin). apply in_seq in Hin. lia.
  - intros H. exists (Z.to_nat (m - a)). split; [lia|].
    apply in_seq. lia.
Qed.

Lemma map_seq_sorted (a : Z) (n s : nat) :
  StronglySorted Z.lt (map (fun i => (a + Z.of_nat i)%Z) (seq s n)).
Proof.
  revert s. induction n as [|n IH]; intros s; cbn [seq map].
  - constructor.
  - constructor; [apply IH|].
    apply Forall_forall. intros y Hy. apply in_map_iff in Hy as (i & Hi & Hin).
    apply in_seq in Hin. lia.
Qed.

Lemma py_range_sorted (a b : Z) : StronglySorted Z.lt (py_range a b).
Proof. apply map_seq_sorted. Qed.

Section Bucle.

Variables desarrollo alto_etq gap_obj gap_min gap_max : Q.

(** The loop reaches [m]: no earlier [n] of [ns] triggered the [break]. *)
Let alcanzado (ns : list Z) (m : Z) : Prop :=
  forall k, In k ns -> (k <= m)%Z -> inject_Z k * alto_etq <= desarrollo.

(** The loop body keeps [m] as a candidate. *)
Let aceptado (m : Z) : Prop :=
  0 <= gap_de desarrollo alto_etq m
  /\ ((1 < m)%Z ->
      gap_min <= gap_de desarrollo alto_etq m
      /\ gap_de desarrollo alto_etq m <= gap_max).

Let cand (n : Z) : Candidato :=
  (n, gap_reportado desarrollo alto_etq gap_min n,
   Qabs (gap_reportado desarrollo alto_etq gap_min n - gap_obj)).

Lemma bucle_n_spec (ns : list Z) :
  forall mejor : option Candidato,
    Forall (fun n => (1 <= n)%Z) ns ->
    StronglySorted Z.lt ns ->
    (forall c, mejor = Some c -> Forall (fun n => (fst (fst c) < n)%Z) ns) ->
    safely
      (bucle_n ns desarrollo alto_etq gap_obj gap_min gap_max mejor)
      (fun res =>
         (res = mejor
          /\ forall m, In m ns -> alcanzado ns m -> ~ aceptado m)
         \/ (exists n,
               In n ns /\ alcanzado ns n /\ aceptado n /\ res = Some (cand n)
               /\ forall m, In m ns -> alcanzado ns m -> aceptado m ->
                            (m <= n)%Z)).
Proof.
  induction ns as [|n resto IH]; intros mejor Hpos Hsort Hbest;
    cbn [bucle_n].
  - apply safely_ret. left. split; [reflexivity|]. intros m [].
  - inversion Hpos as [|? ? Hn Hpos']; subst.
    inversion Hsort as [|? ? Hsort' Hlt]; subst.
    rewrite Forall_forall in Hlt.
    destruct (Qltb desarrollo (inject_Z n * alto_etq)) eqn:Ecorta.
    + (* break *)
      apply Qltb_true in Ecorta.
      apply safely_ret. left. split; [reflexivity|].
      intros m Hm Halc _.
      assert (Hnm : (n <= m)%Z).
      { destruct Hm as [-> | Hm]; [lia|]. specialize (Hlt m Hm). lia. }
      specialize (Halc n (or_introl eq_refl) Hnm). lra.
    + apply Qltb_false in Ecorta.
      assert (Hstep : forall m, alcanzado resto m -> alcanzado (n :: resto) m).
      { intros m Hm k [-> | Hk] Hle; [exact Ecorta | exact (Hm k Hk Hle)]. }
      assert (Hstep' : forall m, alcanzado (n :: resto) m -> alcanzado resto m).
      { intros m Hm k Hk Hle. apply Hm; [right; exact Hk | exact Hle]. }
      apply safely_bind, safely_truediv; [apply inject_Z_pos; lia|].
      fold (gap_de desarrollo alto_etq n).
      (* what a skipped [n] contributes *)
      assert (Hskip : ~ aceptado n ->
        safely
          (bucle_n resto desarrollo alto_etq gap_obj gap_min gap_max mejor)
          (fun res =>
             (res = mejor
              /\ forall m, In m (n :: resto) -> alcanzado (n :: resto) m ->
                           ~ aceptado m)
             \/ (exists n0,
                   In n0 (n :: resto) /\ alcanzado (n :: resto) n0
                   /\ aceptado n0 /\ res = Some (cand n0)
                   /\ forall m, In m (n :: resto) ->
                                alcanzado (n :: resto) m -> aceptado m ->
                                (m <= n0)%Z))).
      { intros Hno.
        assert (Hbest' : forall c, mejor = Some c ->
                   Forall (fun k => (fst (fst c) < k)%Z) resto).
        { intros c Hc. specialize (Hbest c Hc).
          inversion Hbest; assumption. }
        apply (safely_mono _ _ _ (IH mejor Hpos' Hsort' Hbest')).
        intros res [[Hres Hnone] | (n0 & Hin & Halc & Hacc & Hres & Hmax)].
        - left. split; [exact Hres|].
          intros m [<- | Hm] Halc; [exact Hno|].
          apply Hnone; [exact Hm | apply Hstep', Halc].
        - right. exists n0.
          split; [right; exact Hin|]. split; [apply Hstep, Halc|].
          split; [exact Hacc|]. split; [exact Hres|].
          intros m [<- | Hm] Halc' Hacc'; [contradiction|].
          apply Hmax; [exact Hm | apply Hstep', Halc' | exact Hacc']. }
      destruct (Qltb (gap_de desarrollo alto_etq n) 0) eqn:Eneg.
      { apply Qltb_true in Eneg. apply Hskip. intros [H0 _]. lra. }
      apply Qltb_false in Eneg.
      destruct ((1 <? n)%Z
                && (Qltb (gap_de desarrollo alto_etq n) gap_min
                    || Qltb gap_max (gap_de desarrollo alto_etq n)))
        eqn:Erango.
      { apply andb_true_iff in Erango as [E1 E2].
        apply Z.ltb_lt in E1. apply Hskip. intros [_ Hr].
        specialize (Hr E1). apply orb_true_iff in E2 as [E2 | E2];
          apply Qltb_true in E2; lra. }
      assert (Hacc : aceptado n).
      { split; [exact Eneg|]. intros H1.
        apply andb_false_iff in Erango as [E | E].
        - apply Z.ltb_ge in E. lia.
        - apply orb_false_iff in E as [Ea Eb].
          apply Qltb_false in Ea. apply Qltb_false in Eb. split; assumption. }
      fold (gap_reportado desarrollo alto_etq gap_min n).
      cbv zeta. fold (cand n).
      assert (Eupd : actualizar_mejor mejor (cand n) = Some (cand n)).
      { destruct mejor as [[[nb gb] db]|]; [|reflexivity].
        specialize (Hbest _ eq_refl). inversion Hbest as [|? ? Hnb _]; subst.
        cbn [fst] in Hnb. unfold cand, actualizar_mejor.
        apply Z.ltb_lt in Hnb. rewrite Hnb. reflexivity. }
      rewrite Eupd.
      assert (Hbest' : forall c, Some (cand n) = Some c ->
                 Forall (fun k => (fst (fst c) < k)%Z) resto).
      { intros c Hc. injection Hc as <-. apply Forall_forall.
        intros k Hk. cbn [cand fst]. apply Hlt, Hk. }
      apply (safely_mono _ _ _ (IH (Some (cand n)) Hpos' Hsort' Hbest')).
      intros res [[Hres Hnone] | (n0 & Hin & Halc & Hacc0 & Hres & Hmax)].
      * right. exists n.
        split; [left; reflexivity|]. split; [|split; [exact Hacc|split; [exact Hres|]]].
        -- intros k [<- | Hk] Hle; [exact Ecorta|].
           specialize (Hlt k Hk). lia.
        -- intros m [<- | Hm] Halc' Hacc'; [lia|].
           exfalso. apply (Hnone m Hm); [apply Hstep', Halc' | exact Hacc'].
      * right. exists n0.
        split; [right; exact Hin|]. split; [apply Hstep, Halc|].
        split; [exact Hacc0|]. split; [exact Hres|].
        intros m [<- | Hm] Halc' Hacc'.
        -- specialize (Hlt n0 Hin). lia.
        -- apply Hmax; [exact Hm | apply Hstep', Halc' | exact Hacc'].
Qed.

End Bucle.

(** What [evaluar_z_uniforme] returns, case by case. *)
Lemma evaluar_z_uniforme_spec (z : Z) (alto_etq gap_obj gap_min gap_max : Q)
    (max_n : Z) :
  inject_Z z * FACTOR_CILINDRO_A_MM >= alto_etq ->
  safely (evaluar_z_uniforme z alto_etq gap_obj gap_min gap_max max_n)
    (fun ev =>
       ev_z ev = z
       /\ ev_desarrollo_mm ev = inject_Z z * FACTOR_CILINDRO_A_MM
       /\ ((ev_valido ev = true
            /\ ev_detalle ev = DetalleOK
            /\ factible (ev_desarrollo_mm ev) alto_etq gap_min gap_max max_n
                 (ev_n ev)
            /\ ev_gap ev
               = gap_reportado (ev_desarrollo_mm ev) alto_etq gap_min (ev_n ev)
            /\ ev_diff_obj ev = Qabs (ev_gap ev - gap_obj)
            /\ forall m,
                 factible (ev_desarrollo_mm ev) alto_etq gap_min gap_max max_n m ->
                 (m <= ev_n ev)%Z)
           \/ (ev_valido ev = false
               /\ ev_detalle ev = SinCombinacionValida
               /\ ev_n ev = 0%Z /\ ev_gap ev = 0 /\ ev_diff_obj ev = 9999
               /\ forall m,
                    ~ factible (ev_desarrollo_mm ev) alto_etq gap_min gap_max
                        max_n m))).
Proof.
  intros Hd. unfold evaluar_z_uniforme. cbv zeta.
  set (d := inject_Z z * FACTOR_CILINDRO_A_MM) in *.
  assert (E : Qltb d alto_etq = false) by (apply Qltb_false, Hd).
  rewrite E. apply safely_bind.
  assert (Hpos : Forall (fun n => (1 <= n)%Z) (py_range 1 (max_n + 1))).
  { apply Forall_forall. intros n Hn. apply py_range_In in Hn. lia. }
  assert (Hreach : forall m,
            inject_Z m * alto_etq <= d -> (1 <= m)%Z ->
            forall k, In k (py_range 1 (max_n + 1)) -> (k <= m)%Z ->
                      inject_Z k * alto_etq <= d).
  { intros m Hm H1 k Hk Hle. apply py_range_In in Hk.
    assert (Hk1 : 1 <= inject_Z k) by (apply inject_Z_ge1; lia).
    assert (Hkm : inject_Z k <= inject_Z m) by (rewrite <- Zle_Qle; exact Hle).
    destruct (Qlt_le_dec alto_etq 0) as [Hneg | Hnn]; nra. }
  apply (safely_mono _ _ _
           (bucle_n_spec d alto_etq gap_obj gap_min gap_max
              (py_range 1 (max_n + 1)) None Hpos (py_range_sorted _ _)
              (fun c H => ltac:(discriminate)))).
  intros res [[-> Hnone] | (n & Hin & Halc & Hacc & -> & Hmax)].
  - apply safely_ret. cbn [ev_z ev_desarrollo_mm ev_n ev_gap ev_diff_obj
                             ev_valido ev_detalle].
    split; [reflexivity|]. split; [reflexivity|]. right.
    repeat split. intros m (Hr & Hfit & H0 & Hrange).
    apply (Hnone m).
    + apply py_range_In. lia.
    + apply Hreach; [exact Hfit | lia].
    + split; assumption.
  - apply safely_ret. cbn [ev_z ev_desarrollo_mm ev_n ev_gap ev_diff_obj
                             ev_valido ev_detalle].
    split; [reflexivity|]. split; [reflexivity|]. left.
    apply py_range_In in Hin.
    split; [reflexivity|]. split; [reflexivity|]. split; [|split; [|split]].
    + split; [lia|]. split; [apply (Halc n); [apply py_range_In|]; lia|].
      exact Hacc.
    + reflexivity.
    + reflexivity.
    + intros m (Hr & Hfit & H0 & Hrange). apply Hmax.
      * apply py_range_In. lia.
      * apply Hreach; [exact Hfit | lia].
      * split; assumption.
Qed.

Lemma evaluar_z_uniforme_corto (z : Z) (alto_etq gap_obj gap_min gap_max : Q)
    (max_n : Z) :
  inject_Z z * FACTOR_CILINDRO_A_MM < alto_etq ->
  evaluar_z_uniforme z alto_etq gap_obj gap_min gap_max max_n
  = ret (mkEvaluacionZUniforme z (inject_Z z * FACTOR_CILINDRO_A_MM) 0 0 9999
           false
           (DesarrolloMenorQueAlto (inject_Z z * FACTOR_CILINDRO_A_MM)
              alto_etq)).
Proof.
  intros Hd. unfold evaluar_z_uniforme. cbv zeta.
  apply Qltb_true in Hd. rewrite Hd. reflexivity.
Qed.

(** C2, as stated, fails: cylinder 60 (190.5 mm) and a label 190 mm high
    give one repeat with the gap raised from 0.5 to [gap_min] = 2.5, and
    1 * 190 + 1 * 2.5 exceeds the circumference by 2 mm. *)
Lemma evaluar_z_uniforme_suma_excede :
  exists ev : EvaluacionZUniforme,
    returns
      (evaluar_z_uniforme 60 190 GAP_VERTICAL_OBJETIVO GAP_VERTICAL_MIN
         GAP_VERTICAL_MAX MAX_REPETICIONES_VERTICALES) ev
    /\ ev_valido ev = true
    /\ ev_n ev = 1%Z
    /\ inject_Z (ev_n ev) * 190 + inject_Z (ev_n ev) * ev_gap ev
       == ev_desarrollo_mm ev + 2
    /\ ~ inject_Z (ev_n ev) * 190 + inject_Z (ev_n ev) * ev_gap ev
         == ev_desarrollo_mm ev.
Proof.
  eexists. split; [vm_compute; reflexivity|].
  cbn [ev_valido ev_n ev_gap ev_desarrollo_mm].
  repeat split. intros H. vm_compute in H. discriminate H.
Qed.

(** C2 (amended). Whenever the vertical fit reports a valid result:
    with repeats > 1, repeats * height + repeats * gap equals the
    circumference and the gap lies in [gap_min, gap_max]; with repeats = 1
    the reported gap is max(circumference - height, gap_min), so it is at
    least gap_min, height + gap is at least the circumference, and equals
    it exactly when circumference - height >= gap_min. *)
Theorem evaluar_z_uniforme_invariante (z : Z)
    (alto_etq gap_obj gap_min gap_max : Q) (max_n : Z) :
  safely (evaluar_z_uniforme z alto_etq gap_obj gap_min gap_max max_n)
    (fun ev =>
       ev_valido ev = true ->
       (1 <= ev_n ev)%Z
       /\ ((1 < ev_n ev)%Z ->
           inject_Z (ev_n ev) * alto_etq + inject_Z (ev_n ev) * ev_gap ev
           == ev_desarrollo_mm ev
           /\ gap_min <= ev_gap ev /\ ev_gap ev <= gap_max)
       /\ (ev_n ev = 1%Z ->
           ev_gap ev == py_max (ev_desarrollo_mm ev - alto_etq) gap_min
           /\ gap_min <= ev_gap ev
           /\ ev_desarrollo_mm ev <= alto_etq + ev_gap ev
           /\ (gap_min <= ev_desarrollo_mm ev - alto_etq <->
               inject_Z (ev_n ev) * alto_etq + inject_Z (ev_n ev) * ev_gap ev
               == ev_desarrollo_mm ev))).
Proof.
  destruct (Qlt_le_dec (inject_Z z * FACTOR_CILINDRO_A_MM) alto_etq)
    as [Hd | Hd].
  - rewrite evaluar_z_uniforme_corto by exact Hd.
    apply safely_ret. cbn [ev_valido]. discriminate.
  - apply (safely_mono _ _ _
             (evaluar_z_uniforme_spec z alto_etq gap_obj gap_min gap_max
                max_n Hd)).
    intros ev (_ & _ & [(_ & _ & Hf & Hg & _) | (Hv & _)]) Hval;
      [|congruence].
    destruct Hf as (Hr & Hfit & H0 & Hrange).
    split; [lia|]. split.
    + intros H1. rewrite Hg. unfold gap_reportado.
      assert (E : (ev_n ev =? 1)%Z = false) by (apply Z.eqb_neq; lia).
      rewrite E. split; [|exact (Hrange H1)].
      unfold gap_de. field.
      assert (Hn : 2 <= inject_Z (ev_n ev))
        by (change 2 with (inject_Z 2); rewrite <- Zle_Qle; lia).
      lra.
    + intros H1. rewrite Hg, H1. unfold gap_reportado.
      change (1 =? 1)%Z with true. cbv iota.
      assert (Eg : gap_de (ev_desarrollo_mm ev) alto_etq 1
                   == ev_desarrollo_mm ev - alto_etq)
        by (unfold gap_de; change (inject_Z 1) with 1; field).
      change (inject_Z 1) with 1.
      destruct (py_max_cases (ev_desarrollo_mm ev - alto_etq) gap_min)
        as [[Hlt' E'] | [Hle' E']]; rewrite E';
        destruct (py_max_cases (gap_de (ev_desarrollo_mm ev) alto_etq 1)
                    gap_min) as [[Hlt E] | [Hle E]]; rewrite E.
      * split; [reflexivity|]. split; [lra|]. split; [lra|].
        split; intros Hc; lra.
      * exfalso. lra.
      * exfalso. lra.
      * split; [exact Eg|]. split; [exact Hle|]. split; [lra|].
        split; intros _; lra.
Qed.

(** C2 on the catalog: cylinder 116 carries seven labels of 50 mm. *)
Example evaluar_z_uniforme_116_50 :
  returns
    (evaluar_z_uniforme 116 50 GAP_VERTICAL_OBJETIVO GAP_VERTICAL_MIN
       GAP_VERTICAL_MAX MAX_REPETICIONES_VERTICALES)
    (mkEvaluacionZUniforme 116 (116 * (3175 # 1000)) 7
       ((116 * (3175 # 1000) - 7 * 50) / 7)
       (Qabs ((116 * (3175 # 1000) - 7 * 50) / 7 - (27 # 10))) true DetalleOK)
  /\ 7 * 50 + 7 * ((116 * (3175 # 1000) - 7 * 50) / 7) == 116 * (3175 # 1000).
Proof. split; reflexivity. Qed.

(** On the catalog: on cylinder 97 (307.975 mm) a label 50 mm high has
    six repeats cut out by the minimum gap (1.33 mm) and five accepted. *)
Example evaluar_z_uniforme_97_50 :
  exists ev : EvaluacionZUniforme,
    returns
      (evaluar_z_uniforme 97 50 GAP_VERTICAL_OBJETIVO GAP_VERTICAL_MIN
         GAP_VERTICAL_MAX MAX_REPETICIONES_VERTICALES) ev
    /\ ev_valido ev = true /\ ev_n ev = 5%Z /\ ev_gap ev == 11595 # 1000
    /\ gap_de (ev_desarrollo_mm ev) 50 6 < GAP_VERTICAL_MIN.
Proof.
  eexists. split; [vm_compute; reflexivity|]. repeat split.
Qed.

(** ** The scan of the catalog *)

Lemma cuerpo_primera_comun (alto_etq ancho_etq : Q) (unidades : Z)
    (ancho_rollo_mm : Q) (st : Estado) (z : Z) :
  cuerpo_primera alto_etq ancho_etq unidades ancho_rollo_mm st z
  = cuerpo_comun alto_etq ancho_etq unidades ancho_rollo_mm
      (Some (motivo_alto alto_etq)) (motivo_ancho ancho_etq ancho_rollo_mm)
      false st z.
Proof. reflexivity. Qed.

Lemma cuerpo_segunda_comun (alto_etq ancho_etq : Q) (unidades : Z)
    (st : Estado) (z : Z) :
  cuerpo_segunda alto_etq ancho_etq unidades st z
  = cuerpo_comun alto_etq ancho_etq unidades ROLLO_BASE_MM None
      (motivo_ancho_330 ancho_etq) true st z.
Proof. reflexivity. Qed.

Lemma CILINDROS_FB_bounds (z : Z) : In z CILINDROS_FB -> (60 <= z <= 168)%Z.
Proof.
  unfold CILINDROS_FB. cbn [In]. intros H.
  repeat (destruct H as [<- | H]; [lia|]). contradiction.
Qed.

(** The catalog is the list literal of the source, sorted descending. *)
Lemma CILINDROS_FB_sorted :
  Permutation CILINDROS_FB_literal CILINDROS_FB
  /\ StronglySorted (fun a b => (b < a)%Z) CILINDROS_FB.
Proof.
  split.
  - unfold CILINDROS_FB, CILINDROS_FB_literal.
    apply Permutation_rev.
  - unfold CILINDROS_FB.
    repeat (constructor; [|repeat (constructor; [lia|]); constructor]).
    constructor.
Qed.

(** The vertical fit with the constants of the engine: valid exactly when
    the height fits once around the cylinder. *)
Lemma evaluar_z_uniforme_motor (z : Z) (alto_etq : Q) :
  safely
    (evaluar_z_uniforme z alto_etq GAP_VERTICAL_OBJETIVO GAP_VERTICAL_MIN
       GAP_VERTICAL_MAX MAX_REPETICIONES_VERTICALES)
    (fun ev =>
       ev_desarrollo_mm ev = inject_Z z * FACTOR_CILINDRO_A_MM
       /\ (ev_valido ev = true <-> alto_etq <= inject_Z z * FACTOR_CILINDRO_A_MM)
       /\ (ev_valido ev = true -> (1 <= ev_n ev)%Z)).
Proof.
  destruct (Qlt_le_dec (inject_Z z * FACTOR_CILINDRO_A_MM) alto_etq)
    as [Hd | Hd].
  - rewrite evaluar_z_uniforme_corto by exact Hd. apply safely_ret.
    cbn [ev_desarrollo_mm ev_valido ev_n].
    split; [reflexivity|]. split; [|discriminate].
    split; [discriminate | intros H; exfalso; lra].
  - apply (safely_mono _ _ _ (evaluar_z_uniforme_spec z alto_etq _ _ _ _ Hd)).
    intros ev (_ & Hdes & [(Hv & _ & Hf & _) | (_ & _ & _ & _ & _ & Hnone)]).
    + split; [exact Hdes|]. split; [split; auto|].
      intros _. destruct Hf as (Hr & _). lia.
    + exfalso. apply (Hnone 1%Z). rewrite Hdes.
      assert (Hg : gap_de (inject_Z z * FACTOR_CILINDRO_A_MM) alto_etq 1
                   == inject_Z z * FACTOR_CILINDRO_A_MM - alto_etq)
        by (unfold gap_de; change (inject_Z 1) with 1; field).
      split; [unfold MAX_REPETICIONES_VERTICALES; lia|].
      split; [change (inject_Z 1) with 1; lra|].
      split; [rewrite Hg; lra | intros H; lia].
Qed.

(** The horizontal fit with the constants of the engine. *)
Lemma evaluar_rollo_estandar_motor (ancho_rollo_mm ancho_etq : Q) :
  safely
    (evaluar_rollo_estandar ancho_rollo_mm ancho_etq GAP_HORIZONTAL_OBJETIVO
       BANDERA_HORIZONTAL)
    (fun r => (0 < etq_eje r)%Z -> 0 < ancho_rollo_mm).
Proof.
  apply (safely_mono _ _ _
           (evaluar_rollo_estandar_safely ancho_rollo_mm ancho_etq
              GAP_HORIZONTAL_OBJETIVO BANDERA_HORIZONTAL)).
  intros r Hr Hpos.
  destruct (Qlt_le_dec 0 ancho_rollo_mm) as [Hw | Hw]; [exact Hw|].
  destruct (Hr (or_introl Hw)) as (E & _). lia.
Qed.

Lemma calcular_metraje_material_total (unidades etq_repeat : Z)
    (desarrollo_mm ancho_rollo_mm ajuste_mm : Q) :
  safely
    (calcular_metraje_material unidades etq_repeat desarrollo_mm
       ancho_rollo_mm ajuste_mm)
    (fun _ => True).
Proof.
  destruct (Z_lt_le_dec 0 etq_repeat) as [He | He];
    [destruct (Qlt_le_dec 0 desarrollo_mm) as [Hd | Hd];
     [destruct (Qlt_le_dec 0 ancho_rollo_mm) as [Hw | Hw]|]|].
  - rewrite calcular_metraje_material_run by assumption.
    eexists. split; [reflexivity|]. split; [|exact I].
    constructor; [apply inject_Z_pos, He | constructor].
  - rewrite calcular_metraje_material_guard by auto. apply safely_ret, I.
  - rewrite calcular_metraje_material_guard by auto. apply safely_ret, I.
  - rewrite calcular_metraje_material_guard by auto. apply safely_ret, I.
Qed.

Section Cuerpo.

Variables alto_etq ancho_etq : Q.
Variable unidades : Z.
Variable ancho_rollo_mm : Q.
Variable motivo_v : option string.
Variable motivo_h : string.
Variable alternativo : bool.

(** One turn of the loop returns without raising, in one of its three
    ways. *)
Lemma cuerpo_comun_safely (st : Estado) (z : Z) (P : Estado -> Prop) :
  (forall ev,
     returns
       (evaluar_z_uniforme z alto_etq GAP_VERTICAL_OBJETIVO GAP_VERTICAL_MIN
          GAP_VERTICAL_MAX MAX_REPETICIONES_VERTICALES) ev ->
     inject_Z z * FACTOR_CILINDRO_A_MM < alto_etq ->
     P (tras_invalido motivo_v st)) ->
  (forall ev r,
     returns
       (evaluar_z_uniforme z alto_etq GAP_VERTICAL_OBJETIVO GAP_VERTICAL_MIN
          GAP_VERTICAL_MAX MAX_REPETICIONES_VERTICALES) ev ->
     alto_etq <= inject_Z z * FACTOR_CILINDRO_A_MM ->
     returns
       (evaluar_rollo_estandar ancho_rollo_mm ancho_etq
          GAP_HORIZONTAL_OBJETIVO BANDERA_HORIZONTAL) r ->
     (etq_eje r <= 0)%Z ->
     P (tras_no_cabe motivo_h st z)) ->
  (forall ev r m,
     returns
       (evaluar_z_uniforme z alto_etq GAP_VERTICAL_OBJETIVO GAP_VERTICAL_MIN
          GAP_VERTICAL_MAX MAX_REPETICIONES_VERTICALES) ev ->
     alto_etq <= inject_Z z * FACTOR_CILINDRO_A_MM ->
     ev_desarrollo_mm ev = inject_Z z * FACTOR_CILINDRO_A_MM ->
     (1 <= ev_n ev)%Z ->
     returns
       (evaluar_rollo_estandar ancho_rollo_mm ancho_etq
          GAP_HORIZONTAL_OBJETIVO BANDERA_HORIZONTAL) r ->
     (0 < etq_eje r)%Z ->
     0 < ancho_rollo_mm ->
     returns
       (calcular_metraje_material unidades (ev_n ev * etq_eje r)
          (ev_desarrollo_mm ev) ancho_rollo_mm AJUSTE_DESARROLLO_REP_MM) m ->
     P (tras_metraje ancho_rollo_mm alternativo st z ev r m)) ->
  safely
    (cuerpo_comun alto_etq ancho_etq unidades ancho_rollo_mm motivo_v
       motivo_h alternativo st z) P.
Proof.
  intros Hinv Hno Hsi. unfold cuerpo_comun.
  apply safely_bind.
  destruct (evaluar_z_uniforme_motor z alto_etq)
    as (ev & Hev & Hdiv & Hdes & Hval & Hn).
  exists ev. split; [exact Hev|]. split; [exact Hdiv|].
  destruct (ev_valido ev) eqn:Ev; cbn [negb].
  - assert (Hfit : alto_etq <= inject_Z z * FACTOR_CILINDRO_A_MM)
      by (apply Hval; reflexivity).
    apply safely_bind.
    destruct (evaluar_rollo_estandar_motor ancho_rollo_mm ancho_etq)
      as (r & Hr & Hdivr & Hw).
    exists r. split; [exact Hr|]. split; [exact Hdivr|].
    destruct (etq_eje r <=? 0)%Z eqn:Ee.
    + apply Z.leb_le in Ee.
      specialize (Hno ev r Hev Hfit Hr Ee). unfold tras_no_cabe in Hno.
      destruct (fallback st); apply safely_ret; exact Hno.
    + apply Z.leb_gt in Ee. cbv zeta.
      apply safely_bind.
      destruct (calcular_metraje_material_total unidades
                  (ev_n ev * etq_eje r) (ev_desarrollo_mm ev) ancho_rollo_mm
                  AJUSTE_DESARROLLO_REP_MM) as (m & Hm & Hdivm & _).
      exists m. split; [exact Hm|]. split; [exact Hdivm|].
      specialize (Hsi ev r m Hev Hfit Hdes (Hn eq_refl) Hr Ee (Hw Ee) Hm).
      unfold tras_metraje in Hsi.
      destruct (mejora (mejor st) m); apply safely_ret; exact Hsi.
  - assert (Hshort : inject_Z z * FACTOR_CILINDRO_A_MM < alto_etq).
    { apply Qnot_le_lt. intros Hle. apply Hval in Hle. discriminate. }
    specialize (Hinv ev Hev Hshort). unfold tras_invalido in Hinv.
    destruct motivo_v; [destruct (motivo st)|]; apply safely_ret; exact Hinv.
Qed.

End Cuerpo.

(** [for_each] keeps an invariant that every turn keeps. *)
Lemma for_each_safely {S : Type} (body : S -> Z -> Run S) (l : list Z)
    (Inv : S -> Prop) :
  (forall st z, In z l -> Inv st -> safely (body st z) Inv) ->
  forall st, Inv st -> safely (for_each body l st) Inv.
Proof.
  induction l as [|z l IH]; intros Hbody st Hst; cbn [for_each].
  - apply safely_ret, Hst.
  - apply safely_bind.
    apply (safely_mono _ _ _ (Hbody st z (or_introl eq_refl) Hst)).
    intros st' Hst'. apply IH; [|exact Hst'].
    intros st0 z0 Hz0. apply Hbody. right. exact Hz0.
Qed.

(** Two scans of the same list that move in step stay related. *)
Lemma for_each_rel {S : Type} (body1 body2 : S -> Z -> Run S) (l : list Z)
    (R : S -> S -> Prop) :
  (forall st1 st2 z,
     In z l -> R st1 st2 ->
     safely (body1 st1 z) (fun st1' => safely (body2 st2 z) (R st1'))) ->
  forall st1 st2,
    R st1 st2 ->
    safely (for_each body1 l st1)
      (fun st1' => safely (for_each body2 l st2) (R st1')).
Proof.
  induction l as [|z l IH]; intros Hbody st1 st2 HR; cbn [for_each].
  - apply safely_ret, safely_ret, HR.
  - apply safely_bind.
    apply (safely_mono _ _ _ (Hbody st1 st2 z (or_introl eq_refl) HR)).
    intros st1' (st2' & Hst2' & Hdiv2 & HR').
    assert (IH' := IH (fun a b c Hc => Hbody a b c (or_intror Hc)) st1' st2' HR').
    apply (safely_mono _ _ _ IH').
    intros st1'' H2. apply safely_bind.
    exists st2'. split; [exact Hst2'|]. split; [exact Hdiv2 | exact H2].
Qed.

(** What each way out of the loop body changes in the state. *)

Lemma tras_invalido_mejor (motivo_v : option string) (st : Estado) :
  mejor (tras_invalido motivo_v st) = mejor st.
Proof.
  unfold tras_invalido. destruct motivo_v; [destruct (motivo st)|]; reflexivity.
Qed.

Lemma tras_invalido_fallback (motivo_v : option string) (st : Estado) :
  fallback (tras_invalido motivo_v st) = fallback st.
Proof.
  unfold tras_invalido. destruct motivo_v; [destruct (motivo st)|]; reflexivity.
Qed.

Lemma tras_invalido_motivo (motivo_v : option string) (st : Estado) (s : string) :
  motivo st = Some s -> motivo (tras_invalido motivo_v st) = Some s.
Proof.
  intros H. unfold tras_invalido.
  destruct motivo_v; [rewrite H|]; exact H.
Qed.

Lemma tras_no_cabe_mejor (motivo_h : string) (st : Estado) (z : Z) :
  mejor (tras_no_cabe motivo_h st z) = mejor st.
Proof. unfold tras_no_cabe. destruct (fallback st); reflexivity. Qed.

Lemma tras_no_cabe_fallback (motivo_h : string) (st : Estado) (z : Z) :
  fallback (tras_no_cabe motivo_h st z)
  = match fallback st with
    | None => Some z
    | Some zf => Some zf
    end.
Proof.
  unfold tras_no_cabe. destruct (fallback st) eqn:E; [exact E | reflexivity].
Qed.

Lemma tras_no_cabe_motivo (motivo_h : string) (st : Estado) (z : Z) :
  motivo (tras_no_cabe motivo_h st z)
  = match fallback st with
    | None => Some motivo_h
    | Some _ => motivo st
    end.
Proof. unfold tras_no_cabe. destruct (fallback st); reflexivity. Qed.

Lemma tras_metraje_motivo (w : Q) (b : bool) (st : Estado) (z : Z)
    (ev : EvaluacionZUniforme) (r : EvaluacionRollo) (m : Metraje) :
  motivo (tras_metraje w b st z ev r m) = motivo st
  /\ fallback (tras_metraje w b st z ev r m) = fallback st.
Proof.
  unfold tras_metraje. destruct (mejora (mejor st) m); split; reflexivity.
Qed.

Lemma tras_metraje_mejor (w : Q) (b : bool) (st : Estado) (z : Z)
    (ev : EvaluacionZUniforme) (r : EvaluacionRollo) (m : Metraje) :
  mejor (tras_metraje w b st z ev r m) <> None.
Proof.
  unfold tras_metraje. destruct (mejora (mejor st) m) eqn:E.
  - discriminate.
  - unfold mejora in E. destruct (mejor st); discriminate.
Qed.

(** ** [obtener_z_sugerido]: which kind of result *)

Lemma scan_decidido (alto_etq ancho_etq : Q) (unidades : Z)
    (ancho_rollo_mm : Q) (motivo_v : option string) (motivo_h : string)
    (alternativo : bool) (l : list Z) :
  motivo_h <> EmptyString ->
  forall st,
    con_motivo st ->
    (exists z, In z l /\ alto_etq <= inject_Z z * FACTOR_CILINDRO_A_MM)
    \/ decidido st ->
    safely
      (for_each
         (cuerpo_comun alto_etq ancho_etq unidades ancho_rollo_mm motivo_v
            motivo_h alternativo) l st)
      (fun st' => con_motivo st' /\ decidido st').
Proof.
  intros Hh. induction l as [|z l IH]; intros st Hcm Hd; cbn [for_each].
  - apply safely_ret. split; [exact Hcm|].
    destruct Hd as [(z & [] & _) | Hd]; exact Hd.
  - apply safely_bind, cuerpo_comun_safely.
    + (* too short: the state keeps its best and its fallback *)
      intros ev _ Hshort. apply IH.
      * intros zf Hzf. rewrite tras_invalido_fallback in Hzf.
        destruct (Hcm zf Hzf) as (s & Hs & Hne). exists s.
        split; [apply tras_invalido_motivo, Hs | exact Hne].
      * destruct Hd as [(z0 & [<- | Hin] & Hfit) | Hd].
        -- exfalso. lra.
        -- left. exists z0. split; assumption.
        -- right. unfold decidido.
           rewrite tras_invalido_mejor, tras_invalido_fallback. exact Hd.
    + intros ev r _ _ _ _. apply IH.
      * intros zf Hzf. rewrite tras_no_cabe_motivo.
        rewrite tras_no_cabe_fallback in Hzf.
        destruct (fallback st) as [z0|] eqn:Ef.
        -- apply (Hcm zf). congruence.
        -- exists motivo_h. split; [reflexivity | exact Hh].
      * right. right. rewrite tras_no_cabe_fallback.
        destruct (fallback st); discriminate.
    + intros ev r m _ _ _ _ _ _ _ _. apply IH.
      * intros zf Hzf.
        destruct (tras_metraje_motivo ancho_rollo_mm alternativo st z ev r m)
          as [Emo Efa].
        rewrite Efa in Hzf. rewrite Emo. apply (Hcm zf Hzf).
      * right. left. apply tras_metraje_mejor.
Qed.

Lemma scan_sin_cilindro (alto_etq ancho_etq : Q) (unidades : Z)
    (ancho_rollo_mm : Q) (motivo_v : option string) (motivo_h : string)
    (alternativo : bool) (l : list Z) :
  (forall z, In z l -> inject_Z z * FACTOR_CILINDRO_A_MM < alto_etq) ->
  forall st,
    mejor st = None /\ fallback st = None ->
    safely
      (for_each
         (cuerpo_comun alto_etq ancho_etq unidades ancho_rollo_mm motivo_v
            motivo_h alternativo) l st)
      (fun st' => mejor st' = None /\ fallback st' = None).
Proof.
  intros Hl. apply for_each_safely. intros st z Hz Hst.
  specialize (Hl z Hz). apply cuerpo_comun_safely.
  - intros ev _ _. rewrite tras_invalido_mejor, tras_invalido_fallback.
    exact Hst.
  - intros ev r _ Hfit. exfalso. lra.
  - intros ev r m _ Hfit. exfalso. lra.
Qed.

Lemma motivo_ancho_no_vacio (ancho_etq ancho_rollo_mm : Q) :
  motivo_ancho ancho_etq ancho_rollo_mm <> EmptyString.
Proof. unfold motivo_ancho. cbn [append]. discriminate. Qed.

Lemma motivo_ancho_330_no_vacio (ancho_etq : Q) :
  motivo_ancho_330 ancho_etq <> EmptyString.
Proof. unfold motivo_ancho_330. cbn [append]. discriminate. Qed.

Lemma verdadero_no_vacio (s : string) :
  s <> EmptyString -> verdadero (Some s) = true.
Proof.
  intros H. unfold verdadero. apply negb_true_iff, String.eqb_neq, H.
Qed.

Lemma estado_inicial_con_motivo : con_motivo (mkEstado None None None).
Proof. intros zf H. discriminate H. Qed.

(** The largest cylinder of the catalog decides whether any fits. *)
Lemma cilindro_mayor (alto_etq : Q) :
  (alto_etq <= 168 * FACTOR_CILINDRO_A_MM ->
   exists z, In z CILINDROS_FB
             /\ alto_etq <= inject_Z z * FACTOR_CILINDRO_A_MM)
  /\ (168 * FACTOR_CILINDRO_A_MM < alto_etq ->
      forall z, In z CILINDROS_FB ->
                inject_Z z * FACTOR_CILINDRO_A_MM < alto_etq).
Proof.
  split.
  - intros H. exists 168%Z. split; [left; reflexivity | exact H].
  - intros H z Hz. apply CILINDROS_FB_bounds in Hz.
    assert (Hle : inject_Z z <= 168)
      by (change 168 with (inject_Z 168); rewrite <- Zle_Qle; lia).
    unfold FACTOR_CILINDRO_A_MM in *.
    assert (Hf : 0 < 3175 # 1000) by reflexivity. nra.
Qed.

(** C1, as stated, fails: for a label 600 mm high no cylinder is
    vertically feasible, the standard roll is in use, and the selector
    returns nothing ([None]) rather than an [Imposibilidad] built from the
    vertical reason. *)
Lemma obtener_z_sugerido_sin_resultado :
  returns (obtener_z_sugerido 600 30 10000 None) None.
Proof. vm_compute. reflexivity. Qed.

(** The three kinds of result on concrete labels: a configuration for a
    50 x 30 mm label, a reasoned impossibility for a label 340 mm wide, and
    nothing for a label 600 mm high. *)
Example obtener_z_sugerido_tres_resultados :
  (exists s, returns (obtener_z_sugerido 50 30 10000 None) (Some (Valido s))
             /\ s_z s = 116%Z /\ s_n s = 7%Z /\ s_etq_eje s = 9%Z)
  /\ returns (obtener_z_sugerido 50 340 10000 None)
       (Some (NoValido
                (mkImposibilidad 168 330
                   (Some "Ancho 340mm no cabe en rollo 330mm"%string) 0)))
  /\ returns (obtener_z_sugerido 600 30 10000 (Some 280)) None.
Proof.
  split; [eexists; split; [vm_compute; reflexivity | repeat split]|].
  split; vm_compute; reflexivity.
Qed.

(** ** Two scans side by side *)

Lemma safely_bind_with {A B : Type} (m : Run A) (f : A -> Run B)
    (P : B -> Prop) (a : A) :
  returns m a -> divisors_positive m -> safely (f a) P -> safely (bind m f) P.
Proof.
  intros Ha Hd Hf. apply safely_bind. exists a.
  split; [exact Ha|]. split; [exact Hd | exact Hf].
Qed.

Section DosCuerpos.

Variables alto_etq ancho_etq ancho_rollo_mm : Q.
Variables unidades1 unidades2 : Z.
Variables motivo_v1 motivo_v2 : option string.
Variables motivo_h1 motivo_h2 : string.
Variables alternativo1 alternativo2 : bool.

(** How the best configurations of the two scans correspond. *)
Variable Rm : option Solucion -> option Solucion -> Prop.

(** The correspondence survives a candidate: both scans take it or both
    leave it. *)
Hypothesis Rm_candidato :
  forall b1 b2 ma mb z n d g etq gap e,
    Rm b1 b2 ->
    returns
      (calcular_metraje_material unidades1 e d ancho_rollo_mm
         AJUSTE_DESARROLLO_REP_MM) ma ->
    returns
      (calcular_metraje_material unidades2 e d ancho_rollo_mm
         AJUSTE_DESARROLLO_REP_MM) mb ->
    mejora b1 ma = mejora b2 mb
    /\ Rm (Some (mkSolucion z n d g etq gap e (repeticiones_reales ma)
                   (ml ma) (m2 ma) ancho_rollo_mm alternativo1))
          (Some (mkSolucion z n d g etq gap e (repeticiones_reales mb)
                   (ml mb) (m2 mb) ancho_rollo_mm alternativo2)).

Let R (st1 st2 : Estado) : Prop :=
  Rm (mejor st1) (mejor st2)
  /\ (motivo_v1 = motivo_v2 -> motivo_h1 = motivo_h2 ->
      motivo st1 = motivo st2 /\ fallback st1 = fallback st2).

Lemma cuerpo_comun_rel (st1 st2 : Estado) (z : Z) :
  R st1 st2 ->
  safely
    (cuerpo_comun alto_etq ancho_etq unidades1 ancho_rollo_mm motivo_v1
       motivo_h1 alternativo1 st1 z)
    (fun st1' =>
       safely
         (cuerpo_comun alto_etq ancho_etq unidades2 ancho_rollo_mm motivo_v2
            motivo_h2 alternativo2 st2 z)
         (R st1')).
Proof.
  intros [Hm Hresto]. apply cuerpo_comun_safely.
  - intros ev Hev Hshort. apply cuerpo_comun_safely.
    + intros _ _ _. split.
      * rewrite !tras_invalido_mejor. exact Hm.
      * intros Ev Eh. destruct (Hresto Ev Eh) as [Emo Efa].
        rewrite !tras_invalido_fallback. split; [|exact Efa].
        rewrite Ev. unfold tras_invalido. rewrite Emo.
        destruct motivo_v2; [destruct (motivo st2) eqn:E2|];
          cbn [motivo]; congruence.
    + intros ev' r _ Hfit. exfalso. lra.
    + intros ev' r m _ Hfit. exfalso. lra.
  - intros ev r Hev Hfit Hr Hetq. apply cuerpo_comun_safely.
    + intros ev' _ Hshort. exfalso. lra.
    + intros ev' r' _ _ _ _. split.
      * rewrite !tras_no_cabe_mejor. exact Hm.
      * intros Ev Eh. destruct (Hresto Ev Eh) as [Emo Efa].
        rewrite !tras_no_cabe_motivo, !tras_no_cabe_fallback.
        rewrite Efa, Eh, Emo. split; reflexivity.
    + intros ev' r' m _ _ _ _ Hr' Hetq'. exfalso.
      rewrite (returns_inj _ _ _ Hr' Hr) in Hetq'. lia.
  - intros ev r m Hev Hfit Hdes Hn Hr Hetq Hw Hcalc. apply cuerpo_comun_safely.
    + intros ev' _ Hshort. exfalso. lra.
    + intros ev' r' _ _ Hr' Hetq'. exfalso.
      rewrite (returns_inj _ _ _ Hr' Hr) in Hetq'. lia.
    + intros ev' r' m' Hev' _ _ _ Hr' _ _ Hcalc'.
      rewrite (returns_inj _ _ _ Hev' Hev) in *.
      rewrite (returns_inj _ _ _ Hr' Hr) in *.
      destruct (Rm_candidato (mejor st1) (mejor st2) m m' z (ev_n ev)
                  (ev_desarrollo_mm ev) (ev_gap ev) (etq_eje r) (gap_entre r)
                  (ev_n ev * etq_eje r)%Z Hm Hcalc Hcalc') as [Emej Hnew].
      unfold tras_metraje. rewrite <- Emej. destruct (mejora (mejor st1) m).
      * split; [exact Hnew | exact Hresto].
      * split; [exact Hm | exact Hresto].
Qed.

Lemma scan_rel (l : list Z) (st1 st2 : Estado) :
  R st1 st2 ->
  safely
    (for_each
       (cuerpo_comun alto_etq ancho_etq unidades1 ancho_rollo_mm motivo_v1
          motivo_h1 alternativo1) l st1)
    (fun st1' =>
       safely
         (for_each
            (cuerpo_comun alto_etq ancho_etq unidades2 ancho_rollo_mm
               motivo_v2 motivo_h2 alternativo2) l st2)
         (R st1')).
Proof.
  apply for_each_rel. intros a b z _ Hab. apply cuerpo_comun_rel, Hab.
Qed.

End DosCuerpos.

(** ** Doubling the quantity *)

Lemma calcular_metraje_material_doble (unidades etq_repeat : Z)
    (desarrollo_mm ancho_rollo_mm ajuste_mm : Q) (ma mb : Metraje) :
  returns
    (calcular_metraje_material unidades etq_repeat desarrollo_mm
       ancho_rollo_mm ajuste_mm) ma ->
  returns
    (calcular_metraje_material (2 * unidades) etq_repeat desarrollo_mm
       ancho_rollo_mm ajuste_mm) mb ->
  repeticiones_reales mb == 2 * repeticiones_reales ma
  /\ ml mb == 2 * ml ma
  /\ m2 mb == 2 * m2 ma.
Proof.
  assert (Hu2 : inject_Z (2 * unidades) == 2 * inject_Z unidades)
    by (rewrite inject_Z_mult; reflexivity).
  remember (2 * unidades)%Z as u2 eqn:Eu2. clear Eu2.
  intros Ha Hb.
  destruct (Z_lt_le_dec 0 etq_repeat) as [He | He];
    [destruct (Qlt_le_dec 0 desarrollo_mm) as [Hd | Hd];
     [destruct (Qlt_le_dec 0 ancho_rollo_mm) as [Hw | Hw]|]|].
  - rewrite calcular_metraje_material_run in Ha, Hb by assumption.
    injection Ha as <-. injection Hb as <-.
    cbn [repeticiones_reales ml m2].
    pose proof (inject_Z_pos etq_repeat He) as Hpos.
    rewrite Hu2. repeat split; field; lra.
  - rewrite calcular_metraje_material_guard in Ha, Hb by auto.
    injection Ha as <-. injection Hb as <-. repeat split; reflexivity.
  - rewrite calcular_metraje_material_guard in Ha, Hb by auto.
    injection Ha as <-. injection Hb as <-. repeat split; reflexivity.
  - rewrite calcular_metraje_material_guard in Ha, Hb by auto.
    injection Ha as <-. injection Hb as <-. repeat split; reflexivity.
Qed.

Lemma doble_candidato (unidades : Z) (ancho_rollo_mm : Q) (alternativo : bool)
    (b1 b2 : option Solucion) (ma mb : Metraje) (z n : Z) (d g : Q) (etq : Z)
    (gap : option Q) (e : Z) :
  doble_mejor b1 b2 ->
  returns
    (calcular_metraje_material unidades e d ancho_rollo_mm
       AJUSTE_DESARROLLO_REP_MM) ma ->
  returns
    (calcular_metraje_material (2 * unidades) e d ancho_rollo_mm
       AJUSTE_DESARROLLO_REP_MM) mb ->
  mejora b1 ma = mejora b2 mb
  /\ doble_mejor
       (Some (mkSolucion z n d g etq gap e (repeticiones_reales ma) (ml ma)
                (m2 ma) ancho_rollo_mm alternativo))
       (Some (mkSolucion z n d g etq gap e (repeticiones_reales mb) (ml mb)
                (m2 mb) ancho_rollo_mm alternativo)).
Proof.
  intros Hb Ha Hbb.
  destruct (calcular_metraje_material_doble _ _ _ _ _ _ _ Ha Hbb)
    as (Hrep & Hml & Hm2).
  split.
  - destruct b1 as [s1|], b2 as [s2|]; cbn [doble_mejor] in Hb;
      try contradiction; [|reflexivity].
    destruct Hb as (_ & _ & _ & _ & _ & _ & _ & _ & _ & _ & Hs & _).
    unfold mejora.
    destruct (Qltb (ml ma) (s_ml s1)) eqn:E1;
      destruct (Qltb (ml mb) (s_ml s2)) eqn:E2; try reflexivity.
    + apply Qltb_true in E1. apply Qltb_false in E2. exfalso. lra.
    + apply Qltb_false in E1. apply Qltb_true in E2. exfalso. lra.
  - cbn [doble_mejor]. unfold doble_solucion.
    cbn [s_z s_n s_desarrollo_mm s_gap_vertical s_etq_eje
         s_gap_horizontal_real s_etq_repeat s_repeticiones s_ml s_m2
         s_ancho_rollo_mm s_rollo_alternativo].
    repeat split; assumption.
Qed.

Lemma retorno_final_doble (st1 st2 : Estado) (w : Q) :
  motivo st1 = motivo st2 -> fallback st1 = fallback st2 ->
  doble_resultado (retorno_final st1 w) (retorno_final st2 w).
Proof.
  intros Emo Efa. unfold retorno_final. rewrite Emo, Efa.
  destruct (fallback st2); [|exact I].
  destruct (verdadero (motivo st2)); [reflexivity | exact I].
Qed.

(** C5. For every label, roll width and quantity q (in particular every
    q >= 1), the selector run on q and on 2q returns the same cylinder, the
    same repeats and the same across-count, with linear meters (and
    revolutions and area) of the 2q run exactly double those of the q run;
    when no configuration exists both runs return the same impossibility
    or both return nothing. *)
Theorem obtener_z_sugerido_doble (alto_etq ancho_etq : Q) (unidades : Z)
    (ancho_rollo_mm : option Q) :
  safely (obtener_z_sugerido alto_etq ancho_etq unidades ancho_rollo_mm)
    (fun r1 =>
       safely
         (obtener_z_sugerido alto_etq ancho_etq (2 * unidades) ancho_rollo_mm)
         (fun r2 => doble_resultado r1 r2)).
Proof.
  unfold obtener_z_sugerido. cbv zeta.
  set (w := match ancho_rollo_mm with
            | Some w0 => w0
            | None => ROLLO_BASE_MM
            end).
  unfold primera_pasada, segunda_pasada.
  change (cuerpo_primera alto_etq ancho_etq)
    with (fun u w0 => cuerpo_comun alto_etq ancho_etq u w0
            (Some (motivo_alto alto_etq)) (motivo_ancho ancho_etq w0) false).
  change (cuerpo_segunda alto_etq ancho_etq)
    with (fun u => cuerpo_comun alto_etq ancho_etq u ROLLO_BASE_MM None
            (motivo_ancho_330 ancho_etq) true).
  cbv beta.
  apply safely_bind.
  assert (H0 : doble_mejor None None
               /\ (Some (motivo_alto alto_etq) = Some (motivo_alto alto_etq) ->
                   motivo_ancho ancho_etq w = motivo_ancho ancho_etq w ->
                   @None string = None /\ @None Z = None))
    by (split; [exact I | intros _ _; split; reflexivity]).
  pose proof (scan_rel alto_etq ancho_etq w unidades (2 * unidades)
                (Some (motivo_alto alto_etq)) (Some (motivo_alto alto_etq))
                (motivo_ancho ancho_etq w) (motivo_ancho ancho_etq w)
                false false doble_mejor
                (doble_candidato unidades w false)
                CILINDROS_FB (mkEstado None None None)
                (mkEstado None None None) H0) as Hscan.
  apply (safely_mono _ _ _ Hscan).
  intros st1 (st2 & Hst2 & Hdiv2 & Hbest & Hresto).
  destruct (Hresto eq_refl eq_refl) as [Emo Efa].
  pose proof (retorno_final_doble st1 st2 w Emo Efa) as Hfin.
  destruct (mejor st1) as [a|] eqn:E1; destruct (mejor st2) as [b|] eqn:E2;
    cbn [doble_mejor] in Hbest; try contradiction.
  { apply safely_ret. apply (safely_bind_with _ _ _ st2 Hst2 Hdiv2).
    rewrite E2. apply safely_ret. exact Hbest. }
  destruct (negb (Qeq_bool w ROLLO_BASE_MM)) eqn:Ew.
  - apply safely_bind.
    assert (H1 : doble_mejor None None
                 /\ (@None string = None ->
                     motivo_ancho_330 ancho_etq = motivo_ancho_330 ancho_etq ->
                     @None string = None /\ @None Z = None))
      by (split; [exact I | intros _ _; split; reflexivity]).
    pose proof (scan_rel alto_etq ancho_etq ROLLO_BASE_MM unidades
                  (2 * unidades) None None
                  (motivo_ancho_330 ancho_etq) (motivo_ancho_330 ancho_etq)
                  true true doble_mejor
                  (doble_candidato unidades ROLLO_BASE_MM true)
                  CILINDROS_FB (mkEstado None None None)
                  (mkEstado None None None) H1) as Hscan2.
    apply (safely_mono _ _ _ Hscan2).
    intros sa (sb & Hsb & Hdivb & Hbest2 & Hresto2).
    destruct (Hresto2 eq_refl eq_refl) as [Emo2 Efa2].
    destruct (mejor sa) as [a|] eqn:Ea; destruct (mejor sb) as [b|] eqn:Eb;
      cbn [doble_mejor] in Hbest2; try contradiction.
    + apply safely_ret. apply (safely_bind_with _ _ _ st2 Hst2 Hdiv2).
      rewrite E2. apply (safely_bind_with _ _ _ sb Hsb Hdivb).
      rewrite Eb. apply safely_ret. exact Hbest2.
    + rewrite Efa2, Emo2.
      destruct (fallback sb) as [zf|] eqn:Efb.
      * apply safely_ret. apply (safely_bind_with _ _ _ st2 Hst2 Hdiv2).
        rewrite E2. apply (safely_bind_with _ _ _ sb Hsb Hdivb).
        rewrite Eb, Efb. apply safely_ret. reflexivity.
      * apply safely_ret. apply (safely_bind_with _ _ _ st2 Hst2 Hdiv2).
        rewrite E2. apply (safely_bind_with _ _ _ sb Hsb Hdivb).
        rewrite Eb, Efb. apply safely_ret. exact Hfin.
  - apply safely_ret. apply (safely_bind_with _ _ _ st2 Hst2 Hdiv2).
    rewrite E2. apply safely_ret. exact Hfin.
Qed.

(** C5 on a 50 x 30 mm label: 10000 and 20000 labels both go on cylinder
    116 with 7 repeats and 9 across, and the linear meters double. *)
Example obtener_z_sugerido_doble_ejemplo :
  exists s1 s2,
    returns (obtener_z_sugerido 50 30 10000 None) (Some (Valido s1))
    /\ returns (obtener_z_sugerido 50 30 20000 None) (Some (Valido s2))
    /\ s_z s1 = 116%Z /\ s_z s2 = 116%Z
    /\ s_n s1 = 7%Z /\ s_n s2 = 7%Z
    /\ s_etq_eje s1 = 9%Z /\ s_etq_eje s2 = 9%Z
    /\ s_ml s2 == 2 * s_ml s1.
Proof.
  eexists. eexists. split; [vm_compute; reflexivity|].
  split; [vm_compute; reflexivity|]. repeat split.
Qed.

(** ** The second scan *)

Lemma marcar_candidato (unidades : Z) (b1 b2 : option Solucion)
    (ma mb : Metraje) (z n : Z) (d g : Q) (etq : Z) (gap : option Q) (e : Z) :
  b2 = option_map (marcar true) b1 ->
  returns
    (calcular_metraje_material unidades e d ROLLO_BASE_MM
       AJUSTE_DESARROLLO_REP_MM) ma ->
  returns
    (calcular_metraje_material unidades e d ROLLO_BASE_MM
       AJUSTE_DESARROLLO_REP_MM) mb ->
  mejora b1 ma = mejora b2 mb
  /\ Some (mkSolucion z n d g etq gap e (repeticiones_reales mb) (ml mb)
             (m2 mb) ROLLO_BASE_MM true)
     = option_map (marcar true)
         (Some (mkSolucion z n d g etq gap e (repeticiones_reales ma) (ml ma)
                  (m2 ma) ROLLO_BASE_MM false)).
Proof.
  intros -> Ha Hb. rewrite (returns_inj _ _ _ Hb Ha).
  split; [|reflexivity]. destruct b1; reflexivity.
Qed.

(** The first scan never sets the ["rollo_alternativo"] key, and records
    the roll width it was given. *)
Lemma primera_pasada_sin_marca (alto_etq ancho_etq : Q) (unidades : Z)
    (ancho_rollo_mm : Q) :
  safely (primera_pasada alto_etq ancho_etq unidades ancho_rollo_mm)
    (fun st =>
       forall s, mejor st = Some s ->
                 s_rollo_alternativo s = false
                 /\ s_ancho_rollo_mm s = ancho_rollo_mm).
Proof.
  unfold primera_pasada. apply for_each_safely; [|discriminate].
  intros st z _ Hst. rewrite cuerpo_primera_comun.
  apply cuerpo_comun_safely.
  - intros ev _ _. rewrite tras_invalido_mejor. exact Hst.
  - intros ev r _ _ _ _. rewrite tras_no_cabe_mejor. exact Hst.
  - intros ev r m _ _ _ _ _ _ _ _. unfold tras_metraje.
    destruct (mejora (mejor st) m); [|exact Hst].
    cbn [mejor]. intros s [= <-]. split; reflexivity.
Qed.

Lemma retorno_final_no_valido (st : Estado) (w : Q) (s : Solucion) :
  retorno_final st w <> Some (Valido s).
Proof.
  unfold retorno_final.
  destruct (fallback st); [destruct (verdadero (motivo st))|]; discriminate.
Qed.

(** C4. For a preferred roll width other than 330 on which the first scan
    finds no configuration, if the selector run on the 330 mm standard roll
    returns a configuration, then the selector returns that configuration
    with rollo_alternativo = true and roll width 330.  A configuration
    with rollo_alternativo = true is only returned when the preferred width
    differs from 330 and the first scan found none; and when the preferred
    width is 330, or the first scan found one, no division beyond those of
    the first scan is executed (the second scan is not entered). *)
Theorem obtener_z_sugerido_rollo_alternativo (alto_etq ancho_etq : Q)
    (unidades : Z) (ancho_rollo_mm : Q) :
  (~ ancho_rollo_mm == ROLLO_BASE_MM ->
   (exists st,
      returns (primera_pasada alto_etq ancho_etq unidades ancho_rollo_mm) st
      /\ mejor st = None) ->
   forall s,
     returns
       (obtener_z_sugerido alto_etq ancho_etq unidades (Some ROLLO_BASE_MM))
       (Some (Valido s)) ->
     exists s',
       returns
         (obtener_z_sugerido alto_etq ancho_etq unidades (Some ancho_rollo_mm))
         (Some (Valido s'))
       /\ s_rollo_alternativo s' = true
       /\ s_ancho_rollo_mm s' = ROLLO_BASE_MM
       /\ s' = marcar true s)
  /\
  (forall s',
     returns
       (obtener_z_sugerido alto_etq ancho_etq unidades (Some ancho_rollo_mm))
       (Some (Valido s')) ->
     s_rollo_alternativo s' = true ->
     ~ ancho_rollo_mm == ROLLO_BASE_MM
     /\ exists st,
          returns (primera_pasada alto_etq ancho_etq unidades ancho_rollo_mm) st
          /\ mejor st = None)
  /\
  (ancho_rollo_mm == ROLLO_BASE_MM
   \/ (exists st m,
         returns (primera_pasada alto_etq ancho_etq unidades ancho_rollo_mm) st
         /\ mejor st = Some m) ->
   divisors
     (obtener_z_sugerido alto_etq ancho_etq unidades (Some ancho_rollo_mm))
   = divisors (primera_pasada alto_etq ancho_etq unidades ancho_rollo_mm)).
Proof.
  split; [|split].
  - intros Hw (st & Hst & Hnone) s Hs.
    (* the run on the standard roll found [s] in its first scan *)
    unfold obtener_z_sugerido in Hs. cbv zeta in Hs.
    apply returns_bind_inv in Hs as (st330 & Hst330 & Hs).
    assert (Hbest : mejor st330 = Some s).
    { destruct (mejor st330) as [m|].
      - unfold returns in Hs. cbn in Hs. congruence.
      - change (negb (Qeq_bool ROLLO_BASE_MM ROLLO_BASE_MM)) with false in Hs.
        unfold returns in Hs. cbn [ret value] in Hs.
        exfalso. injection Hs as Hs.
        exact (retorno_final_no_valido _ _ _ Hs). }
    (* and the second scan moves in step with it *)
    assert (H0 : @None Solucion = option_map (marcar true) None
                 /\ (Some (motivo_alto alto_etq) = None ->
                     motivo_ancho ancho_etq ROLLO_BASE_MM
                     = motivo_ancho_330 ancho_etq ->
                     @None string = None /\ @None Z = None))
      by (split; [reflexivity | discriminate]).
    pose proof (scan_rel alto_etq ancho_etq ROLLO_BASE_MM unidades unidades
                  (Some (motivo_alto alto_etq)) None
                  (motivo_ancho ancho_etq ROLLO_BASE_MM)
                  (motivo_ancho_330 ancho_etq) false true
                  (fun b1 b2 => b2 = option_map (marcar true) b1)
                  (marcar_candidato unidades)
                  CILINDROS_FB (mkEstado None None None)
                  (mkEstado None None None) H0) as Hscan.
    pose proof (safely_returns _ _ st330 Hscan Hst330)
      as (sb & Hsb & _ & Hrel & _).
    rewrite Hbest in Hrel. cbn [option_map] in Hrel.
    exists (marcar true s). split; [|repeat split].
    + unfold obtener_z_sugerido. cbv zeta.
      apply (returns_bind _ _ st _ Hst). rewrite Hnone.
      assert (Ew : negb (Qeq_bool ancho_rollo_mm ROLLO_BASE_MM) = true).
      { apply negb_true_iff.
        destruct (Qeq_bool ancho_rollo_mm ROLLO_BASE_MM) eqn:E; [|reflexivity].
        apply Qeq_bool_eq in E. contradiction. }
      rewrite Ew. apply (returns_bind _ _ sb _ Hsb). rewrite Hrel.
      reflexivity.
    + (* the roll width recorded by [s] is the standard one *)
      exact (proj2 (safely_returns _ _ st330
                      (primera_pasada_sin_marca alto_etq ancho_etq unidades
                         ROLLO_BASE_MM) Hst330 s Hbest)).
  - intros s' Hs' Hflag.
    unfold obtener_z_sugerido in Hs'. cbv zeta in Hs'.
    apply returns_bind_inv in Hs' as (st & Hst & Hs').
    pose proof (safely_returns _ _ st
                  (primera_pasada_sin_marca alto_etq ancho_etq unidades
                     ancho_rollo_mm) Hst) as Hsin.
    destruct (mejor st) as [m|] eqn:Em.
    + unfold returns in Hs'. cbn in Hs'. injection Hs' as ->.
      rewrite (proj1 (Hsin s' Em)) in Hflag. discriminate.
    + destruct (negb (Qeq_bool ancho_rollo_mm ROLLO_BASE_MM)) eqn:Ew.
      * split; [|exists st; split; [exact Hst | exact Em]].
        apply negb_true_iff in Ew. apply Qeq_bool_neq, Ew.
      * unfold returns in Hs'. cbn [ret value] in Hs'. injection Hs' as Hs'.
        exfalso. exact (retorno_final_no_valido _ _ _ Hs').
  - intros Hcond. unfold obtener_z_sugerido. cbv zeta.
    rewrite divisors_bind.
    destruct (value (primera_pasada alto_etq ancho_etq unidades ancho_rollo_mm))
      as [st|] eqn:Est; [|reflexivity].
    assert (Hnil : forall r : option Resultado, divisors (ret r) = [])
      by reflexivity.
    destruct (mejor st) as [m|] eqn:Em.
    + rewrite Hnil. apply app_nil_r.
    + destruct Hcond as [Hw | (st' & m & Hst' & Hm)].
      * apply Qeq_eq_bool in Hw. rewrite Hw. cbn [negb].
        rewrite Hnil. apply app_nil_r.
      * unfold returns in Hst'. congruence.
Qed.

(** C4 at work: a label 200 mm wide does not fit a 100 mm roll, fits the
    standard roll, and comes back on the standard roll with the key set. *)
Lemma obtener_z_sugerido_rollo_alternativo_witness :
  exists s',
    returns (obtener_z_sugerido 50 200 10000 (Some 100)) (Some (Valido s'))
    /\ s_rollo_alternativo s' = true
    /\ s_ancho_rollo_mm s' = ROLLO_BASE_MM
    /\ s' = marcar true
              (mkSolucion 116 7 (116 * FACTOR_CILINDRO_A_MM)
                 ((116 * FACTOR_CILINDRO_A_MM - 7 * 50) / 7) 1 None 7
                 (10000 / 7)
                 ((10000 / 7 * (116 * FACTOR_CILINDRO_A_MM)
                   + 10000 / 7 * AJUSTE_DESARROLLO_REP_MM) / 1000)
                 ((10000 / 7 * (116 * FACTOR_CILINDRO_A_MM)
                   + 10000 / 7 * AJUSTE_DESARROLLO_REP_MM) / 1000
                  * (ROLLO_BASE_MM / 1000))
                 ROLLO_BASE_MM false).
Proof.
  apply (proj1 (obtener_z_sugerido_rollo_alternativo 50 200 10000 100)).
  - intros H. discriminate H.
  - eexists. split; [vm_compute; reflexivity | reflexivity].
  - vm_compute. reflexivity.
Defined.

(** ** A quantity of zero *)

Lemma Qdiv_pos (a b : Q) : 0 < a -> 0 < b -> 0 < a / b.
Proof.
  intros Ha Hb. apply Qlt_shift_div_l; [exact Hb | lra].
Qed.

(** With a quantity of at least one label, every configuration a scan
    keeps has positive revolutions, linear meters and area, the
    revolutions being the quantity over the labels per revolution. *)
Lemma scan_positivo (alto_etq ancho_etq : Q) (unidades : Z)
    (ancho_rollo_mm : Q) (motivo_v : option string) (motivo_h : string)
    (alternativo : bool) :
  (1 <= unidades)%Z ->
  safely
    (for_each
       (cuerpo_comun alto_etq ancho_etq unidades ancho_rollo_mm motivo_v
          motivo_h alternativo) CILINDROS_FB (mkEstado None None None))
    (fun st =>
       forall s, mejor st = Some s ->
                 s_repeticiones s
                 = inject_Z unidades / inject_Z (s_etq_repeat s)
                 /\ 0 < s_repeticiones s /\ 0 < s_ml s /\ 0 < s_m2 s).
Proof.
  intros Hu. apply for_each_safely; [|discriminate].
  intros st z Hz Hst. apply CILINDROS_FB_bounds in Hz.
  apply cuerpo_comun_safely.
  - intros ev _ _. rewrite tras_invalido_mejor. exact Hst.
  - intros ev r _ _ _ _. rewrite tras_no_cabe_mejor. exact Hst.
  - intros ev r m _ _ Hdes Hn _ Hetq Hw Hm. unfold tras_metraje.
    destruct (mejora (mejor st) m); [|exact Hst].
    cbn [mejor]. intros s [= <-].
    cbn [s_repeticiones s_etq_repeat s_ml s_m2].
    assert (He : (0 < ev_n ev * etq_eje r)%Z) by lia.
    assert (Hd : 0 < ev_desarrollo_mm ev).
    { rewrite Hdes.
      assert (Hz1 : 1 <= inject_Z z) by (apply inject_Z_ge1; lia).
      unfold FACTOR_CILINDRO_A_MM.
      assert (Hf : 0 < 3175 # 1000) by reflexivity. nra. }
    rewrite calcular_metraje_material_run in Hm by assumption.
    injection Hm as <-. cbn [repeticiones_reales ml m2].
    assert (Hrep : 0 < inject_Z unidades / inject_Z (ev_n ev * etq_eje r)).
    { apply Qdiv_pos; apply inject_Z_pos; lia. }
    set (rep := inject_Z unidades / inject_Z (ev_n ev * etq_eje r)) in *.
    assert (Hml : 0 < (rep * ev_desarrollo_mm ev
                       + rep * AJUSTE_DESARROLLO_REP_MM) / 1000).
    { apply Qdiv_pos; [|reflexivity].
      unfold AJUSTE_DESARROLLO_REP_MM.
      assert (Ha : 0 < 75 # 100) by reflexivity. nra. }
    split; [reflexivity|]. split; [exact Hrep|]. split; [exact Hml|].
    assert (Hwm : 0 < ancho_rollo_mm / 1000)
      by (apply Qdiv_pos; [exact Hw | reflexivity]).
    nra.
Qed.

(** A 50 x 30 mm label: with zero labels to produce the row is
    computed on cylinder 116 with 7 repeats and 9 across, for one label;
    the substitution is the caller's, and [obtener_z_sugerido] itself, given
    a quantity of 0, stops at the first cylinder with zero linear meters. *)
Example calcular_z_y_metraje_cero_ejemplo :
  (exists s,
     returns (calcular_z_y_metraje 50 30 0 None) (Calculado (Some (Valido s)))
     /\ s_z s = 116%Z /\ s_n s = 7%Z /\ s_etq_eje s = 9%Z
     /\ s_repeticiones s == 1 # 63 /\ 0 < s_ml s)
  /\ (exists s,
        returns (obtener_z_sugerido 50 30 0 None) (Some (Valido s))
        /\ s_z s = 168%Z /\ s_ml s == 0).
Proof.
  split; eexists; (split; [vm_compute; reflexivity | repeat split]).
Qed.

(** * Further properties of the engine *)

(** ** The horizontal fit *)

Lemma Qfloor_div_small (a b : Q) : 0 <= a -> a < b -> Qfloor (a / b) = 0%Z.
Proof.
  intros Ha Hb.
  assert (Hpos : 0 < b) by lra.
  pose proof (Qfloor_div_nonneg a b Ha Hpos) as Hlo.
  destruct (Qfloor_div_bounds a b Hpos) as [Hle _].
  destruct (Z_lt_le_dec 0 (Qfloor (a / b))) as [Hgt | Hok]; [|lia].
  exfalso.
  assert (H1 : 1 <= inject_Z (Qfloor (a / b))) by (apply inject_Z_ge1; lia).
  nra.
Qed.

Lemma evaluar_rollo_estandar_cabe_sii
    (ancho_mm ancho_etq gap_h_usado bandera_mm : Q) :
  0 < gap_h_usado -> 0 <= bandera_mm ->
  safely (evaluar_rollo_estandar ancho_mm ancho_etq gap_h_usado bandera_mm)
    (fun r =>
       (0 < etq_eje r)%Z
       <-> 0 < ancho_mm /\ 0 < ancho_etq + gap_h_usado
           /\ ancho_etq <= ancho_mm).
Proof.
  intros Hg Hb.
  destruct (Qlt_le_dec 0 ancho_mm) as [Ha | Ha];
    [destruct (Qlt_le_dec 0 (ancho_etq + gap_h_usado)) as [Hp | Hp]|].
  - apply (safely_mono _ _ _
             (evaluar_rollo_estandar_run ancho_mm ancho_etq gap_h_usado
                bandera_mm Ha Hp)).
    intros r (u & k & _ & Hsel & Hres & _).
    assert (Hu1 : 0 <= py_max 0 (ancho_mm - bandera_mm)
                  /\ py_max 0 (ancho_mm - bandera_mm) <= ancho_mm).
    { destruct (py_max_cases 0 (ancho_mm - bandera_mm)) as [[H E] | [H E]];
        rewrite E; lra. }
    split.
    + intros Hpos. split; [exact Ha|]. split; [exact Hp|].
      destruct (Qlt_le_dec ancho_mm ancho_etq) as [Hwide | Hok]; [|exact Hok].
      exfalso.
      (* a label wider than the roll: both counts are zero, nothing forced *)
      assert (Hk : k = 0%Z).
      { destruct Hsel as [(Hk1 & _ & _) | (_ & Eu & Ek)].
        - rewrite Qfloor_div_small in Hk1 by lra. lia.
        - subst u. rewrite Ek. rewrite Qfloor_div_small by lra. reflexivity. }
      assert (Hule : u <= ancho_mm).
      { destruct Hsel as [(_ & Eu & _) | (_ & Eu & _)]; subst u; lra. }
      destruct Hres as [(_ & Hfit & _) | (_ & He & _)]; [lra | lia].
    + intros (_ & _ & Hfit).
      destruct Hres as [(_ & _ & He & _) | ([Hk | Hlt] & He & _)]; try lia.
      exfalso.
      assert (Hule : u <= ancho_mm).
      { destruct Hsel as [(_ & Eu & _) | (_ & Eu & _)]; subst u; lra. }
      destruct Hsel as [(Hk1 & Eu & Ek) | (_ & Eu & Ek)].
      * (* the flag margin leaves a whole step, so the label fits in [u] *)
        assert (Hk1' : 1 <= inject_Z k) by (subst k u; apply inject_Z_ge1; lia).
        assert (Hkp : inject_Z k * (ancho_etq + gap_h_usado) <= u)
          by (rewrite Ek; apply (Qfloor_div_bounds u _ Hp)).
        nra.
      * subst u. lra.
  - rewrite evaluar_rollo_estandar_guard by (right; exact Hp).
    apply safely_ret. cbn [etq_eje]. split; [lia | intros (_ & H & _); lra].
  - rewrite evaluar_rollo_estandar_guard by (left; exact Ha).
    apply safely_ret. cbn [etq_eje]. split; [lia | intros (H & _); lra].
Qed.

(** X1. With a positive gap and a flag that is not negative, at least one
    label is placed across the roll exactly when the roll is positive, the
    step is positive and the label is not wider than the roll. *)
Theorem evaluar_rollo_estandar_cabe
    (ancho_mm ancho_etq gap_h_usado bandera_mm : Q) :
  0 < gap_h_usado -> 0 <= bandera_mm ->
  safely (evaluar_rollo_estandar ancho_mm ancho_etq gap_h_usado bandera_mm)
    (fun r =>
       (0 < etq_eje r)%Z
       <-> 0 < ancho_mm /\ 0 < ancho_etq + gap_h_usado
           /\ ancho_etq <= ancho_mm).
Proof. exact (evaluar_rollo_estandar_cabe_sii _ _ _ _). Qed.

Lemma evaluar_rollo_estandar_cabe_witness :
  0 < 27 # 10 /\ 0 <= 20
  /\ safely (evaluar_rollo_estandar 330 329 (27 # 10) 20)
       (fun r =>
          (0 < etq_eje r)%Z
          <-> 0 < 330 /\ 0 < 329 + (27 # 10) /\ 329 <= 330).
Proof.
  split; [reflexivity|]. split; [discriminate|].
  apply (evaluar_rollo_estandar_cabe 330 329 (27 # 10) 20);
    [reflexivity | discriminate].
Defined.

(** X2. For a label width and a gap that are not negative, the utilization lies
    between 0 and 100, a reported gap is never negative, and with two or
    more labels across the realized gap is at least the gap asked for. *)
Theorem evaluar_rollo_estandar_cotas
    (ancho_mm ancho_etq gap_h_usado bandera_mm : Q) :
  0 <= ancho_etq -> 0 <= gap_h_usado ->
  safely (evaluar_rollo_estandar ancho_mm ancho_etq gap_h_usado bandera_mm)
    (fun r =>
       0 <= aprovechamiento_pct r /\ aprovechamiento_pct r <= 100
       /\ (0 <= etq_eje r)%Z
       /\ forall g, gap_entre r = Some g ->
                    0 <= g /\ ((1 < etq_eje r)%Z -> gap_h_usado <= g)).
Proof.
  intros Hw Hg.
  destruct (Qlt_le_dec 0 ancho_mm) as [Ha | Ha];
    [destruct (Qlt_le_dec 0 (ancho_etq + gap_h_usado)) as [Hp | Hp]|].
  - pose proof (evaluar_rollo_estandar_run ancho_mm ancho_etq gap_h_usado
                  bandera_mm Ha Hp) as (r & Hr & Hd & u & k & Hu & Hsel & Hres & Hap).
    pose proof (safely_returns _ _ r
                  (evaluar_rollo_estandar_bounds ancho_mm ancho_etq
                     gap_h_usado bandera_mm Ha Hp) Hr)
      as (u' & k' & Hu' & H0u & H0k & Hkp & Hres').
    rewrite Hu in Hu'. injection Hu' as <-.
    exists r. split; [exact Hr|]. split; [exact Hd|].
    assert (Hcov : inject_Z (etq_eje r) * ancho_etq <= u
                   /\ (0 <= etq_eje r)%Z).
    { destruct Hres' as [(_ & Hfit & He) | (_ & He)]; rewrite He.
      - change (inject_Z 1) with 1. split; [lra | lia].
      - pose proof (inject_Z_nonneg k' H0k). split; [nra | exact H0k]. }
    destruct Hcov as [Hcov Hetq].
    pose proof (inject_Z_nonneg _ Hetq) as Hetq'.
    split; [|split; [|split; [exact Hetq|]]].
    + rewrite Hap. destruct (Qltb 0 u) eqn:E; [|lra].
      apply Qltb_true in E.
      assert (Hq : 0 <= inject_Z (etq_eje r) * ancho_etq / u).
      { apply Qle_shift_div_l; [exact E|]. nra. }
      lra.
    + rewrite Hap. destruct (Qltb 0 u) eqn:E; [|lra].
      apply Qltb_true in E.
      assert (Hq : inject_Z (etq_eje r) * ancho_etq / u <= 1).
      { apply Qle_shift_div_r; [exact E|]. lra. }
      lra.
    + intros g Hgap.
      destruct Hres as [(_ & _ & He & Hge) | (_ & He & Hge)].
      * rewrite Hge in Hgap. injection Hgap as <-. split; [|rewrite He; lia].
        destruct (py_max_cases 0 (u - ancho_etq)) as [[H E] | [H E]];
          rewrite E; lra.
      * rewrite Hge in Hgap. destruct (1 <? k)%Z eqn:E1k; [|discriminate].
        injection Hgap as <-. apply Z.ltb_lt in E1k.
        (* [k] is the floor of [u / paso], so [k] whole steps fit in [u] *)
        assert (Hkk : k = k').
        { destruct Hres' as [(Hk0 & _ & He') | (_ & He')]; [|congruence].
          rewrite He in He'. lia. }
        subst k'.
        assert (Hk2 : 2 <= inject_Z k)
          by (change 2 with (inject_Z 2); rewrite <- Zle_Qle; lia).
        assert (Hden : 0 < inject_Z (k - 1))
          by (apply inject_Z_pos; lia).
        assert (Hrest : inject_Z k * gap_h_usado <= u - inject_Z k * ancho_etq) by nra.
        assert (Hkg : 0 <= inject_Z k * gap_h_usado)
          by (apply Qmult_le_0_compat; lra).
        assert (Hnn : 0 <= u - inject_Z k * ancho_etq) by lra.
        rewrite (py_max_0_nonneg _ Hnn).
        split.
        -- apply Qle_shift_div_l; [exact Hden | lra].
        -- intros _. apply Qle_shift_div_l; [exact Hden|].
           rewrite inject_Z_pred. lra.
  - rewrite evaluar_rollo_estandar_guard by (right; exact Hp).
    apply safely_ret. cbn [aprovechamiento_pct etq_eje gap_entre].
    repeat split; try lra; try lia; discriminate.
  - rewrite evaluar_rollo_estandar_guard by (left; exact Ha).
    apply safely_ret. cbn [aprovechamiento_pct etq_eje gap_entre].
    repeat split; try lra; try lia; discriminate.
Qed.

Lemma evaluar_rollo_estandar_cotas_witness :
  0 <= 30 /\ 0 <= 27 # 10
  /\ safely (evaluar_rollo_estandar 330 30 (27 # 10) 20)
       (fun r =>
          0 <= aprovechamiento_pct r /\ aprovechamiento_pct r <= 100
          /\ (0 <= etq_eje r)%Z
          /\ forall g, gap_entre r = Some g ->
                       0 <= g /\ ((1 < etq_eje r)%Z -> 27 # 10 <= g)).
Proof.
  split; [discriminate|]. split; [discriminate|].
  apply (evaluar_rollo_estandar_cotas 330 30 (27 # 10) 20); discriminate.
Defined.

(** ** The search finds the minimum *)

Lemma sorted_desc_prefix (pre post : list Z) (z : Z) :
  StronglySorted (fun a b => (b < a)%Z) (pre ++ z :: post) ->
  forall y, In y pre -> (z < y)%Z.
Proof.
  induction pre as [|x pre IH]; intros Hs y Hy; [contradiction|].
  cbn [app] in Hs. inversion Hs as [|? ? Hs' Hall]; subst.
  destruct Hy as [<- | Hy].
  - rewrite Forall_forall in Hall. apply Hall. apply in_or_app.
    right. left. reflexivity.
  - apply IH; assumption.
Qed.

(** The candidate of a cylinder is unique. *)
Lemma candidato_de_unico (alto_etq ancho_etq : Q) (unidades : Z)
    (ancho_rollo_mm : Q) (alternativo : bool) (z : Z) (s s' : Solucion) :
  candidato_de alto_etq ancho_etq unidades ancho_rollo_mm alternativo z s ->
  candidato_de alto_etq ancho_etq unidades ancho_rollo_mm alternativo z s' ->
  s = s'.
Proof.
  intros (ev & r & m & Hev & _ & Hr & _ & Hm & ->)
         (ev' & r' & m' & Hev' & _ & Hr' & _ & Hm' & ->).
  rewrite (returns_inj _ _ _ Hev' Hev) in *.
  rewrite (returns_inj _ _ _ Hr' Hr) in *.
  rewrite (returns_inj _ _ _ Hm' Hm). reflexivity.
Qed.

Lemma candidato_de_z (alto_etq ancho_etq : Q) (unidades : Z)
    (ancho_rollo_mm : Q) (alternativo : bool) (z : Z) (s : Solucion) :
  candidato_de alto_etq ancho_etq unidades ancho_rollo_mm alternativo z s ->
  s_z s = z /\ s_ancho_rollo_mm s = ancho_rollo_mm
  /\ s_rollo_alternativo s = alternativo.
Proof.
  intros (ev & r & m & _ & _ & _ & _ & _ & ->). repeat split.
Qed.

Lemma scan_minimo (alto_etq ancho_etq : Q) (unidades : Z)
    (ancho_rollo_mm : Q) (motivo_v : option string) (motivo_h : string)
    (alternativo : bool) (post : list Z) :
  forall pre st,
    StronglySorted (fun a b => (b < a)%Z) (pre ++ post) ->
    mejor_hasta alto_etq ancho_etq unidades ancho_rollo_mm alternativo pre st ->
    safely
      (for_each
         (cuerpo_comun alto_etq ancho_etq unidades ancho_rollo_mm motivo_v
            motivo_h alternativo) post st)
      (mejor_hasta alto_etq ancho_etq unidades ancho_rollo_mm alternativo
         (pre ++ post)).
Proof.
  induction post as [|z post IH]; intros pre st Hsort Hinv; cbn [for_each].
  - rewrite app_nil_r. apply safely_ret, Hinv.
  - pose proof (sorted_desc_prefix pre post z Hsort) as Hpre.
    assert (Hassoc : pre ++ z :: post = (pre ++ [z]) ++ post)
      by (rewrite <- app_assoc; reflexivity).
    rewrite Hassoc in Hsort |- *.
    apply safely_bind, cuerpo_comun_safely.
    + (* the cylinder is too short: it has no candidate *)
      intros ev Hev Hshort. apply IH; [exact Hsort|].
      assert (Hno : forall s', ~ candidato_de alto_etq ancho_etq unidades
                                   ancho_rollo_mm alternativo z s').
      { intros s' (ev' & r & m & Hev' & Hval & _).
        pose proof (safely_returns _ _ ev'
                      (evaluar_z_uniforme_motor z alto_etq) Hev')
          as (_ & Hiff & _).
        apply Hiff in Hval. lra. }
      unfold mejor_hasta in *. rewrite tras_invalido_mejor.
      destruct (mejor st) as [s|].
      * destruct Hinv as (Hin & Hown & Hmin).
        split; [apply in_or_app; left; exact Hin|]. split; [exact Hown|].
        intros z0 s' Hz0 Hc. apply in_app_or in Hz0 as [Hz0 | [<- | []]].
        -- apply Hmin; assumption.
        -- exfalso. exact (Hno s' Hc).
      * intros z0 s' Hz0 Hc. apply in_app_or in Hz0 as [Hz0 | [<- | []]].
        -- exact (Hinv z0 s' Hz0 Hc).
        -- exact (Hno s' Hc).
    + (* no label fits across: it has no candidate *)
      intros ev r Hev Hfit Hr Hetq. apply IH; [exact Hsort|].
      assert (Hno : forall s', ~ candidato_de alto_etq ancho_etq unidades
                                   ancho_rollo_mm alternativo z s').
      { intros s' (ev' & r' & m & _ & _ & Hr' & Hpos & _).
        rewrite (returns_inj _ _ _ Hr' Hr) in Hpos. lia. }
      unfold mejor_hasta in *. rewrite tras_no_cabe_mejor.
      destruct (mejor st) as [s|].
      * destruct Hinv as (Hin & Hown & Hmin).
        split; [apply in_or_app; left; exact Hin|]. split; [exact Hown|].
        intros z0 s' Hz0 Hc. apply in_app_or in Hz0 as [Hz0 | [<- | []]].
        -- apply Hmin; assumption.
        -- exfalso. exact (Hno s' Hc).
      * intros z0 s' Hz0 Hc. apply in_app_or in Hz0 as [Hz0 | [<- | []]].
        -- exact (Hinv z0 s' Hz0 Hc).
        -- exact (Hno s' Hc).
    + (* the candidate of [z] is compared with the best so far *)
      intros ev r m Hev Hfit Hdes Hn Hr Hetq Hw Hm. apply IH; [exact Hsort|].
      set (c := mkSolucion z (ev_n ev) (ev_desarrollo_mm ev) (ev_gap ev)
                  (etq_eje r) (gap_entre r) (ev_n ev * etq_eje r)%Z
                  (repeticiones_reales m) (ml m) (m2 m) ancho_rollo_mm
                  alternativo).
      assert (Hc : candidato_de alto_etq ancho_etq unidades ancho_rollo_mm
                     alternativo z c).
      { exists ev, r, m. repeat split; try assumption.
        pose proof (safely_returns _ _ ev
                      (evaluar_z_uniforme_motor z alto_etq) Hev)
          as (_ & Hiff & _).
        apply Hiff, Hfit. }
      unfold mejor_hasta in *. unfold tras_metraje. fold c.
      destruct (mejor st) as [s|] eqn:Es.
      * destruct Hinv as (Hin & Hown & Hmin).
        unfold mejora. destruct (Qltb (ml m) (s_ml s)) eqn:Emej; cbn [mejor].
        -- apply Qltb_true in Emej.
           split; [apply in_or_app; right; left; reflexivity|].
           split; [exact Hc|].
           intros z0 s' Hz0 Hc'. cbn [s_ml s_z c].
           apply in_app_or in Hz0 as [Hz0 | [<- | []]].
           ++ destruct (Hmin z0 s' Hz0 Hc') as [Hle _].
              split; [lra | intros Heq; exfalso; lra].
           ++ rewrite (candidato_de_unico _ _ _ _ _ _ _ _ Hc' Hc).
              cbn [s_ml c]. split; [lra | intros _; lia].
        -- apply Qltb_false in Emej. rewrite Es.
           split; [apply in_or_app; left; exact Hin|]. split; [exact Hown|].
           intros z0 s' Hz0 Hc'.
           apply in_app_or in Hz0 as [Hz0 | [<- | []]].
           ++ apply Hmin; assumption.
           ++ rewrite (candidato_de_unico _ _ _ _ _ _ _ _ Hc' Hc).
              cbn [s_ml c]. split; [exact Emej|].
              intros _. specialize (Hpre (s_z s) Hin). lia.
      * cbn [mejora mejor].
        split; [apply in_or_app; right; left; reflexivity|].
        split; [exact Hc|].
        intros z0 s' Hz0 Hc'. apply in_app_or in Hz0 as [Hz0 | [<- | []]].
        -- exfalso. exact (Hinv z0 s' Hz0 Hc').
        -- rewrite (candidato_de_unico _ _ _ _ _ _ _ _ Hc' Hc).
           cbn [s_ml s_z c]. split; [lra | intros _; lia].
Qed.

Lemma safely_conj {A : Type} (m : Run A) (P R : A -> Prop) :
  safely m P -> safely m R -> safely m (fun a => P a /\ R a).
Proof.
  intros (a & Ha & Hd & HP) HR. exists a.
  split; [exact Ha|]. split; [exact Hd|].
  split; [exact HP | exact (safely_returns _ _ a HR Ha)].
Qed.

Lemma cabe_en_rollo_dec (ancho_etq w : Q) :
  {cabe_en_rollo ancho_etq w} + {~ cabe_en_rollo ancho_etq w}.
Proof.
  unfold cabe_en_rollo.
  destruct (Qlt_le_dec 0 w) as [H1 | H1];
    [|right; intros (H & _); lra].
  destruct (Qlt_le_dec 0 (ancho_etq + GAP_HORIZONTAL_OBJETIVO)) as [H2 | H2];
    [|right; intros (_ & H & _); lra].
  destruct (Qlt_le_dec w ancho_etq) as [H3 | H3];
    [right; intros (_ & _ & H); lra|].
  left. repeat split; assumption.
Qed.

Lemma evaluar_rollo_estandar_motor_sii (ancho_rollo_mm ancho_etq : Q) :
  safely
    (evaluar_rollo_estandar ancho_rollo_mm ancho_etq GAP_HORIZONTAL_OBJETIVO
       BANDERA_HORIZONTAL)
    (fun r => (0 < etq_eje r)%Z <-> cabe_en_rollo ancho_etq ancho_rollo_mm).
Proof.
  apply evaluar_rollo_estandar_cabe_sii; [reflexivity | discriminate].
Qed.

(** Once the widest cylinder is recorded as fallback, a scan on a roll the
    label does not fit leaves the state as it is. *)
Lemma scan_no_cabe (alto_etq ancho_etq : Q) (unidades : Z)
    (ancho_rollo_mm : Q) (motivo_v : option string) (motivo_h : string)
    (alternativo : bool) (r : EvaluacionRollo) (l : list Z) :
  returns
    (evaluar_rollo_estandar ancho_rollo_mm ancho_etq GAP_HORIZONTAL_OBJETIVO
       BANDERA_HORIZONTAL) r ->
  (etq_eje r <= 0)%Z ->
  forall st,
    mejor st = None /\ fallback st = Some 168%Z /\ motivo st = Some motivo_h ->
    safely
      (for_each
         (cuerpo_comun alto_etq ancho_etq unidades ancho_rollo_mm motivo_v
            motivo_h alternativo) l st)
      (fun st' =>
         mejor st' = None /\ fallback st' = Some 168%Z
         /\ motivo st' = Some motivo_h).
Proof.
  intros Hr Hle. apply for_each_safely. intros st z _ (Hm & Hf & Hmo).
  apply cuerpo_comun_safely.
  - intros ev _ _. unfold tras_invalido. rewrite Hmo.
    destruct motivo_v; repeat split; assumption.
  - intros ev r' _ _ _ _. unfold tras_no_cabe. rewrite Hf.
    repeat split; assumption.
  - intros ev r' m _ _ _ _ Hr' Hpos. exfalso.
    rewrite (returns_inj _ _ _ Hr' Hr) in Hpos. lia.
Qed.

Lemma CILINDROS_FB_cabeza : exists l, CILINDROS_FB = 168%Z :: l.
Proof. eexists. vm_compute. reflexivity. Qed.

(** What one scan of the catalog leaves. *)
Lemma pasada_resumen (alto_etq ancho_etq : Q) (unidades : Z)
    (ancho_rollo_mm : Q) (motivo_v : option string) (motivo_h : string)
    (alternativo : bool) :
  safely
    (for_each
       (cuerpo_comun alto_etq ancho_etq unidades ancho_rollo_mm motivo_v
          motivo_h alternativo) CILINDROS_FB (mkEstado None None None))
    (fun st =>
       mejor_hasta alto_etq ancho_etq unidades ancho_rollo_mm alternativo
         CILINDROS_FB st
       /\ (168 * FACTOR_CILINDRO_A_MM < alto_etq ->
           mejor st = None /\ fallback st = None)
       /\ (alto_etq <= 168 * FACTOR_CILINDRO_A_MM ->
           cabe_en_rollo ancho_etq ancho_rollo_mm -> mejor st <> None)
       /\ (alto_etq <= 168 * FACTOR_CILINDRO_A_MM ->
           ~ cabe_en_rollo ancho_etq ancho_rollo_mm ->
           mejor st = None /\ fallback st = Some 168%Z
           /\ motivo st = Some motivo_h)).
Proof.
  assert (Hmin :
    safely
      (for_each
         (cuerpo_comun alto_etq ancho_etq unidades ancho_rollo_mm motivo_v
            motivo_h alternativo) CILINDROS_FB (mkEstado None None None))
      (mejor_hasta alto_etq ancho_etq unidades ancho_rollo_mm alternativo
         CILINDROS_FB)).
  { apply (scan_minimo alto_etq ancho_etq unidades ancho_rollo_mm motivo_v
             motivo_h alternativo CILINDROS_FB [] (mkEstado None None None)).
    - exact (proj2 CILINDROS_FB_sorted).
    - intros z s' []. }
  destruct (cilindro_mayor alto_etq) as [_ Hnocabe].
  destruct (Qlt_le_dec (168 * FACTOR_CILINDRO_A_MM) alto_etq) as [Halto | Halto].
  - apply (safely_mono _ _ _
             (safely_conj _ _ _ Hmin
                (scan_sin_cilindro alto_etq ancho_etq unidades ancho_rollo_mm
                   motivo_v motivo_h alternativo CILINDROS_FB (Hnocabe Halto)
                   (mkEstado None None None) (conj eq_refl eq_refl)))).
    intros st [H1 H2]. split; [exact H1|]. split; [intros _; exact H2|].
    split; intros; exfalso; lra.
  - destruct (evaluar_z_uniforme_motor 168 alto_etq)
      as (ev & Hev & _ & Hdes & Hval & Hn).
    destruct (evaluar_rollo_estandar_motor_sii ancho_rollo_mm ancho_etq)
      as (r & Hr & _ & Hiff).
    destruct (cabe_en_rollo_dec ancho_etq ancho_rollo_mm) as [Hc | Hc].
    + apply (safely_mono _ _ _ Hmin). intros st H1.
      split; [exact H1|]. split; [intros; exfalso; lra|].
      split; [|intros _ Hno; contradiction].
      intros _ _ Hnone. unfold mejor_hasta in H1. rewrite Hnone in H1.
      destruct (calcular_metraje_material_total unidades
                  (ev_n ev * etq_eje r) (ev_desarrollo_mm ev) ancho_rollo_mm
                  AJUSTE_DESARROLLO_REP_MM) as (m & Hm & _).
      apply (H1 168%Z
               (mkSolucion 168 (ev_n ev) (ev_desarrollo_mm ev) (ev_gap ev)
                  (etq_eje r) (gap_entre r) (ev_n ev * etq_eje r)%Z
                  (repeticiones_reales m) (ml m) (m2 m) ancho_rollo_mm
                  alternativo)).
      * destruct CILINDROS_FB_cabeza as (l & ->). left. reflexivity.
      * exists ev, r, m. repeat split; try assumption.
        -- apply Hval. exact Halto.
        -- apply Hiff. exact Hc.
    + assert (Hle : (etq_eje r <= 0)%Z).
      { destruct (Z_lt_le_dec 0 (etq_eje r)) as [Hpos | Hle]; [|exact Hle].
        exfalso. apply Hc, Hiff, Hpos. }
      assert (Hscan :
        safely
          (for_each
             (cuerpo_comun alto_etq ancho_etq unidades ancho_rollo_mm
                motivo_v motivo_h alternativo) CILINDROS_FB
             (mkEstado None None None))
          (fun st =>
             mejor st = None /\ fallback st = Some 168%Z
             /\ motivo st = Some motivo_h)).
      { destruct CILINDROS_FB_cabeza as (l & ->). cbn [for_each].
        apply safely_bind, cuerpo_comun_safely.
        - intros ev' _ Hshort. exfalso.
          change (inject_Z 168) with 168 in Hshort. lra.
        - intros ev' r' _ _ _ _.
          apply (scan_no_cabe _ _ _ _ _ _ _ r l Hr Hle).
          unfold tras_no_cabe. cbn [fallback mejor motivo].
          repeat split.
        - intros ev' r' m _ _ _ _ Hr' Hpos. exfalso.
          rewrite (returns_inj _ _ _ Hr' Hr) in Hpos. lia. }
      apply (safely_mono _ _ _ (safely_conj _ _ _ Hmin Hscan)).
      intros st [H1 H2]. split; [exact H1|].
      split; [intros; exfalso; lra|].
      split; [intros _ Hyes; contradiction | intros _ _; exact H2].
Qed.

(** The five ways the selector ends, with what it returns in each. *)
Lemma obtener_z_sugerido_resumen (alto_etq ancho_etq : Q) (unidades : Z)
    (ancho_rollo_mm : option Q) (w : Q) :
  w = match ancho_rollo_mm with
      | Some w0 => w0
      | None => ROLLO_BASE_MM
      end ->
  safely (obtener_z_sugerido alto_etq ancho_etq unidades ancho_rollo_mm)
    (fun res =>
       (168 * FACTOR_CILINDRO_A_MM < alto_etq /\ res = None)
       \/ (alto_etq <= 168 * FACTOR_CILINDRO_A_MM
           /\ cabe_en_rollo ancho_etq w
           /\ exists s,
                res = Some (Valido s)
                /\ minimo_del_catalogo alto_etq ancho_etq unidades w false
                     CILINDROS_FB s)
       \/ (alto_etq <= 168 * FACTOR_CILINDRO_A_MM
           /\ ~ cabe_en_rollo ancho_etq w
           /\ ~ w == ROLLO_BASE_MM
           /\ cabe_en_rollo ancho_etq ROLLO_BASE_MM
           /\ exists s,
                res = Some (Valido s)
                /\ minimo_del_catalogo alto_etq ancho_etq unidades
                     ROLLO_BASE_MM true CILINDROS_FB s)
       \/ (alto_etq <= 168 * FACTOR_CILINDRO_A_MM
           /\ ~ cabe_en_rollo ancho_etq w
           /\ ~ w == ROLLO_BASE_MM
           /\ ~ cabe_en_rollo ancho_etq ROLLO_BASE_MM
           /\ res = Some (NoValido
                            (mkImposibilidad 168 ROLLO_BASE_MM
                               (Some (motivo_ancho_330 ancho_etq)) 0)))
       \/ (alto_etq <= 168 * FACTOR_CILINDRO_A_MM
           /\ ~ cabe_en_rollo ancho_etq w
           /\ w == ROLLO_BASE_MM
           /\ res = Some (NoValido
                            (mkImposibilidad 168 w
                               (Some (motivo_ancho ancho_etq w)) 0)))).
Proof.
  intros ->. unfold obtener_z_sugerido. cbv zeta.
  set (w := match ancho_rollo_mm with
            | Some w0 => w0
            | None => ROLLO_BASE_MM
            end).
  unfold primera_pasada, segunda_pasada.
  change (cuerpo_primera alto_etq ancho_etq unidades w)
    with (cuerpo_comun alto_etq ancho_etq unidades w
            (Some (motivo_alto alto_etq)) (motivo_ancho ancho_etq w) false).
  change (cuerpo_segunda alto_etq ancho_etq unidades)
    with (cuerpo_comun alto_etq ancho_etq unidades ROLLO_BASE_MM None
            (motivo_ancho_330 ancho_etq) true).
  apply safely_bind.
  apply (safely_mono _ _ _
           (pasada_resumen alto_etq ancho_etq unidades w
              (Some (motivo_alto alto_etq)) (motivo_ancho ancho_etq w) false)).
  intros st (Hmin & Hhigh & Hfit & Hnofit).
  destruct (Qlt_le_dec (168 * FACTOR_CILINDRO_A_MM) alto_etq) as [Halto | Halto].
  - destruct (Hhigh Halto) as [Hm Hf]. rewrite Hm.
    assert (Hfin : retorno_final st w = None)
      by (unfold retorno_final; rewrite Hf; reflexivity).
    destruct (negb (Qeq_bool w ROLLO_BASE_MM)).
    + apply safely_bind.
      apply (safely_mono _ _ _
               (pasada_resumen alto_etq ancho_etq unidades ROLLO_BASE_MM
                  None (motivo_ancho_330 ancho_etq) true)).
      intros st' (_ & Hhigh' & _). destruct (Hhigh' Halto) as [Hm' Hf'].
      rewrite Hm', Hf'. apply safely_ret. left. split; assumption.
    + apply safely_ret. left. split; assumption.
  - destruct (cabe_en_rollo_dec ancho_etq w) as [Hc | Hc].
    + destruct (mejor st) as [s|] eqn:Es;
        [|exfalso; exact (Hfit Halto Hc eq_refl)].
      apply safely_ret. right. left.
      split; [exact Halto|]. split; [exact Hc|].
      exists s. split; [reflexivity|].
      unfold mejor_hasta in Hmin. rewrite Es in Hmin. exact Hmin.
    + destruct (Hnofit Halto Hc) as (Hm & Hf & Hmo). rewrite Hm.
      assert (Hfin : retorno_final st w
                     = Some (NoValido
                               (mkImposibilidad 168 w
                                  (Some (motivo_ancho ancho_etq w)) 0))).
      { unfold retorno_final. rewrite Hf, Hmo.
        rewrite (verdadero_no_vacio _ (motivo_ancho_no_vacio ancho_etq w)).
        reflexivity. }
      destruct (Qeq_bool w ROLLO_BASE_MM) eqn:Eq; cbn [negb].
      * apply Qeq_bool_iff in Eq. apply safely_ret.
        right. right. right. right. repeat split; assumption.
      * apply Qeq_bool_neq in Eq. apply safely_bind.
        apply (safely_mono _ _ _
                 (pasada_resumen alto_etq ancho_etq unidades ROLLO_BASE_MM
                    None (motivo_ancho_330 ancho_etq) true)).
        intros st' (Hmin' & _ & Hfit' & Hnofit').
        destruct (cabe_en_rollo_dec ancho_etq ROLLO_BASE_MM) as [Hc' | Hc'].
        -- destruct (mejor st') as [s|] eqn:Es;
             [|exfalso; exact (Hfit' Halto Hc' eq_refl)].
           apply safely_ret. right. right. left.
           repeat (split; [assumption|]).
           exists s. split; [reflexivity|].
           unfold mejor_hasta in Hmin'. rewrite Es in Hmin'. exact Hmin'.
        -- destruct (Hnofit' Halto Hc') as (Hm' & Hf' & Hmo').
           rewrite Hm', Hf', Hmo'. apply safely_ret.
           right. right. right. left. repeat split; assumption.
Qed.

(** C1 (amended). For every label, quantity and optional roll width the
    selector returns without raising.  When the label height fits around
    the largest cylinder (height <= 168 * 3.175 mm) it returns a valid
    configuration or an [Imposibilidad]; the [Imposibilidad] names cylinder
    168, a gap of 0 and a reason that is not empty, which is the horizontal
    reason of the pass that failed last: with the 330 mm roll preferred,
    that roll and the reason of the first pass; with another roll preferred,
    the 330 mm roll and the reason of the second pass.  When the height
    fits around no cylinder it returns nothing ([None]), whatever the roll
    width. *)
Theorem obtener_z_sugerido_resultado (alto_etq ancho_etq : Q) (unidades : Z)
    (ancho_rollo_mm : option Q) :
  let w := match ancho_rollo_mm with
           | Some w0 => w0
           | None => ROLLO_BASE_MM
           end in
  safely (obtener_z_sugerido alto_etq ancho_etq unidades ancho_rollo_mm)
    (fun res =>
       (alto_etq <= 168 * FACTOR_CILINDRO_A_MM ->
        exists o, res = Some o
                  /\ match o with
                     | Valido _ => True
                     | NoValido i =>
                         (exists s, i_motivo_imposibilidad i = Some s
                                    /\ s <> EmptyString)
                         /\ i_z i = 168%Z
                         /\ i_gap_horizontal_real i = 0
                         /\ (w == ROLLO_BASE_MM ->
                             i_ancho_rollo_mm i = w
                             /\ i_motivo_imposibilidad i
                                = Some (motivo_ancho ancho_etq w))
                         /\ (~ w == ROLLO_BASE_MM ->
                             i_ancho_rollo_mm i = ROLLO_BASE_MM
                             /\ i_motivo_imposibilidad i
                                = Some (motivo_ancho_330 ancho_etq))
                     end)
       /\ (168 * FACTOR_CILINDRO_A_MM < alto_etq -> res = None)).
Proof.
  intros w.
  apply (safely_mono _ _ _
           (obtener_z_sugerido_resumen alto_etq ancho_etq unidades
              ancho_rollo_mm w eq_refl)).
  intros res H.
  destruct H as [(Ha & ->) | [(Ha & Hc & s & -> & Hmin)
                 | [(Ha & Hc & Hw & Hc' & s & -> & Hmin)
                 | [(Ha & Hc & Hw & Hc' & ->) | (Ha & Hc & Hw & ->)]]]].
  - split; [intros H; exfalso; lra | reflexivity].
  - split; [|intros H; exfalso; lra].
    intros _. exists (Valido s). split; [reflexivity | exact I].
  - split; [|intros H; exfalso; lra].
    intros _. exists (Valido s). split; [reflexivity | exact I].
  - split; [|intros H; exfalso; lra].
    intros _. eexists. split; [reflexivity|].
    cbn [i_motivo_imposibilidad i_z i_gap_horizontal_real i_ancho_rollo_mm].
    split; [exists (motivo_ancho_330 ancho_etq);
            split; [reflexivity | apply motivo_ancho_330_no_vacio]|].
    split; [reflexivity|]. split; [reflexivity|].
    split; [intros Heq; contradiction | intros _; split; reflexivity].
  - split; [|intros H; exfalso; lra].
    intros _. eexists. split; [reflexivity|].
    cbn [i_motivo_imposibilidad i_z i_gap_horizontal_real i_ancho_rollo_mm].
    split; [exists (motivo_ancho ancho_etq w);
            split; [reflexivity | apply motivo_ancho_no_vacio]|].
    split; [reflexivity|]. split; [reflexivity|].
    split; [intros _; split; reflexivity | intros Hne; contradiction].
Qed.

Lemma obtener_z_sugerido_es_minimo (alto_etq ancho_etq : Q) (unidades : Z)
    (ancho_rollo_mm : option Q) :
  safely (obtener_z_sugerido alto_etq ancho_etq unidades ancho_rollo_mm)
    (fun res =>
       forall s,
         res = Some (Valido s) ->
         minimo_del_catalogo alto_etq ancho_etq unidades
           (s_ancho_rollo_mm s) (s_rollo_alternativo s) CILINDROS_FB s).
Proof.
  apply (safely_mono _ _ _
           (obtener_z_sugerido_resumen alto_etq ancho_etq unidades
              ancho_rollo_mm _ eq_refl)).
  intros res H s Hs.
  destruct H as [(_ & ->) | [(_ & _ & s0 & -> & Hmin)
                 | [(_ & _ & _ & _ & s0 & -> & Hmin)
                 | [(_ & _ & _ & _ & ->) | (_ & _ & _ & ->)]]]];
    try discriminate; injection Hs as ->;
    destruct (candidato_de_z _ _ _ _ _ _ _ (proj1 (proj2 Hmin)))
      as (_ & -> & ->); exact Hmin.
Qed.

(** X5. The result of the selector by cases.  A label higher than the largest
    circumference (168 x 3.175 mm) gets nothing.  Otherwise: a label that
    fits the preferred roll gets a configuration on it; one that does not,
    with a preferred roll other than 330 mm, gets a configuration on the
    330 mm roll, flagged as alternative, when it fits that roll, and else
    the infeasibility record of cylinder 168 on the 330 mm roll; and with
    the 330 mm roll preferred, the infeasibility record of cylinder 168 on
    that roll.  Both records carry a gap of 0 and the text of the width
    reason. *)
Theorem obtener_z_sugerido_casos (alto_etq ancho_etq : Q) (unidades : Z)
    (ancho_rollo_mm : option Q) :
  let w := match ancho_rollo_mm with
           | Some w0 => w0
           | None => ROLLO_BASE_MM
           end in
  safely (obtener_z_sugerido alto_etq ancho_etq unidades ancho_rollo_mm)
    (fun res =>
       (168 * FACTOR_CILINDRO_A_MM < alto_etq -> res = None)
       /\ (alto_etq <= 168 * FACTOR_CILINDRO_A_MM ->
           cabe_en_rollo ancho_etq w ->
           exists s, res = Some (Valido s)
                     /\ s_ancho_rollo_mm s = w
                     /\ s_rollo_alternativo s = false)
       /\ (alto_etq <= 168 * FACTOR_CILINDRO_A_MM ->
           ~ cabe_en_rollo ancho_etq w ->
           ~ w == ROLLO_BASE_MM ->
           cabe_en_rollo ancho_etq ROLLO_BASE_MM ->
           exists s, res = Some (Valido s)
                     /\ s_ancho_rollo_mm s = ROLLO_BASE_MM
                     /\ s_rollo_alternativo s = true)
       /\ (alto_etq <= 168 * FACTOR_CILINDRO_A_MM ->
           ~ cabe_en_rollo ancho_etq w ->
           ~ w == ROLLO_BASE_MM ->
           ~ cabe_en_rollo ancho_etq ROLLO_BASE_MM ->
           res = Some (NoValido
                         (mkImposibilidad 168 ROLLO_BASE_MM
                            (Some (motivo_ancho_330 ancho_etq)) 0)))
       /\ (alto_etq <= 168 * FACTOR_CILINDRO_A_MM ->
           ~ cabe_en_rollo ancho_etq w ->
           w == ROLLO_BASE_MM ->
           res = Some (NoValido
                         (mkImposibilidad 168 w
                            (Some (motivo_ancho ancho_etq w)) 0)))).
Proof.
  intros w.
  apply (safely_mono _ _ _
           (obtener_z_sugerido_resumen alto_etq ancho_etq unidades
              ancho_rollo_mm w eq_refl)).
  intros res H.
  destruct H as [(Ha & ->) | [(Ha & Hc & s & -> & Hmin)
                 | [(Ha & Hc & Hw & Hc' & s & -> & Hmin)
                 | [(Ha & Hc & Hw & Hc' & ->) | (Ha & Hc & Hw & ->)]]]].
  - split; [reflexivity|].
    repeat split; intros; exfalso; lra.
  - destruct (candidato_de_z _ _ _ _ _ _ _ (proj1 (proj2 Hmin)))
      as (_ & Ew & Eb).
    split; [intros; exfalso; lra|].
    split; [intros _ _; exists s; repeat split; assumption|].
    repeat split; intros; contradiction.
  - destruct (candidato_de_z _ _ _ _ _ _ _ (proj1 (proj2 Hmin)))
      as (_ & Ew & Eb).
    split; [intros; exfalso; lra|].
    split; [intros; contradiction|].
    split; [intros _ _ _ _; exists s; repeat split; assumption|].
    split; intros; contradiction.
  - split; [intros; exfalso; lra|].
    split; [intros; contradiction|].
    split; [intros; contradiction|].
    split; [reflexivity | intros; contradiction].
  - split; [intros; exfalso; lra|].
    split; [intros; contradiction|].
    split; [intros; contradiction|].
    split; [intros; contradiction | reflexivity].
Qed.

(** ** What a candidate holds *)

Lemma candidato_de_partes (alto_etq ancho_etq : Q) (unidades : Z)
    (ancho_rollo_mm : Q) (alternativo : bool) (z : Z) (s : Solucion) :
  In z CILINDROS_FB ->
  candidato_de alto_etq ancho_etq unidades ancho_rollo_mm alternativo z s ->
  exists ev r,
    returns
      (evaluar_z_uniforme z alto_etq GAP_VERTICAL_OBJETIVO GAP_VERTICAL_MIN
         GAP_VERTICAL_MAX MAX_REPETICIONES_VERTICALES) ev
    /\ returns
         (evaluar_rollo_estandar ancho_rollo_mm ancho_etq
            GAP_HORIZONTAL_OBJETIVO BANDERA_HORIZONTAL) r
    /\ ev_valido ev = true
    /\ alto_etq <= inject_Z z * FACTOR_CILINDRO_A_MM
    /\ cabe_en_rollo ancho_etq ancho_rollo_mm
    /\ (1 <= ev_n ev)%Z /\ (1 <= etq_eje r)%Z
    /\ ev_desarrollo_mm ev = inject_Z z * FACTOR_CILINDRO_A_MM
    /\ s = mkSolucion z (ev_n ev) (ev_desarrollo_mm ev) (ev_gap ev)
             (etq_eje r) (gap_entre r) (ev_n ev * etq_eje r)%Z
             (inject_Z unidades / inject_Z (ev_n ev * etq_eje r))
             ((inject_Z unidades / inject_Z (ev_n ev * etq_eje r)
               * ev_desarrollo_mm ev
               + inject_Z unidades / inject_Z (ev_n ev * etq_eje r)
                 * AJUSTE_DESARROLLO_REP_MM) / 1000)
             ((inject_Z unidades / inject_Z (ev_n ev * etq_eje r)
               * ev_desarrollo_mm ev
               + inject_Z unidades / inject_Z (ev_n ev * etq_eje r)
                 * AJUSTE_DESARROLLO_REP_MM) / 1000
              * (ancho_rollo_mm / 1000))
             ancho_rollo_mm alternativo.
Proof.
  intros Hz (ev & r & m & Hev & Hval & Hr & Hpos & Hm & ->).
  apply CILINDROS_FB_bounds in Hz.
  pose proof (safely_returns _ _ ev (evaluar_z_uniforme_motor z alto_etq) Hev)
    as (Hdes & Hiff & Hn).
  pose proof (safely_returns _ _ r
                (evaluar_rollo_estandar_motor_sii ancho_rollo_mm ancho_etq) Hr)
    as Hcabe.
  assert (Hc : cabe_en_rollo ancho_etq ancho_rollo_mm) by (apply Hcabe, Hpos).
  specialize (Hn Hval).
  assert (Hd : 0 < ev_desarrollo_mm ev).
  { rewrite Hdes.
    assert (H60 : 60 <= inject_Z z)
      by (change 60 with (inject_Z 60); rewrite <- Zle_Qle; lia).
    unfold FACTOR_CILINDRO_A_MM.
    assert (Hf : 0 < 3175 # 1000) by reflexivity. nra. }
  rewrite (calcular_metraje_material_run unidades (ev_n ev * etq_eje r)
             (ev_desarrollo_mm ev) ancho_rollo_mm AJUSTE_DESARROLLO_REP_MM)
    in Hm by (try lia; try assumption; exact (proj1 Hc)).
  unfold returns in Hm. cbn [value] in Hm. injection Hm as <-.
  exists ev, r. cbn [repeticiones_reales ml m2].
  split; [exact Hev|]. split; [exact Hr|]. split; [exact Hval|].
  split; [apply Hiff, Hval|]. split; [exact Hc|].
  split; [exact Hn|]. split; [lia|]. split; [exact Hdes | reflexivity].
Qed.

(** The label count across times the label width is covered by the roll. *)
Lemma evaluar_rollo_estandar_dentro (ancho_rollo_mm ancho_etq : Q)
    (r : EvaluacionRollo) :
  returns
    (evaluar_rollo_estandar ancho_rollo_mm ancho_etq GAP_HORIZONTAL_OBJETIVO
       BANDERA_HORIZONTAL) r ->
  cabe_en_rollo ancho_etq ancho_rollo_mm ->
  inject_Z (etq_eje r) * ancho_etq <= ancho_rollo_mm.
Proof.
  intros Hr (Hw & Hp & Hfit).
  pose proof (safely_returns _ _ r
                (evaluar_rollo_estandar_run ancho_rollo_mm ancho_etq
                   GAP_HORIZONTAL_OBJETIVO BANDERA_HORIZONTAL Hw Hp) Hr)
    as (u & k & Hu & Hsel & _).
  pose proof (safely_returns _ _ r
                (evaluar_rollo_estandar_bounds ancho_rollo_mm ancho_etq
                   GAP_HORIZONTAL_OBJETIVO BANDERA_HORIZONTAL Hw Hp) Hr)
    as (u' & k' & Hu' & H0u & H0k & Hkp & Hres).
  rewrite Hu in Hu'. injection Hu' as <-.
  assert (Hule : u <= ancho_rollo_mm).
  { destruct Hsel as [(_ & Eu & _) | (_ & Eu & _)]; subst u; [|lra].
    destruct (py_max_cases 0 (ancho_rollo_mm - BANDERA_HORIZONTAL))
      as [[H E] | [H E]]; rewrite E; unfold BANDERA_HORIZONTAL in *; lra. }
  destruct Hres as [(_ & Hin & He) | (_ & He)]; rewrite He.
  - change (inject_Z 1) with 1. lra.
  - pose proof (inject_Z_nonneg k' H0k) as Hk.
    assert (Hg : 0 < GAP_HORIZONTAL_OBJETIVO) by reflexivity.
    nra.
Qed.

(** X6. A configuration the selector returns is consistent: its cylinder is of
    the catalog, the circumference is the cylinder times 3.175, between 1
    and 8 labels go around and fit in the circumference, the vertical gap
    is at least 2.5 and, with two or more labels around, at most 20 and
    exactly what is left per label; at least one label goes across and
    the labels across fit in the roll; the labels per revolution are the
    product of the two counts, the revolutions are the quantity over them,
    and linear meters and area follow from the revolutions. *)
Theorem obtener_z_sugerido_coherente (alto_etq ancho_etq : Q) (unidades : Z)
    (ancho_rollo_mm : option Q) :
  safely (obtener_z_sugerido alto_etq ancho_etq unidades ancho_rollo_mm)
    (fun res =>
       forall s,
         res = Some (Valido s) ->
         In (s_z s) CILINDROS_FB
         /\ s_desarrollo_mm s = inject_Z (s_z s) * FACTOR_CILINDRO_A_MM
         /\ (1 <= s_n s <= MAX_REPETICIONES_VERTICALES)%Z
         /\ inject_Z (s_n s) * alto_etq <= s_desarrollo_mm s
         /\ GAP_VERTICAL_MIN <= s_gap_vertical s
         /\ ((1 < s_n s)%Z ->
             s_gap_vertical s <= GAP_VERTICAL_MAX
             /\ inject_Z (s_n s) * (alto_etq + s_gap_vertical s)
                == s_desarrollo_mm s)
         /\ (1 <= s_etq_eje s)%Z
         /\ inject_Z (s_etq_eje s) * ancho_etq <= s_ancho_rollo_mm s
         /\ s_etq_repeat s = (s_n s * s_etq_eje s)%Z
         /\ s_repeticiones s
            == inject_Z unidades / inject_Z (s_etq_repeat s)
         /\ s_ml s
            == s_repeticiones s
               * (s_desarrollo_mm s + AJUSTE_DESARROLLO_REP_MM) / 1000
         /\ s_m2 s == s_ml s * s_ancho_rollo_mm s / 1000).
Proof.
  apply (safely_mono _ _ _
           (obtener_z_sugerido_resumen alto_etq ancho_etq unidades
              ancho_rollo_mm _ eq_refl)).
  intros res H s Hs.
  assert (Hmin : exists w b,
            minimo_del_catalogo alto_etq ancho_etq unidades w b
              CILINDROS_FB s).
  { destruct H as [(_ & ->) | [(_ & _ & s0 & -> & Hmin)
                   | [(_ & _ & _ & _ & s0 & -> & Hmin)
                   | [(_ & _ & _ & _ & ->) | (_ & _ & _ & ->)]]]];
      try discriminate; injection Hs as ->; eexists; eexists; exact Hmin. }
  clear H Hs. destruct Hmin as (w & b & Hin & Hc & _).
  destruct (candidato_de_partes _ _ _ _ _ _ _ Hin Hc)
    as (ev & r & Hev & Hr & _ & Hfit & Hcabe & Hn & He & Hdes & Es).
  pose proof (evaluar_rollo_estandar_dentro w ancho_etq r Hr Hcabe) as Hdentro.
  pose proof (safely_returns _ _ ev
                (evaluar_z_uniforme_spec (s_z s) alto_etq
                   GAP_VERTICAL_OBJETIVO GAP_VERTICAL_MIN GAP_VERTICAL_MAX
                   MAX_REPETICIONES_VERTICALES Hfit) Hev)
    as (_ & _ & Hsp).
  destruct Hsp as [(_ & _ & Hfac & Hgap & _) | (_ & _ & Hn0 & _)]; [|lia].
  destruct Hfac as (Hrange & Hcov & Hg0 & Hgr).
  assert (Hnq : 1 <= inject_Z (ev_n ev)) by (apply inject_Z_ge1; lia).
  assert (Heq : 1 <= inject_Z (etq_eje r)) by (apply inject_Z_ge1; lia).
  split; [exact Hin|].
  rewrite Es. cbn [s_z s_n s_desarrollo_mm s_gap_vertical s_etq_eje
                     s_etq_repeat s_repeticiones s_ml s_m2 s_ancho_rollo_mm].
  split; [rewrite Es in Hdes; exact Hdes|].
  split; [exact Hrange|]. split; [exact Hcov|].
  split; [|split; [|split; [exact He|split; [exact Hdentro|
          split; [reflexivity|split; [reflexivity|split]]]]]].
  - rewrite Hgap. unfold gap_reportado.
    destruct (ev_n ev =? 1)%Z eqn:E1.
    + destruct (py_max_cases
                  (gap_de (ev_desarrollo_mm ev) alto_etq (ev_n ev))
                  GAP_VERTICAL_MIN) as [[Hc1 E] | [Hc1 E]]; rewrite E; lra.
    + apply Z.eqb_neq in E1. apply Hgr. lia.
  - intros Hn1. rewrite Hgap. unfold gap_reportado.
    destruct (ev_n ev =? 1)%Z eqn:E1; [apply Z.eqb_eq in E1; lia|].
    split; [apply Hgr, Hn1|]. unfold gap_de. field. lra.
  - field. rewrite inject_Z_mult. nra.
  - field. rewrite inject_Z_mult. nra.
Qed.

(** ** The cylinder does not depend on the quantity or on the widths *)

Lemma candidato_de_existe (alto_etq ancho_etq : Q) (unidades : Z)
    (ancho_rollo_mm : Q) (alternativo : bool) (z : Z)
    (ev : EvaluacionZUniforme) (r : EvaluacionRollo) :
  returns
    (evaluar_z_uniforme z alto_etq GAP_VERTICAL_OBJETIVO GAP_VERTICAL_MIN
       GAP_VERTICAL_MAX MAX_REPETICIONES_VERTICALES) ev ->
  ev_valido ev = true ->
  returns
    (evaluar_rollo_estandar ancho_rollo_mm ancho_etq GAP_HORIZONTAL_OBJETIVO
       BANDERA_HORIZONTAL) r ->
  (0 < etq_eje r)%Z ->
  exists s,
    candidato_de alto_etq ancho_etq unidades ancho_rollo_mm alternativo z s.
Proof.
  intros Hev Hval Hr Hpos.
  destruct (calcular_metraje_material_total unidades (ev_n ev * etq_eje r)
              (ev_desarrollo_mm ev) ancho_rollo_mm AJUSTE_DESARROLLO_REP_MM)
    as (m & Hm & _).
  eexists. exists ev, r, m. repeat split; eassumption.
Qed.

(** The linear meters of a candidate: a factor that depends on the quantity
    and on the count across, times the length of one revolution per label
    around. *)
Lemma candidato_de_ml (alto_etq ancho_etq : Q) (unidades : Z)
    (ancho_rollo_mm : Q) (alternativo : bool) (z : Z) (s : Solucion)
    (ev : EvaluacionZUniforme) (r : EvaluacionRollo) :
  In z CILINDROS_FB ->
  candidato_de alto_etq ancho_etq unidades ancho_rollo_mm alternativo z s ->
  returns
    (evaluar_z_uniforme z alto_etq GAP_VERTICAL_OBJETIVO GAP_VERTICAL_MIN
       GAP_VERTICAL_MAX MAX_REPETICIONES_VERTICALES) ev ->
  returns
    (evaluar_rollo_estandar ancho_rollo_mm ancho_etq GAP_HORIZONTAL_OBJETIVO
       BANDERA_HORIZONTAL) r ->
  s_ml s
  == inject_Z unidades / inject_Z (etq_eje r) / 1000
     * ((ev_desarrollo_mm ev + AJUSTE_DESARROLLO_REP_MM) / inject_Z (ev_n ev))
  /\ s_n s = ev_n ev
  /\ s_desarrollo_mm s = ev_desarrollo_mm ev
  /\ s_gap_vertical s = ev_gap ev.
Proof.
  intros Hz Hc Hev Hr.
  destruct (candidato_de_partes _ _ _ _ _ _ _ Hz Hc)
    as (ev' & r' & Hev' & Hr' & _ & _ & _ & Hn & He & _ & ->).
  rewrite (returns_inj _ _ _ Hev' Hev) in *.
  rewrite (returns_inj _ _ _ Hr' Hr) in *.
  cbn [s_ml s_n s_desarrollo_mm s_gap_vertical].
  split; [|repeat split].
  assert (Hnq : 1 <= inject_Z (ev_n ev)) by (apply inject_Z_ge1; lia).
  assert (Heq : 1 <= inject_Z (etq_eje r)) by (apply inject_Z_ge1; lia).
  rewrite inject_Z_mult. field. split; lra.
Qed.

(** X7. For a quantity of at least one label, the cylinder, the labels around
    it, the circumference and the vertical gap of the configuration
    returned depend on the label height alone: two runs for the same height
    that both return a configuration agree on them, whatever the label
    widths, the quantities and the roll widths. *)
Theorem obtener_z_sugerido_cilindro (alto_etq ancho1 ancho2 : Q)
    (u1 u2 : Z) (w1 w2 : option Q) (s1 s2 : Solucion) :
  (1 <= u1)%Z -> (1 <= u2)%Z ->
  returns (obtener_z_sugerido alto_etq ancho1 u1 w1) (Some (Valido s1)) ->
  returns (obtener_z_sugerido alto_etq ancho2 u2 w2) (Some (Valido s2)) ->
  s_z s1 = s_z s2 /\ s_n s1 = s_n s2
  /\ s_desarrollo_mm s1 = s_desarrollo_mm s2
  /\ s_gap_vertical s1 = s_gap_vertical s2.
Proof.
  intros Hu1 Hu2 H1 H2.
  pose proof (safely_returns _ _ _
                (obtener_z_sugerido_es_minimo alto_etq ancho1 u1 w1) H1
                s1 eq_refl) as (Hin1 & Hc1 & Hall1).
  pose proof (safely_returns _ _ _
                (obtener_z_sugerido_es_minimo alto_etq ancho2 u2 w2) H2
                s2 eq_refl) as (Hin2 & Hc2 & Hall2).
  destruct (candidato_de_partes _ _ _ _ _ _ _ Hin1 Hc1)
    as (ev1 & r1 & Hev1 & Hr1 & Hval1 & _ & _ & Hn1 & He1 & Hd1 & _).
  destruct (candidato_de_partes _ _ _ _ _ _ _ Hin2 Hc2)
    as (ev2 & r2 & Hev2 & Hr2 & Hval2 & _ & _ & Hn2 & He2 & Hd2 & _).
  (* the cylinder of each run is a candidate of the other *)
  destruct (candidato_de_existe alto_etq ancho1 u1 (s_ancho_rollo_mm s1)
              (s_rollo_alternativo s1) (s_z s2) ev2 r1 Hev2 Hval2 Hr1
              ltac:(lia)) as (s21 & Hc21).
  destruct (candidato_de_existe alto_etq ancho2 u2 (s_ancho_rollo_mm s2)
              (s_rollo_alternativo s2) (s_z s1) ev1 r2 Hev1 Hval1 Hr2
              ltac:(lia)) as (s12 & Hc12).
  destruct (Hall1 _ _ Hin2 Hc21) as [Hle1 Htie1].
  destruct (Hall2 _ _ Hin1 Hc12) as [Hle2 Htie2].
  destruct (candidato_de_ml _ _ _ _ _ _ _ _ _ Hin1 Hc1 Hev1 Hr1)
    as (M11 & En1 & Ed1 & Eg1).
  destruct (candidato_de_ml _ _ _ _ _ _ _ _ _ Hin2 Hc2 Hev2 Hr2)
    as (M22 & En2 & Ed2 & Eg2).
  destruct (candidato_de_ml _ _ _ _ _ _ _ _ _ Hin2 Hc21 Hev2 Hr1)
    as (M21 & _).
  destruct (candidato_de_ml _ _ _ _ _ _ _ _ _ Hin1 Hc12 Hev1 Hr2)
    as (M12 & _).
  set (A1 := (ev_desarrollo_mm ev1 + AJUSTE_DESARROLLO_REP_MM)
             / inject_Z (ev_n ev1)) in *.
  set (A2 := (ev_desarrollo_mm ev2 + AJUSTE_DESARROLLO_REP_MM)
             / inject_Z (ev_n ev2)) in *.
  set (c1 := inject_Z u1 / inject_Z (etq_eje r1) / 1000) in *.
  set (c2 := inject_Z u2 / inject_Z (etq_eje r2) / 1000) in *.
  assert (Hc1pos : 0 < c1).
  { unfold c1. apply Qdiv_pos; [|reflexivity].
    apply Qdiv_pos; apply inject_Z_pos; lia. }
  assert (Hc2pos : 0 < c2).
  { unfold c2. apply Qdiv_pos; [|reflexivity].
    apply Qdiv_pos; apply inject_Z_pos; lia. }
  rewrite M11, M21 in Hle1. rewrite M22, M12 in Hle2.
  apply Qmult_le_l in Hle1; [|exact Hc1pos].
  apply Qmult_le_l in Hle2; [|exact Hc2pos].
  assert (HA : A1 == A2) by lra.
  assert (Hz : s_z s1 = s_z s2).
  { assert (Ha : (s_z s2 <= s_z s1)%Z)
      by (apply Htie1; rewrite M11, M21, HA; reflexivity).
    assert (Hb : (s_z s1 <= s_z s2)%Z)
      by (apply Htie2; rewrite M22, M12, HA; reflexivity).
    lia. }
  split; [exact Hz|].
  rewrite Hz in Hev1. rewrite (returns_inj _ _ _ Hev1 Hev2) in *.
  rewrite En1, En2, Ed1, Ed2, Eg1, Eg2. repeat split.
Qed.

Lemma obtener_z_sugerido_cilindro_witness :
  exists s1 s2,
    returns (obtener_z_sugerido 50 30 10000 None) (Some (Valido s1))
    /\ returns (obtener_z_sugerido 50 200 7 (Some 250)) (Some (Valido s2))
    /\ s_z s1 = s_z s2 /\ s_n s1 = s_n s2
    /\ s_desarrollo_mm s1 = s_desarrollo_mm s2
    /\ s_gap_vertical s1 = s_gap_vertical s2.
Proof.
  eexists. eexists.
  split; [vm_compute; reflexivity|]. split; [vm_compute; reflexivity|].
  apply (obtener_z_sugerido_cilindro 50 30 200 10000 7 None (Some 250));
    [lia | lia | vm_compute; reflexivity | vm_compute; reflexivity].
Defined.

(** ** The row function, for every quantity *)

Lemma py_int_floor (x : Q) : 0 <= x -> py_int x = Qfloor x.
Proof.
  intros Hx. destruct x as [n d]. unfold py_int, Qfloor. cbn [Qnum Qden].
  unfold Qle in Hx. cbn in Hx. apply Z.quot_div_nonneg; lia.
Qed.

Lemma obtener_z_sugerido_positivo (alto_etq ancho_etq : Q) (unidades : Z)
    (ancho_rollo_mm : option Q) :
  (1 <= unidades)%Z ->
  safely (obtener_z_sugerido alto_etq ancho_etq unidades ancho_rollo_mm)
    (fun res =>
       forall s,
         res = Some (Valido s) ->
         s_repeticiones s = inject_Z unidades / inject_Z (s_etq_repeat s)
         /\ 0 < s_repeticiones s /\ 0 < s_ml s /\ 0 < s_m2 s).
Proof.
  intros Hu.
  apply (safely_mono _ _ _
           (obtener_z_sugerido_es_minimo alto_etq ancho_etq unidades
              ancho_rollo_mm)).
  intros res H s Hs. destruct (H s Hs) as (Hin & Hc & _).
  destruct (candidato_de_partes _ _ _ _ _ _ _ Hin Hc)
    as (ev & r & _ & _ & _ & _ & (Hw & _) & Hn & He & Hdes & Es).
  apply CILINDROS_FB_bounds in Hin.
  rewrite Es. cbn [s_repeticiones s_etq_repeat s_ml s_m2].
  assert (Hd : 0 < ev_desarrollo_mm ev).
  { rewrite Hdes.
    assert (H60 : 60 <= inject_Z (s_z s))
      by (change 60 with (inject_Z 60); rewrite <- Zle_Qle; lia).
    unfold FACTOR_CILINDRO_A_MM.
    assert (Hf : 0 < 3175 # 1000) by reflexivity. nra. }
  assert (Hrep : 0 < inject_Z unidades / inject_Z (ev_n ev * etq_eje r))
    by (apply Qdiv_pos; apply inject_Z_pos; lia).
  assert (Hml : 0 <
            (inject_Z unidades / inject_Z (ev_n ev * etq_eje r)
             * ev_desarrollo_mm ev
             + inject_Z unidades / inject_Z (ev_n ev * etq_eje r)
               * AJUSTE_DESARROLLO_REP_MM) / 1000).
  { apply Qdiv_pos; [|reflexivity].
    unfold AJUSTE_DESARROLLO_REP_MM.
    assert (Ha : 0 < 75 # 100) by reflexivity. nra. }
  split; [reflexivity|]. split; [exact Hrep|]. split; [exact Hml|].
  assert (Hwm : 0 < s_ancho_rollo_mm s / 1000)
    by (apply Qdiv_pos; [exact Hw | reflexivity]).
  nra.
Qed.

(** X8. The row function on a row with any quantity.  The "SIN MEDIDAS" row is
    produced exactly when the height or the width is zero.  Otherwise the
    engine is run for a quantity of at least one label: the whole part of
    the quantity when it is 1 or more, and 1 when it is below 1 (zero and
    negative included); a configuration it returns then has positive
    revolutions (that quantity over the labels per revolution), linear
    meters and area. *)
Theorem calcular_z_y_metraje_positivo (alto ancho etiquetas_a_producir : Q)
    (ancho_rollo : option Q) :
  (1 <= etiquetas_a_producir ->
   unidades_para_calculo etiquetas_a_producir = Qfloor etiquetas_a_producir)
  /\ (etiquetas_a_producir < 1 ->
      unidades_para_calculo etiquetas_a_producir = 1%Z)
  /\ safely (calcular_z_y_metraje alto ancho etiquetas_a_producir ancho_rollo)
       (fun fila =>
          (fila = SinMedidas <-> alto == 0 \/ ancho == 0)
          /\ forall s,
               fila = Calculado (Some (Valido s)) ->
               s_repeticiones s
               = inject_Z (unidades_para_calculo etiquetas_a_producir)
                 / inject_Z (s_etq_repeat s)
               /\ 0 < s_repeticiones s /\ 0 < s_ml s /\ 0 < s_m2 s).
Proof.
  assert (Hu : (1 <= unidades_para_calculo etiquetas_a_producir)%Z).
  { unfold unidades_para_calculo.
    destruct (Qltb 0 etiquetas_a_producir); lia. }
  split; [|split].
  - intros H1. unfold unidades_para_calculo.
    destruct (Qltb 0 etiquetas_a_producir) eqn:E;
      [|apply Qltb_false in E; lra].
    rewrite py_int_floor by lra.
    assert (H : (1 <= Qfloor etiquetas_a_producir)%Z).
    { change 1%Z with (Qfloor 1). apply Qfloor_resp_le. exact H1. }
    lia.
  - intros H1. unfold unidades_para_calculo.
    destruct (Qltb 0 etiquetas_a_producir) eqn:E; [|reflexivity].
    apply Qltb_true in E. rewrite py_int_floor by lra.
    assert (H : (Qfloor etiquetas_a_producir < 1)%Z).
    { apply Z.lt_nge. intros Hge.
      assert (Hq : 1 <= inject_Z (Qfloor etiquetas_a_producir))
        by (apply inject_Z_ge1; exact Hge).
      pose proof (Qfloor_le etiquetas_a_producir). lra. }
    lia.
  - unfold calcular_z_y_metraje. cbv zeta.
    destruct (Qeq_bool alto 0) eqn:Ea.
    { apply Qeq_bool_iff in Ea. cbn [orb]. apply safely_ret.
      split; [split; [intros _; left; exact Ea | reflexivity]|].
      discriminate. }
    destruct (Qeq_bool ancho 0) eqn:Eb.
    { apply Qeq_bool_iff in Eb. cbn [orb]. apply safely_ret.
      split; [split; [intros _; right; exact Eb | reflexivity]|].
      discriminate. }
    apply Qeq_bool_neq in Ea. apply Qeq_bool_neq in Eb. cbn [orb].
    apply safely_bind.
    apply (safely_mono _ _ _
             (obtener_z_sugerido_positivo alto ancho _ _ Hu)).
    intros res Hres. apply safely_ret.
    split; [split; [discriminate | intros [H | H]; contradiction]|].
    intros s [= ->]. apply Hres. reflexivity.
Qed.

(** * The stock cascade *)

Lemma cascadeo_app (st : EstadoCascada) (pre post : list FilaResumen) :
  cascadeo st (pre ++ post)
  = cascadeo st pre
    ++ cascadeo (fold_left (fun s f => fst (paso_cascada s f)) pre st) post.
Proof.
  revert st. induction pre as [|f pre IH]; intros st; [reflexivity|].
  cbn [app cascadeo fold_left].
  destruct (paso_cascada st f) as [st' o] eqn:E. cbn [fst app].
  rewrite IH. reflexivity.
Qed.

(** After any rows, the loop remembers the component of the last one. *)
Lemma cascadeo_recuerda (st : EstadoCascada) (pre : list FilaResumen)
    (a : FilaResumen) :
  componente_anterior
    (fold_left (fun s f => fst (paso_cascada s f)) (pre ++ [a]) st)
  = Some (Componente a).
Proof.
  rewrite fold_left_app. cbn [fold_left].
  set (st0 := fold_left _ pre st). clearbody st0.
  unfold paso_cascada. cbv zeta. cbn [fst componente_anterior].
  unfold cambia_componente.
  destruct (componente_anterior st0) as [c|] eqn:Ec; [|reflexivity].
  destruct (String.eqb (Componente a) c) eqn:E; cbn [negb].
  - apply String.eqb_eq in E. rewrite Ec, E. reflexivity.
  - reflexivity.
Qed.

(** X9. Where the component changes the table splits: the cascade of the whole
    is the cascade of the rows up to the change followed by the cascade of
    the rows after it, each computed on its own. *)
Theorem cascadeo_de_stock_bloques (pre post : list FilaResumen)
    (a b : FilaResumen) :
  Componente a <> Componente b ->
  cascadeo_de_stock ((pre ++ [a]) ++ b :: post)
  = cascadeo_de_stock (pre ++ [a]) ++ cascadeo_de_stock (b :: post).
Proof.
  intros Hab. unfold cascadeo_de_stock at 1 2. rewrite cascadeo_app.
  f_equal. unfold cascadeo_de_stock. cbn [cascadeo].
  unfold paso_cascada at 1 3. cbv zeta. rewrite cascadeo_recuerda.
  unfold cambia_componente.
  assert (E : String.eqb (Componente b) (Componente a) = false)
    by (apply String.eqb_neq; congruence).
  rewrite E. reflexivity.
Qed.

Lemma cascadeo_de_stock_bloques_witness :
  cascadeo_de_stock
    (([mkFilaResumen "A" 100 30 20] ++ [mkFilaResumen "A" 7 30 20])
       ++ mkFilaResumen "B" 50 10 60 :: [mkFilaResumen "B" 9 10 60])
  = cascadeo_de_stock
      ([mkFilaResumen "A" 100 30 20] ++ [mkFilaResumen "A" 7 30 20])
    ++ cascadeo_de_stock
         (mkFilaResumen "B" 50 10 60 :: [mkFilaResumen "B" 9 10 60]).
Proof.
  apply (cascadeo_de_stock_bloques [mkFilaResumen "A" 100 30 20]
           [mkFilaResumen "B" 9 10 60] (mkFilaResumen "A" 7 30 20)
           (mkFilaResumen "B" 50 10 60)).
  cbn [Componente]. discriminate.
Defined.

(** Inside a block of one component, the loop only subtracts. *)
Lemma cascadeo_mismo (c : string) (filas : list FilaResumen) :
  Forall (fun g => Componente g = c) filas ->
  forall (st : EstadoCascada) (j : nat) (o : FilaCascada),
    componente_anterior st = Some c ->
    nth_error (cascadeo st filas) j = Some o ->
    Stock_Acumulado_Cascada o
    == stock_tradicional st
       - suma (map Metros_Cuadrados_Con_Merma (firstn j filas))
    /\ Stock_Final_m2 o
       == stock_tradicional st
          - suma (map Metros_Cuadrados_Con_Merma (firstn (S j) filas))
    /\ Stock_Acumulado_Factor_Cascada o
       == stock_factor st
          - suma (map Metros_Cuadrados_Factor (firstn j filas))
    /\ Stock_Final_Factor o
       == stock_factor st
          - suma (map Metros_Cuadrados_Factor (firstn (S j) filas)).
Proof.
  induction 1 as [|f filas Hf Hall IH]; intros st j o Hst Hnth.
  - destruct j; discriminate Hnth.
  - cbn [cascadeo] in Hnth. unfold paso_cascada in Hnth. cbv zeta in Hnth.
    assert (Ec : cambia_componente (Componente f) (componente_anterior st)
                 = false).
    { rewrite Hst, Hf. unfold cambia_componente.
      rewrite String.eqb_refl. reflexivity. }
    rewrite Ec in Hnth. destruct j as [|j].
    + cbn [nth_error] in Hnth. injection Hnth as <-.
      cbn [Stock_Acumulado_Cascada Stock_Final_m2
             Stock_Acumulado_Factor_Cascada Stock_Final_Factor
             firstn map suma fold_right].
      repeat split; ring.
    + cbn [nth_error] in Hnth.
      apply IH in Hnth; [|exact Hst].
      cbn [stock_tradicional stock_factor] in Hnth.
      destruct Hnth as (H1 & H2 & H3 & H4).
      rewrite H1, H2, H3, H4.
      cbn [firstn map suma fold_right]. fold (suma).
      unfold suma. repeat split; ring.
Qed.

Lemma cascadeo_de_stock_cabeza (f : FilaResumen) (filas : list FilaResumen) :
  cascadeo_de_stock (f :: filas)
  = cascadeo
      (mkEstadoCascada (Some (Componente f)) (Stock_Acumulado_Original f)
         (Stock_Acumulado_Original f)) (f :: filas).
Proof.
  unfold cascadeo_de_stock. cbn [cascadeo]. unfold paso_cascada. cbv zeta.
  cbn [cambia_componente componente_anterior].
  unfold cambia_componente. rewrite String.eqb_refl. reflexivity.
Qed.

Lemma cascadeo_de_stock_saldos (f : FilaResumen) (filas : list FilaResumen) :
  Forall (fun g => Componente g = Componente f) filas ->
  forall (j : nat) (o : FilaCascada),
    nth_error (cascadeo_de_stock (f :: filas)) j = Some o ->
    Stock_Acumulado_Cascada o
    == Stock_Acumulado_Original f
       - suma (map Metros_Cuadrados_Con_Merma (firstn j (f :: filas)))
    /\ Stock_Final_m2 o
       == Stock_Acumulado_Original f
          - suma (map Metros_Cuadrados_Con_Merma (firstn (S j) (f :: filas)))
    /\ Stock_Acumulado_Factor_Cascada o
       == Stock_Acumulado_Original f
          - suma (map Metros_Cuadrados_Factor (firstn j (f :: filas)))
    /\ Stock_Final_Factor o
       == Stock_Acumulado_Original f
          - suma (map Metros_Cuadrados_Factor (firstn (S j) (f :: filas))).
Proof.
  intros Hall j o Hnth. rewrite cascadeo_de_stock_cabeza in Hnth.
  exact (cascadeo_mismo (Componente f) (f :: filas)
           (Forall_cons _ eq_refl Hall)
           (mkEstadoCascada (Some (Componente f))
              (Stock_Acumulado_Original f) (Stock_Acumulado_Original f))
           j o eq_refl Hnth).
Qed.

(** X10. In a block of rows of one component, the stock a row starts from is
    the stock recorded on the first row of the block less what the rows
    before it consumed, and its final stock is that less its own
    consumption, on each of the two ledgers; the stock recorded on the
    later rows of the block is not read. *)
Theorem cascadeo_de_stock_saldo (f : FilaResumen) (filas : list FilaResumen) :
  Forall (fun g => Componente g = Componente f) filas ->
  forall (j : nat) (o : FilaCascada),
    nth_error (cascadeo_de_stock (f :: filas)) j = Some o ->
    Stock_Acumulado_Cascada o
    == Stock_Acumulado_Original f
       - suma (map Metros_Cuadrados_Con_Merma (firstn j (f :: filas)))
    /\ Stock_Final_m2 o
       == Stock_Acumulado_Original f
          - suma (map Metros_Cuadrados_Con_Merma (firstn (S j) (f :: filas)))
    /\ Stock_Acumulado_Factor_Cascada o
       == Stock_Acumulado_Original f
          - suma (map Metros_Cuadrados_Factor (firstn j (f :: filas)))
    /\ Stock_Final_Factor o
       == Stock_Acumulado_Original f
          - suma (map Metros_Cuadrados_Factor (firstn (S j) (f :: filas))).
Proof. exact (cascadeo_de_stock_saldos f filas). Qed.

Lemma cascadeo_de_stock_saldo_witness :
  Stock_Acumulado_Cascada (mkFilaCascada 20 (-20) 60 (-10))
  == 100
     - suma (map Metros_Cuadrados_Con_Merma
               (firstn 2
                  [mkFilaResumen "A" 100 30 20; mkFilaResumen "A" 7 50 20;
                   mkFilaResumen "A" 9 40 70]))
  /\ Stock_Final_m2 (mkFilaCascada 20 (-20) 60 (-10))
     == 100
        - suma (map Metros_Cuadrados_Con_Merma
                  (firstn 3
                     [mkFilaResumen "A" 100 30 20; mkFilaResumen "A" 7 50 20;
                      mkFilaResumen "A" 9 40 70]))
  /\ Stock_Acumulado_Factor_Cascada (mkFilaCascada 20 (-20) 60 (-10))
     == 100
        - suma (map Metros_Cuadrados_Factor
                  (firstn 2
                     [mkFilaResumen "A" 100 30 20; mkFilaResumen "A" 7 50 20;
                      mkFilaResumen "A" 9 40 70]))
  /\ Stock_Final_Factor (mkFilaCascada 20 (-20) 60 (-10))
     == 100
        - suma (map Metros_Cuadrados_Factor
                  (firstn 3
                     [mkFilaResumen "A" 100 30 20; mkFilaResumen "A" 7 50 20;
                      mkFilaResumen "A" 9 40 70])).
Proof.
  apply (cascadeo_de_stock_saldo (mkFilaResumen "A" 100 30 20)
           [mkFilaResumen "A" 7 50 20; mkFilaResumen "A" 9 40 70]
           ltac:(repeat constructor) 2 (mkFilaCascada 20 (-20) 60 (-10))).
  reflexivity.
Defined.

Lemma suma_firstn_mono (l : list Q) :
  Forall (fun x => 0 <= x) l ->
  forall i j, (i <= j)%nat -> suma (firstn i l) <= suma (firstn j l).
Proof.
  induction 1 as [|x l Hx Hall IH]; intros i j Hij.
  - rewrite !firstn_nil. apply Qle_refl.
  - destruct i as [|i].
    + cbn [firstn suma fold_right].
      clear IH Hij. revert j. 
      assert (Hnn : forall k, 0 <= suma (firstn k (x :: l))).
      { assert (Hall' : Forall (fun y => 0 <= y) (x :: l))
          by (constructor; assumption).
        clear Hx Hall. induction Hall' as [|y m Hy _ IHm]; intros k.
        - rewrite firstn_nil. apply Qle_refl.
        - destruct k; cbn [firstn suma fold_right]; [apply Qle_refl|].
          specialize (IHm k). unfold suma in IHm. lra. }
      exact Hnn.
    + destruct j as [|j]; [lia|].
      cbn [firstn suma fold_right].
      specialize (IH i j ltac:(lia)). unfold suma in IH. lra.
Qed.

(** X11. In a block of rows of one component whose consumptions are not
    negative, the final stock never grows from a row to a later one; so
    once a row of the block is not available (Disponibilidad 0), no later
    row of the block is.  The same holds on the factor ledger. *)
Theorem cascadeo_de_stock_agotado (f : FilaResumen)
    (filas : list FilaResumen) (i j : nat) (oi oj : FilaCascada) :
  Forall (fun g => Componente g = Componente f) filas ->
  Forall (fun g => 0 <= Metros_Cuadrados_Con_Merma g
                   /\ 0 <= Metros_Cuadrados_Factor g) (f :: filas) ->
  (i <= j)%nat ->
  nth_error (cascadeo_de_stock (f :: filas)) i = Some oi ->
  nth_error (cascadeo_de_stock (f :: filas)) j = Some oj ->
  Stock_Final_m2 oj <= Stock_Final_m2 oi
  /\ Stock_Final_Factor oj <= Stock_Final_Factor oi
  /\ (Disponibilidad oi = 0%Z -> Disponibilidad oj = 0%Z)
  /\ (Disponibilidad_Factor oi = 0%Z -> Disponibilidad_Factor oj = 0%Z).
Proof.
  intros Hall Hnn Hij Hi Hj.
  destruct (cascadeo_de_stock_saldos f filas Hall i oi Hi)
    as (_ & Hmi & _ & Hfi).
  destruct (cascadeo_de_stock_saldos f filas Hall j oj Hj)
    as (_ & Hmj & _ & Hfj).
  assert (Hm : suma (firstn (S i) (map Metros_Cuadrados_Con_Merma (f :: filas)))
               <= suma (firstn (S j)
                          (map Metros_Cuadrados_Con_Merma (f :: filas)))).
  { apply suma_firstn_mono; [|lia].
    rewrite Forall_map. revert Hnn. apply Forall_impl. intros g [H _].
    exact H. }
  assert (Hf : suma (firstn (S i) (map Metros_Cuadrados_Factor (f :: filas)))
               <= suma (firstn (S j)
                          (map Metros_Cuadrados_Factor (f :: filas)))).
  { apply suma_firstn_mono; [|lia].
    rewrite Forall_map. revert Hnn. apply Forall_impl. intros g [_ H].
    exact H. }
  rewrite !firstn_map in Hm, Hf.
  assert (H1 : Stock_Final_m2 oj <= Stock_Final_m2 oi)
    by (rewrite Hmi, Hmj; lra).
  assert (H2 : Stock_Final_Factor oj <= Stock_Final_Factor oi)
    by (rewrite Hfi, Hfj; lra).
  split; [exact H1|]. split; [exact H2|].
  unfold Disponibilidad, Disponibilidad_Factor. split.
  - destruct (Qltb 0 (Stock_Final_m2 oi)) eqn:Ei; [discriminate|].
    intros _. apply Qltb_false in Ei.
    destruct (Qltb 0 (Stock_Final_m2 oj)) eqn:Ej; [|reflexivity].
    apply Qltb_true in Ej. lra.
  - destruct (Qltb 0 (Stock_Final_Factor oi)) eqn:Ei; [discriminate|].
    intros _. apply Qltb_false in Ei.
    destruct (Qltb 0 (Stock_Final_Factor oj)) eqn:Ej; [|reflexivity].
    apply Qltb_true in Ej. lra.
Qed.

Lemma cascadeo_de_stock_agotado_witness :
  Stock_Final_m2 (mkFilaCascada 20 (-20) 60 40)
  <= Stock_Final_m2 (mkFilaCascada 70 20 80 60)
  /\ Stock_Final_Factor (mkFilaCascada 20 (-20) 60 40)
     <= Stock_Final_Factor (mkFilaCascada 70 20 80 60)
  /\ (Disponibilidad (mkFilaCascada 70 20 80 60) = 0%Z ->
      Disponibilidad (mkFilaCascada 20 (-20) 60 40) = 0%Z)
  /\ (Disponibilidad_Factor (mkFilaCascada 70 20 80 60) = 0%Z ->
      Disponibilidad_Factor (mkFilaCascada 20 (-20) 60 40) = 0%Z).
Proof.
  apply (cascadeo_de_stock_agotado (mkFilaResumen "A" 100 30 20)
           [mkFilaResumen "A" 7 50 20; mkFilaResumen "A" 9 40 20]
           1 2 (mkFilaCascada 70 20 80 60) (mkFilaCascada 20 (-20) 60 40)).
  - repeat constructor.
  - repeat constructor; discriminate.
  - lia.
  - reflexivity.
  - reflexivity.
Defined.

(** * The roll width in a component name *)

Local Open Scope string_scope.

Lemma es_espacio_no_digito (c : ascii) :
  es_espacio c = true -> es_digito c = false.
Proof.
  unfold es_espacio, es_digito. cbv zeta.
  generalize (nat_of_ascii c). intros n H.
  apply orb_true_iff in H. destruct H as [H | H].
  - apply orb_true_iff in H. destruct H as [H | H].
    + apply orb_true_iff in H. destruct H as [H | H];
        apply andb_true_iff in H; destruct H as [H1 H2];
        apply Nat.leb_le in H1; apply Nat.leb_le in H2;
        apply andb_false_iff; left; apply Nat.leb_gt; lia.
    + apply Nat.eqb_eq in H. subst n. reflexivity.
  - apply Nat.eqb_eq in H. subst n. reflexivity.
Qed.

Lemma es_M_no_digito (c : ascii) :
  es_M c = true -> es_digito c = false /\ es_espacio c = false.
Proof.
  unfold es_M. intros H. apply orb_true_iff in H.
  destruct H as [H | H]; apply Ascii.eqb_eq in H; subst c; split; reflexivity.
Qed.

Lemma digitos_app (d r : string) :
  todos es_digito d = true ->
  match r with
  | EmptyString => True
  | String c _ => es_digito c = false
  end ->
  digitos (d ++ r) = (d, r).
Proof.
  intros Hd Hr. induction d as [|c d IH]; cbn [append].
  - destruct r as [|c r]; [reflexivity|]. cbn [digitos]. rewrite Hr.
    reflexivity.
  - cbn [todos] in Hd. apply andb_true_iff in Hd. destruct Hd as [Hc Hd].
    cbn [digitos]. rewrite Hc, (IH Hd). reflexivity.
Qed.

Lemma sin_espacios_app (esp r : string) :
  todos es_espacio esp = true ->
  match r with
  | EmptyString => True
  | String c _ => es_espacio c = false
  end ->
  sin_espacios (esp ++ r) = r.
Proof.
  intros He Hr. induction esp as [|c esp IH]; cbn [append].
  - destruct r as [|c r]; [reflexivity|]. cbn [sin_espacios]. rewrite Hr.
    reflexivity.
  - cbn [todos] in He. apply andb_true_iff in He. destruct He as [Hc He].
    cbn [sin_espacios]. rewrite Hc. exact (IH He).
Qed.

Lemma primera_coincidencia_pre (pre s : string) :
  todos (fun c => negb (es_digito c)) pre = true ->
  primera_coincidencia (pre ++ s) = primera_coincidencia s.
Proof.
  intros Hp. induction pre as [|c pre IH]; [reflexivity|].
  cbn [todos] in Hp. apply andb_true_iff in Hp. destruct Hp as [Hc Hp].
  apply negb_true_iff in Hc.
  cbn [append primera_coincidencia]. unfold coincide. cbn [digitos].
  rewrite Hc. exact (IH Hp).
Qed.

Lemma string_of_uint_digitos (u : Decimal.uint) :
  todos es_digito (NilEmpty.string_of_uint u) = true.
Proof.
  induction u; cbn [NilEmpty.string_of_uint todos];
    [reflexivity | rewrite IHu; reflexivity ..].
Qed.

(** [str(k)] of an int that is not negative is a string of digits that is
    not empty and reads back as [k]. *)
Lemma py_str_digitos (k : Z) :
  (0 <= k)%Z ->
  todos es_digito (py_str k) = true
  /\ py_str k <> EmptyString
  /\ NilZero.uint_of_string (py_str k) = Some (match Z.to_int k with
                                               | Decimal.Pos u => u
                                               | Decimal.Neg u => u
                                               end)
  /\ Z.of_uint (match Z.to_int k with
                | Decimal.Pos u => u
                | Decimal.Neg u => u
                end) = k.
Proof.
  intros Hk. unfold py_str.
  pose proof (DecimalZ.of_to k) as Hof.
  destruct k as [|p|p]; [| |lia]; cbn [Z.to_int] in *;
    cbn [NilZero.string_of_int Z.of_int] in *.
  - repeat split; try reflexivity. discriminate.
  - pose proof (Unsigned.to_uint_nonnil p) as Hnn.
    split; [|split; [|split; [apply NilZero.usu, Hnn | exact Hof]]].
    + unfold NilZero.string_of_uint.
      destruct (Pos.to_uint p) eqn:E; try reflexivity;
        rewrite <- E; apply string_of_uint_digitos.
    + unfold NilZero.string_of_uint.
      destruct (Pos.to_uint p); cbn [NilEmpty.string_of_uint]; discriminate.
Qed.

(** X12. A name with no digit before a number that is followed by optional
    whitespace, [MM] in any case and then whitespace or the end of the
    name, gives that number. *)
Theorem extraer_ancho_rollo_mm_canonico (pre : string) (k : Z)
    (esp : string) (a b : ascii) (resto : string) :
  todos (fun c => negb (es_digito c)) pre = true ->
  (0 <= k)%Z ->
  todos es_espacio esp = true ->
  es_M a = true -> es_M b = true ->
  fin_o_espacio resto = true ->
  extraer_ancho_rollo_mm (pre ++ py_str k ++ esp ++ String a (String b resto))
  = Some (inject_Z k).
Proof.
  intros Hpre Hk Hesp Ha Hb Hfin.
  destruct (py_str_digitos k Hk) as (Hdig & Hne & Hparse & Hval).
  destruct (es_M_no_digito a Ha) as [Had Has].
  set (cola := esp ++ String a (String b resto)).
  assert (Hcola : match cola with
                  | EmptyString => True
                  | String c _ => es_digito c = false
                  end).
  { unfold cola. destruct esp as [|c esp]; cbn [append]; [exact Had|].
    cbn [todos] in Hesp. apply andb_true_iff in Hesp.
    apply es_espacio_no_digito, Hesp. }
  assert (Hco : coincide (py_str k ++ cola) = Some (py_str k)).
  { unfold coincide. rewrite (digitos_app _ _ Hdig Hcola).
    destruct (py_str k) as [|c0 d0] eqn:Ed; [contradiction Hne; reflexivity|].
    unfold cola.
    rewrite (sin_espacios_app esp (String a (String b resto)) Hesp Has).
    rewrite Ha, Hb, Hfin. reflexivity. }
  assert (Hprim : primera_coincidencia (pre ++ py_str k ++ cola)
                  = Some (py_str k)).
  { rewrite (primera_coincidencia_pre _ _ Hpre).
    destruct (py_str k ++ cola) eqn:E; cbn [primera_coincidencia];
      rewrite Hco; reflexivity. }
  unfold extraer_ancho_rollo_mm.
  destruct (pre ++ py_str k ++ cola) as [|c0 s0] eqn:E.
  - cbn [primera_coincidencia] in Hprim. unfold coincide in Hprim.
    cbn in Hprim. discriminate.
  - rewrite Hprim. unfold float_de_digitos. rewrite Hparse, Hval.
    reflexivity.
Qed.

Lemma extraer_ancho_rollo_mm_canonico_witness :
  extraer_ancho_rollo_mm
    ("LAMINADO FILM PETG " ++ py_str 280 ++ " "
     ++ String "M"%char (String "M"%char " 45 MIC"))
  = Some (inject_Z 280).
Proof.
  apply (extraer_ancho_rollo_mm_canonico "LAMINADO FILM PETG " 280 " "
           "M"%char "M"%char " 45 MIC");
    try reflexivity.
  lia.
Defined.

Lemma digitos_spec (s : string) :
  s = fst (digitos s) ++ snd (digitos s)
  /\ todos es_digito (fst (digitos s)) = true.
Proof.
  induction s as [|c s IH]; [split; reflexivity|].
  cbn [digitos]. destruct (es_digito c) eqn:Ec.
  - destruct (digitos s) as [d r]. cbn [fst snd] in *.
    destruct IH as [IH1 IH2]. cbn [append todos].
    rewrite Ec, IH2, <- IH1. split; reflexivity.
  - split; reflexivity.
Qed.

Lemma sin_espacios_spec (r : string) :
  exists esp, r = esp ++ sin_espacios r /\ todos es_espacio esp = true.
Proof.
  induction r as [|c r IH]; [exists ""; split; reflexivity|].
  cbn [sin_espacios]. destruct (es_espacio c) eqn:Ec.
  - destruct IH as (esp & IH1 & IH2). exists (String c esp).
    cbn [append todos]. rewrite Ec, IH2, <- IH1. split; reflexivity.
  - exists "". split; reflexivity.
Qed.

Lemma coincide_spec (s d : string) :
  coincide s = Some d ->
  exists esp a b resto,
    s = d ++ esp ++ String a (String b resto)
    /\ d <> "" /\ todos es_digito d = true
    /\ todos es_espacio esp = true
    /\ es_M a = true /\ es_M b = true /\ fin_o_espacio resto = true.
Proof.
  unfold coincide. destruct (digitos_spec s) as [Hs Hd].
  destruct (digitos s) as [d0 r]. cbn [fst snd] in *.
  destruct d0 as [|c0 d0]; [discriminate|].
  destruct (sin_espacios_spec r) as (esp & Hr & Hesp).
  destruct (sin_espacios r) as [|a [|b resto]]; try discriminate.
  destruct (es_M a) eqn:Ea; [|discriminate].
  destruct (es_M b) eqn:Eb; [|discriminate].
  destruct (fin_o_espacio resto) eqn:Ef; [|discriminate].
  cbn [andb]. intros [= <-].
  exists esp, a, b, resto. rewrite <- Hr.
  repeat split; try assumption. discriminate.
Qed.

Lemma primera_coincidencia_spec (s d : string) :
  primera_coincidencia s = Some d ->
  exists pre, coincide (snd pre) = Some d /\ s = fst pre ++ snd pre.
Proof.
  induction s as [|c s IH]; cbn [primera_coincidencia].
  - destruct (coincide "") eqn:E; [|discriminate].
    intros [= ->]. exists ("", ""). split; [exact E | reflexivity].
  - destruct (coincide (String c s)) eqn:E.
    + intros [= ->]. exists ("", String c s). split; [exact E | reflexivity].
    + intros H. destruct (IH H) as ([p q] & Hc & Hs). cbn [fst snd] in *.
      exists (String c p, q). cbn [fst snd append]. rewrite <- Hs.
      split; [exact Hc | reflexivity].
Qed.

(** X13. A width the function gives was read off the name: the name has a run
    of digits, then optional whitespace, then [MM] in any case followed by
    whitespace or the end, and the width is the number the digits write;
    it is never negative. *)
Theorem extraer_ancho_rollo_mm_origen (nombre_componente : string) (w : Q) :
  extraer_ancho_rollo_mm nombre_componente = Some w ->
  exists pre d esp a b resto u,
    nombre_componente = pre ++ d ++ esp ++ String a (String b resto)
    /\ d <> "" /\ todos es_digito d = true
    /\ todos es_espacio esp = true
    /\ es_M a = true /\ es_M b = true /\ fin_o_espacio resto = true
    /\ NilZero.uint_of_string d = Some u
    /\ w = inject_Z (Z.of_uint u)
    /\ 0 <= w.
Proof.
  unfold extraer_ancho_rollo_mm.
  destruct nombre_componente as [|c0 s0]; [discriminate|].
  destruct (primera_coincidencia (String c0 s0)) as [d|] eqn:Ep;
    [|discriminate].
  unfold float_de_digitos.
  destruct (NilZero.uint_of_string d) as [u|] eqn:Eu; [|discriminate].
  intros [= <-].
  destruct (primera_coincidencia_spec _ _ Ep) as ([pre s] & Hc & Hs).
  cbn [fst snd] in *.
  destruct (coincide_spec _ _ Hc)
    as (esp & a & b & resto & Hs' & Hne & Hd & He & Ha & Hb & Hf).
  exists pre, d, esp, a, b, resto, u. rewrite Hs, Hs'.
  repeat split; try assumption.
  change 0 with (inject_Z 0). rewrite <- Zle_Qle.
  unfold Z.of_uint. apply N2Z.is_nonneg.
Qed.

Lemma extraer_ancho_rollo_mm_origen_witness :
  exists pre d esp a b resto u,
    "ADHESIVO 90mm" = pre ++ d ++ esp ++ String a (String b resto)
    /\ d <> "" /\ todos es_digito d = true
    /\ todos es_espacio esp = true
    /\ es_M a = true /\ es_M b = true /\ fin_o_espacio resto = true
    /\ NilZero.uint_of_string d = Some u
    /\ 90 = inject_Z (Z.of_uint u)
    /\ 0 <= 90.
Proof.
  apply (extraer_ancho_rollo_mm_origen "ADHESIVO 90mm" 90). reflexivity.
Defined.

Local Close Scope string_scope.

(** * Properties on binary64 floats *)

(** ** Comparisons of floats *)

Lemma SFcompare_refl (x : spec_float) :
  SFcompare x x = Some Eq \/ SFcompare x x = None.
Proof.
  destruct x as [s|s| |s m e]; cbn.
  - left. reflexivity.
  - left. destruct s; reflexivity.
  - right. reflexivity.
  - left. destruct s; rewrite Z.compare_refl;
      change (Pos.compare_cont Eq m m) with (Pos.compare m m);
      rewrite Pos.compare_refl; reflexivity.
Qed.

Lemma ltb_irrefl (x : float) : (x <? x)%float = false.
Proof.
  rewrite ltb_spec. unfold SFltb.
  destruct (SFcompare_refl (Prim2SF x)) as [-> | ->]; reflexivity.
Qed.

Lemma SFcompare_clave (x y : spec_float) :
  x <> S754_nan -> y <> S754_nan ->
  SFcompare x y = Some (lex (clave x) (clave y)).
Proof.
  intros Hx Hy.
  destruct x as [sx|sx| |sx mx ex]; [| |contradiction|];
    destruct y as [sy|sy| |sy my ey]; try contradiction;
    try (destruct sx; destruct sy; reflexivity);
    try (destruct sx; reflexivity); try (destruct sy; reflexivity).
  destruct sx, sy; cbn [SFcompare clave lex]; try reflexivity.
  - (* both negative *)
    change (-1 ?= -1)%Z with Eq. cbv iota.
    rewrite (Z.compare_opp ex ey), (Z.compare_antisym ex ey).
    destruct (ex ?= ey)%Z; cbn [CompOpp]; reflexivity.
Qed.

Lemma lex_trans (a b c : Z * Z * Z) :
  lex a b = Lt -> lex b c = Lt -> lex a c = Lt.
Proof.
  destruct a as [[a1 a2] a3], b as [[b1 b2] b3], c as [[c1 c2] c3].
  unfold lex. intros Hab Hbc.
  destruct (Z.compare_spec a1 b1), (Z.compare_spec b1 c1),
    (Z.compare_spec a1 c1); try discriminate; try lia; try reflexivity;
    destruct (Z.compare_spec a2 b2), (Z.compare_spec b2 c2),
      (Z.compare_spec a2 c2); try discriminate; try lia; try reflexivity.
  rewrite Z.compare_lt_iff in *. lia.
Qed.

Lemma lex_eq_lt (a b c : Z * Z * Z) :
  lex a b = Eq -> lex b c = Lt -> lex a c = Lt.
Proof.
  destruct a as [[a1 a2] a3], b as [[b1 b2] b3], c as [[c1 c2] c3].
  unfold lex.
  destruct (Z.compare_spec a1 b1) as [E1| |]; try discriminate.
  destruct (Z.compare_spec a2 b2) as [E2| |]; try discriminate.
  intros E3. apply Z.compare_eq in E3. subst. tauto.
Qed.

Lemma SFltb_no_nan (x y : spec_float) :
  SFltb x y = true -> x <> S754_nan /\ y <> S754_nan.
Proof.
  unfold SFltb. destruct x, y; cbn; try discriminate; split; discriminate.
Qed.

Lemma SFeqb_no_nan (x y : spec_float) :
  SFeqb x y = true -> x <> S754_nan /\ y <> S754_nan.
Proof.
  unfold SFeqb. destruct x, y; cbn; try discriminate; split; discriminate.
Qed.

Lemma ltb_trans (x y z : float) :
  (x <? y)%float = true -> (y <? z)%float = true -> (x <? z)%float = true.
Proof.
  rewrite !ltb_spec. intros H1 H2.
  destruct (SFltb_no_nan _ _ H1) as [Hx Hy].
  destruct (SFltb_no_nan _ _ H2) as [_ Hz].
  unfold SFltb in *.
  rewrite SFcompare_clave in * by assumption.
  destruct (lex (clave (Prim2SF x)) (clave (Prim2SF y))) eqn:E1;
    try discriminate.
  destruct (lex (clave (Prim2SF y)) (clave (Prim2SF z))) eqn:E2;
    try discriminate.
  rewrite (lex_trans _ _ _ E1 E2). reflexivity.
Qed.

Lemma eqb_ltb (x y z : float) :
  (x =? y)%float = true -> (y <? z)%float = true -> (x <? z)%float = true.
Proof.
  rewrite eqb_spec, !ltb_spec. intros H1 H2.
  destruct (SFeqb_no_nan _ _ H1) as [Hx Hy].
  destruct (SFltb_no_nan _ _ H2) as [_ Hz].
  unfold SFltb, SFeqb in *.
  rewrite SFcompare_clave in * by assumption.
  destruct (lex (clave (Prim2SF x)) (clave (Prim2SF y))) eqn:E1;
    try discriminate.
  destruct (lex (clave (Prim2SF y)) (clave (Prim2SF z))) eqn:E2;
    try discriminate.
  rewrite (lex_eq_lt _ _ _ E1 E2). reflexivity.
Qed.

(** The floats that compare above zero are the positive finite ones and
    plus infinity. *)
Lemma positivo_clase (x : float) :
  (0 <? x)%float = true ->
  (exists m e, Prim2SF x = S754_finite false m e)
  \/ Prim2SF x = S754_infinity false.
Proof.
  rewrite ltb_spec. change (Prim2SF 0) with (S754_zero false).
  unfold SFltb, SFcompare.
  destruct (Prim2SF x) as [s|s| |s m e]; try discriminate;
    destruct s; try discriminate; intros _.
  - right. reflexivity.
  - left. exists m, e. reflexivity.
Qed.

Lemma positivo_no_leb (x : float) :
  (0 <? x)%float = true -> (x <=? 0)%float = false.
Proof.
  intros H. rewrite leb_spec. change (Prim2SF 0) with (S754_zero false).
  destruct (positivo_clase x H) as [(m & e & ->) | ->]; reflexivity.
Qed.

Lemma positivo_no_cero (x : float) :
  (0 <? x)%float = true -> (x =? 0)%float = false.
Proof.
  intros H. rewrite eqb_spec. change (Prim2SF 0) with (S754_zero false).
  destruct (positivo_clase x H) as [(m & e & ->) | ->]; reflexivity.
Qed.

(** ** The vertical fit on floats *)

Lemma truediv_int_pos (a : float) (k : Z) :
  (1 <= k)%Z ->
  Doble.truediv_int a k = Some (a / Doble.float_de_int k)%float.
Proof.
  intros H. unfold Doble.truediv_int.
  destruct (k =? 0)%Z eqn:E; [apply Z.eqb_eq in E; lia | reflexivity].
Qed.

Section BucleDoble.

Variables desarrollo alto_etq gap_obj gap_min gap_max : float.

(** The loop reaches [m]: no earlier [n] of [ns] triggered the [break]. *)
Let alcanzado (ns : list Z) (m : Z) : Prop :=
  forall k, In k ns -> (k <= m)%Z ->
            (desarrollo <? Doble.float_de_int k * alto_etq)%float = false.

(** The loop body keeps [m] as a candidate. *)
Let aceptado (m : Z) : Prop :=
  (Doble.gap_de desarrollo alto_etq m <? 0)%float = false
  /\ ((1 < m)%Z ->
      (Doble.gap_de desarrollo alto_etq m <? gap_min)%float = false
      /\ (gap_max <? Doble.gap_de desarrollo alto_etq m)%float = false).

Let cand (n : Z) : Doble.Candidato :=
  Doble.par_de desarrollo alto_etq gap_obj gap_min n.

Lemma bucle_n_doble (ns : list Z) :
  forall mejor : option Doble.Candidato,
    Forall (fun n => (1 <= n)%Z) ns ->
    StronglySorted Z.lt ns ->
    (forall c, mejor = Some c -> Forall (fun n => (fst (fst c) < n)%Z) ns) ->
    exists res,
      Doble.bucle_n ns desarrollo alto_etq gap_obj gap_min gap_max mejor
      = Some res
      /\ ((res = mejor
           /\ forall m, In m ns -> alcanzado ns m -> ~ aceptado m)
          \/ (exists n,
                In n ns /\ alcanzado ns n /\ aceptado n
                /\ res = Some (cand n)
                /\ forall m, In m ns -> alcanzado ns m -> aceptado m ->
                             (m <= n)%Z)).
Proof.
  induction ns as [|n resto IH]; intros mejor Hpos Hsort Hbest;
    cbn [Doble.bucle_n].
  - exists mejor. split; [reflexivity|]. left.
    split; [reflexivity|]. intros m [].
  - inversion Hpos as [|? ? Hn Hpos']; subst.
    inversion Hsort as [|? ? Hsort' Hlt]; subst.
    rewrite Forall_forall in Hlt.
    destruct (desarrollo <? Doble.float_de_int n * alto_etq)%float
      eqn:Ecorta.
    + (* break *)
      exists mejor. split; [reflexivity|]. left. split; [reflexivity|].
      intros m Hm Halc _.
      assert (Hnm : (n <= m)%Z).
      { destruct Hm as [-> | Hm]; [lia|]. specialize (Hlt m Hm). lia. }
      specialize (Halc n (or_introl eq_refl) Hnm). congruence.
    + assert (Hstep : forall m, alcanzado resto m -> alcanzado (n :: resto) m).
      { intros m Hm k [-> | Hk] Hle; [exact Ecorta | exact (Hm k Hk Hle)]. }
      assert (Hstep' : forall m, alcanzado (n :: resto) m -> alcanzado resto m).
      { intros m Hm k Hk Hle. apply Hm; [right; exact Hk | exact Hle]. }
      rewrite (truediv_int_pos _ n Hn). cbn [Doble.bind].
      fold (Doble.gap_de desarrollo alto_etq n).
      (* what a skipped [n] contributes *)
      assert (Hskip : ~ aceptado n ->
        exists res,
          Doble.bucle_n resto desarrollo alto_etq gap_obj gap_min gap_max
            mejor = Some res
          /\ ((res = mejor
               /\ forall m, In m (n :: resto) -> alcanzado (n :: resto) m ->
                            ~ aceptado m)
              \/ (exists n0,
                    In n0 (n :: resto) /\ alcanzado (n :: resto) n0
                    /\ aceptado n0 /\ res = Some (cand n0)
                    /\ forall m, In m (n :: resto) ->
                                 alcanzado (n :: resto) m -> aceptado m ->
                                 (m <= n0)%Z))).
      { intros Hno.
        assert (Hbest' : forall c, mejor = Some c ->
                   Forall (fun k => (fst (fst c) < k)%Z) resto).
        { intros c Hc. specialize (Hbest c Hc).
          inversion Hbest; assumption. }
        destruct (IH mejor Hpos' Hsort' Hbest') as (res & Hrun & Hres).
        exists res. split; [exact Hrun|].
        destruct Hres as [[Hres Hnone] | (n0 & Hin & Halc & Hacc & Hres & Hmax)].
        - left. split; [exact Hres|].
          intros m [<- | Hm] Halc; [exact Hno|].
          apply Hnone; [exact Hm | apply Hstep', Halc].
        - right. exists n0.
          split; [right; exact Hin|]. split; [apply Hstep, Halc|].
          split; [exact Hacc|]. split; [exact Hres|].
          intros m [<- | Hm] Halc' Hacc'; [contradiction|].
          apply Hmax; [exact Hm | apply Hstep', Halc' | exact Hacc']. }
      destruct (Doble.gap_de desarrollo alto_etq n <? 0)%float eqn:Eneg.
      { apply Hskip. intros [H0 _]. congruence. }
      destruct ((1 <? n)%Z
                && ((Doble.gap_de desarrollo alto_etq n <? gap_min)%float
                    || (gap_max <? Doble.gap_de desarrollo alto_etq n)%float))
        eqn:Erango.
      { apply andb_true_iff in Erango as [E1 E2].
        apply Z.ltb_lt in E1. apply Hskip. intros [_ Hr].
        destruct (Hr E1) as [Ha Hb]. rewrite Ha, Hb in E2. discriminate E2. }
      assert (Hacc : aceptado n).
      { split; [exact Eneg|]. intros H1.
        apply andb_false_iff in Erango as [E | E].
        - apply Z.ltb_ge in E. lia.
        - apply orb_false_iff in E. exact E. }
      fold (Doble.gap_reportado desarrollo alto_etq gap_min n).
      cbv zeta.
      change (n, Doble.gap_reportado desarrollo alto_etq gap_min n,
              abs (Doble.gap_reportado desarrollo alto_etq gap_min n
                   - gap_obj))
        with (cand n).
      assert (Eupd : Doble.actualizar_mejor mejor (cand n) = Some (cand n)).
      { destruct mejor as [[[nb gb] db]|]; [|reflexivity].
        specialize (Hbest _ eq_refl). inversion Hbest as [|? ? Hnb _]; subst.
        cbn [fst] in Hnb. unfold cand, Doble.par_de, Doble.actualizar_mejor,
          Doble.prefiere.
        apply Z.ltb_lt in Hnb. rewrite Hnb. reflexivity. }
      rewrite Eupd.
      assert (Hbest' : forall c, Some (cand n) = Some c ->
                 Forall (fun k => (fst (fst c) < k)%Z) resto).
      { intros c Hc. injection Hc as <-. apply Forall_forall.
        intros k Hk. cbn [cand Doble.par_de fst]. apply Hlt, Hk. }
      destruct (IH (Some (cand n)) Hpos' Hsort' Hbest') as (res & Hrun & Hres).
      exists res. split; [exact Hrun|].
      destruct Hres as [[Hres Hnone] | (n0 & Hin & Halc & Hacc0 & Hres & Hmax)].
      * right. exists n.
        split; [left; reflexivity|].
        split; [|split; [exact Hacc|split; [exact Hres|]]].
        -- intros k [<- | Hk] Hle; [exact Ecorta|].
           specialize (Hlt k Hk). lia.
        -- intros m [<- | Hm] Halc' Hacc'; [lia|].
           exfalso. apply (Hnone m Hm); [apply Hstep', Halc' | exact Hacc'].
      * right. exists n0.
        split; [right; exact Hin|]. split; [apply Hstep, Halc|].
        split; [exact Hacc0|]. split; [exact Hres|].
        intros m [<- | Hm] Halc' Hacc'.
        -- specialize (Hlt n0 Hin). lia.
        -- apply Hmax; [exact Hm | apply Hstep', Halc' | exact Hacc'].
Qed.

End BucleDoble.

Lemma evaluar_z_uniforme_doble (z : Z)
    (alto_etq gap_obj gap_min gap_max : float) (max_n : Z) :
  (Doble.float_de_int z * Doble.FACTOR_CILINDRO_A_MM <? alto_etq)%float
  = false ->
  exists ev,
    Doble.evaluar_z_uniforme z alto_etq gap_obj gap_min gap_max max_n
    = Some ev
    /\ Doble.ev_z ev = z
    /\ Doble.ev_desarrollo_mm ev
       = (Doble.float_de_int z * Doble.FACTOR_CILINDRO_A_MM)%float
    /\ ((Doble.ev_valido ev = true
         /\ Doble.ev_detalle ev = Doble.DetalleOK
         /\ Doble.factible (Doble.ev_desarrollo_mm ev) alto_etq gap_min
              gap_max max_n (Doble.ev_n ev)
         /\ Doble.ev_gap ev
            = Doble.gap_reportado (Doble.ev_desarrollo_mm ev) alto_etq
                gap_min (Doble.ev_n ev)
         /\ Doble.ev_diff_obj ev = abs (Doble.ev_gap ev - gap_obj)%float
         /\ forall m,
              Doble.factible (Doble.ev_desarrollo_mm ev) alto_etq gap_min
                gap_max max_n m ->
              (m <= Doble.ev_n ev)%Z)
        \/ (Doble.ev_valido ev = false
            /\ Doble.ev_detalle ev = Doble.SinCombinacionValida
            /\ Doble.ev_n ev = 0%Z /\ Doble.ev_gap ev = 0%float
            /\ Doble.ev_diff_obj ev = 9999%float
            /\ forall m,
                 ~ Doble.factible (Doble.ev_desarrollo_mm ev) alto_etq
                     gap_min gap_max max_n m)).
Proof.
  intros E. unfold Doble.evaluar_z_uniforme. cbv zeta.
  set (d := (Doble.float_de_int z * Doble.FACTOR_CILINDRO_A_MM)%float) in *.
  rewrite E.
  assert (Hpos : Forall (fun n => (1 <= n)%Z) (py_range 1 (max_n + 1))).
  { apply Forall_forall. intros n Hn. apply py_range_In in Hn. lia. }
  destruct (bucle_n_doble d alto_etq gap_obj gap_min gap_max
              (py_range 1 (max_n + 1)) None Hpos (py_range_sorted _ _)
              (fun c H => ltac:(discriminate)))
    as (res & Hrun & Hres).
  rewrite Hrun. cbn [Doble.bind].
  destruct Hres as [[-> Hnone] | (n & Hin & Halc & Hacc & -> & Hmax)].
  - eexists. split; [reflexivity|].
    cbn [Doble.ev_z Doble.ev_desarrollo_mm Doble.ev_n Doble.ev_gap
           Doble.ev_diff_obj Doble.ev_valido Doble.ev_detalle].
    split; [reflexivity|]. split; [reflexivity|]. right.
    repeat split. intros m (Hr & Hreach & H0 & Hrange).
    apply (Hnone m).
    + apply py_range_In. lia.
    + intros k Hk Hle. apply py_range_In in Hk. apply Hreach. lia.
    + split; assumption.
  - unfold Doble.par_de. eexists. split; [reflexivity|].
    cbn [Doble.ev_z Doble.ev_desarrollo_mm Doble.ev_n Doble.ev_gap
           Doble.ev_diff_obj Doble.ev_valido Doble.ev_detalle].
    split; [reflexivity|]. split; [reflexivity|]. left.
    apply py_range_In in Hin.
    split; [reflexivity|]. split; [reflexivity|]. split; [|split; [|split]].
    + split; [lia|]. split.
      * intros k Hk. apply Halc; [apply py_range_In|]; lia.
      * exact Hacc.
    + reflexivity.
    + reflexivity.
    + intros m (Hr & Hreach & H0 & Hrange). apply Hmax.
      * apply py_range_In. lia.
      * intros k Hk Hle. apply py_range_In in Hk. apply Hreach. lia.
      * split; assumption.
Qed.

(** C3 (amended).  On binary64 floats, with every product, quotient and
    difference rounded as the code computes it: if the circumference
    [float(z) * 3.175] compares below the label height the result is the
    infeasible record at once.  Otherwise the evaluator returns; the pairs
    it chooses among are the repeats [m] from 1 to the bound such that no
    [k <= m] has [k * height] above the circumference and whose gap
    [(circumference - m * height) / m] is not negative and, for [m > 1],
    neither below [gap_min] nor above [gap_max].  If there is such an [m]
    the result is feasible with the greatest one; the gap it reports is
    that gap for [m > 1] and [max(circumference - height, gap_min)] for
    [m = 1]; and none of those pairs is preferred to the reported one by
    the code's test (more repeats, then smaller [|gap - gap_target|], then
    smaller gap).  If there is none the result is infeasible. *)
Theorem evaluar_z_uniforme_seleccion (z : Z)
    (alto_etq gap_obj gap_min gap_max : float) (max_n : Z) :
  let d := (Doble.float_de_int z * Doble.FACTOR_CILINDRO_A_MM)%float in
  ((d <? alto_etq)%float = true ->
   Doble.evaluar_z_uniforme z alto_etq gap_obj gap_min gap_max max_n
   = Some (Doble.mkEvaluacionZUniforme z d 0 0 9999 false
             (Doble.DesarrolloMenorQueAlto d alto_etq)))
  /\ ((d <? alto_etq)%float = false ->
      exists ev,
        Doble.evaluar_z_uniforme z alto_etq gap_obj gap_min gap_max max_n
        = Some ev
        /\ Doble.ev_z ev = z /\ Doble.ev_desarrollo_mm ev = d
        /\ ((Doble.ev_valido ev = true
             /\ Doble.factible d alto_etq gap_min gap_max max_n
                  (Doble.ev_n ev)
             /\ (forall m,
                   Doble.factible d alto_etq gap_min gap_max max_n m ->
                   (m <= Doble.ev_n ev)%Z)
             /\ Doble.ev_gap ev
                = Doble.gap_reportado d alto_etq gap_min (Doble.ev_n ev)
             /\ Doble.ev_diff_obj ev = abs (Doble.ev_gap ev - gap_obj)%float
             /\ (forall m,
                   Doble.factible d alto_etq gap_min gap_max max_n m ->
                   Doble.prefiere
                     (Doble.par_de d alto_etq gap_obj gap_min m)
                     (Doble.ev_n ev, Doble.ev_gap ev, Doble.ev_diff_obj ev)
                   = false))
            \/ (Doble.ev_valido ev = false
                /\ Doble.ev_detalle ev = Doble.SinCombinacionValida
                /\ forall m,
                     ~ Doble.factible d alto_etq gap_min gap_max max_n m))).
Proof.
  cbv zeta. split.
  - intros E. unfold Doble.evaluar_z_uniforme. cbv zeta. rewrite E.
    reflexivity.
  - intros E.
    destruct (evaluar_z_uniforme_doble z alto_etq gap_obj gap_min gap_max
                max_n E) as (ev & Hrun & Hz & Hd & Hres).
    exists ev. split; [exact Hrun|]. split; [exact Hz|].
    split; [exact Hd|]. rewrite Hd in Hres.
    destruct Hres as [(Hv & _ & Hf & Hg & Hdiff & Hmax)
                     | (Hv & Hdet & _ & _ & _ & Hnone)].
    + left. split; [exact Hv|]. split; [exact Hf|]. split; [exact Hmax|].
      split; [exact Hg|]. split; [exact Hdiff|].
      intros m Hm. specialize (Hmax m Hm).
      unfold Doble.prefiere, Doble.par_de.
      destruct (Doble.ev_n ev <? m)%Z eqn:E1;
        [apply Z.ltb_lt in E1; lia|].
      destruct (m =? Doble.ev_n ev)%Z eqn:E2; [|reflexivity].
      apply Z.eqb_eq in E2. subst m. rewrite Hdiff, Hg.
      rewrite !ltb_irrefl. cbn. rewrite andb_false_r. reflexivity.
    + right. split; [exact Hv|]. split; [exact Hdet|]. exact Hnone.
Qed.

(** Witness for C3: cylinder 116 with a 50 mm label. *)
Lemma evaluar_z_uniforme_seleccion_witness :
  exists ev,
    Doble.evaluar_z_uniforme 116 50 Doble.GAP_VERTICAL_OBJETIVO
      Doble.GAP_VERTICAL_MIN Doble.GAP_VERTICAL_MAX
      Doble.MAX_REPETICIONES_VERTICALES = Some ev
    /\ Doble.ev_n ev = 7%Z.
Proof.
  destruct (evaluar_z_uniforme_seleccion 116 50 Doble.GAP_VERTICAL_OBJETIVO
              Doble.GAP_VERTICAL_MIN Doble.GAP_VERTICAL_MAX
              Doble.MAX_REPETICIONES_VERTICALES) as [_ H].
  destruct (H eq_refl) as (ev & Hrun & _).
  exists ev. split; [exact Hrun|].
  vm_compute in Hrun. injection Hrun as <-. reflexivity.
Defined.

(** C3, counterexample to the claim as written.  Cylinder 60 has a
    circumference of 190.5 mm; with a 190 mm label the only pair of the
    claim's set is one repeat with gap [(190.5 - 190) / 1 = 0.5] (it is
    not negative, and the range is asked of [repeats > 1] only), yet the
    evaluator returns one repeat with gap [2.5]: with one repeat the
    reported gap is [max(circumference - height, gap_min)]. *)
Lemma evaluar_z_uniforme_par_ajustado :
  exists ev,
    Doble.evaluar_z_uniforme 60 190 Doble.GAP_VERTICAL_OBJETIVO
      Doble.GAP_VERTICAL_MIN Doble.GAP_VERTICAL_MAX
      Doble.MAX_REPETICIONES_VERTICALES = Some ev
    /\ Doble.ev_valido ev = true
    /\ Doble.ev_desarrollo_mm ev = 190.5%float
    /\ Doble.ev_n ev = 1%Z
    /\ Doble.factible 190.5 190 Doble.GAP_VERTICAL_MIN
         Doble.GAP_VERTICAL_MAX Doble.MAX_REPETICIONES_VERTICALES 1
    /\ (forall m,
          Doble.factible 190.5 190 Doble.GAP_VERTICAL_MIN
            Doble.GAP_VERTICAL_MAX Doble.MAX_REPETICIONES_VERTICALES m ->
          m = 1%Z)
    /\ Doble.gap_de 190.5 190 1 = 0.5%float
    /\ Doble.ev_gap ev = 2.5%float
    /\ (Doble.ev_gap ev =? Doble.gap_de 190.5 190 1)%float = false.
Proof.
  eexists. split; [vm_compute; reflexivity|].
  cbn [Doble.ev_valido Doble.ev_desarrollo_mm Doble.ev_n Doble.ev_gap].
  split; [reflexivity|]. split; [reflexivity|]. split; [reflexivity|].
  split; [|split; [|split; [|split]]]; try (vm_compute; reflexivity).
  - split; [vm_compute; split; discriminate|]. split.
    + intros k Hk. assert (k = 1%Z) as -> by lia. vm_compute. reflexivity.
    + split; [vm_compute; reflexivity | lia].
  - intros m ((H1 & H8) & Hreach & _).
    destruct (Z.eq_dec m 1) as [E | E]; [exact E|]. exfalso.
    assert (H2 : (1 <= 2 <= m)%Z) by lia.
    specialize (Hreach 2%Z H2). vm_compute in Hreach. discriminate Hreach.
Qed.

(** Where the products are rounded the feasible sets are those of the
    rounded values: cylinder 168 at 86.4 mm takes one repeat, since the
    gap of six repeats [(168 * 3.175 - 6 * 86.4) / 6] rounds below
    [gap_min]; cylinder 60 at 35.6 mm takes five repeats, since the gap
    [(190.5 - 5 * 35.6) / 5] rounds to [gap_min]; cylinder 116 takes no
    label of 368.3 mm, since [116 * 3.175] rounds below it. *)
Set Warnings "-inexact-float".
Example evaluar_z_uniforme_redondeos :
  (exists ev,
     Doble.evaluar_z_uniforme 168 86.4 Doble.GAP_VERTICAL_OBJETIVO
       Doble.GAP_VERTICAL_MIN Doble.GAP_VERTICAL_MAX
       Doble.MAX_REPETICIONES_VERTICALES = Some ev
     /\ Doble.ev_valido ev = true /\ Doble.ev_n ev = 1%Z
     /\ (Doble.gap_de (Doble.ev_desarrollo_mm ev) 86.4 6
         <? Doble.GAP_VERTICAL_MIN)%float = true)
  /\ (exists ev,
        Doble.evaluar_z_uniforme 60 35.6 Doble.GAP_VERTICAL_OBJETIVO
          Doble.GAP_VERTICAL_MIN Doble.GAP_VERTICAL_MAX
          Doble.MAX_REPETICIONES_VERTICALES = Some ev
        /\ Doble.ev_valido ev = true /\ Doble.ev_n ev = 5%Z
        /\ Doble.ev_gap ev = 2.5%float)
  /\ (exists ev,
        Doble.evaluar_z_uniforme 116 368.3 Doble.GAP_VERTICAL_OBJETIVO
          Doble.GAP_VERTICAL_MIN Doble.GAP_VERTICAL_MAX
          Doble.MAX_REPETICIONES_VERTICALES = Some ev
        /\ Doble.ev_valido ev = false /\ Doble.ev_n ev = 0%Z).
Proof.
  split; [|split]; eexists; (split; [vm_compute; reflexivity|]);
    repeat split; vm_compute; reflexivity.
Qed.
Set Warnings "inexact-float".

(** ** The search on floats *)

Lemma candidato_doble_unico (alto_etq ancho_etq : float) (unidades : Z)
    (ancho_rollo_mm : float) (alternativo : bool) (z : Z)
    (s s' : Doble.Solucion) :
  Doble.candidato_de alto_etq ancho_etq unidades ancho_rollo_mm alternativo
    z s ->
  Doble.candidato_de alto_etq ancho_etq unidades ancho_rollo_mm alternativo
    z s' ->
  s = s'.
Proof.
  intros (ev & r & m & Hev & _ & Hr & _ & Hm & ->)
         (ev' & r' & m' & Hev' & _ & Hr' & _ & Hm' & ->).
  rewrite Hev in Hev'. injection Hev' as <-.
  rewrite Hr in Hr'. injection Hr' as <-.
  rewrite Hm in Hm'. injection Hm' as <-. reflexivity.
Qed.

Lemma candidato_doble_z (alto_etq ancho_etq : float) (unidades : Z)
    (ancho_rollo_mm : float) (alternativo : bool) (z : Z)
    (s : Doble.Solucion) :
  Doble.candidato_de alto_etq ancho_etq unidades ancho_rollo_mm alternativo
    z s ->
  Doble.s_z s = z /\ Doble.s_ancho_rollo_mm s = ancho_rollo_mm
  /\ Doble.s_rollo_alternativo s = alternativo.
Proof.
  intros (ev & r & m & _ & _ & _ & _ & _ & ->). repeat split.
Qed.

(** One turn of a loop: either the cylinder has no candidate and [mejor]
    is kept, or it has one, which replaces [mejor] exactly when it has
    fewer linear meters. *)
Lemma cuerpo_comun_paso (alto_etq ancho_etq : float) (unidades : Z)
    (ancho_rollo_mm : float) (texto_v : option (option string))
    (texto_h : option string) (alternativo : bool)
    (st st' : Doble.Estado) (z : Z) :
  Doble.cuerpo_comun alto_etq ancho_etq unidades ancho_rollo_mm texto_v
    texto_h alternativo st z = Some st' ->
  (Doble.mejor st' = Doble.mejor st
   /\ forall s', ~ Doble.candidato_de alto_etq ancho_etq unidades
                     ancho_rollo_mm alternativo z s')
  \/ (exists c,
        Doble.candidato_de alto_etq ancho_etq unidades ancho_rollo_mm
          alternativo z c
        /\ match Doble.mejor st with
           | None => Doble.mejor st' = Some c
           | Some m =>
               if (Doble.s_ml c <? Doble.s_ml m)%float
               then Doble.mejor st' = Some c
               else Doble.mejor st' = Some m
           end).
Proof.
  unfold Doble.cuerpo_comun.
  destruct (Doble.evaluar_z_uniforme z alto_etq Doble.GAP_VERTICAL_OBJETIVO
              Doble.GAP_VERTICAL_MIN Doble.GAP_VERTICAL_MAX
              Doble.MAX_REPETICIONES_VERTICALES) as [ev|] eqn:Hev;
    [|discriminate].
  cbn [Doble.bind].
  destruct (Doble.ev_valido ev) eqn:Hv; cbn [negb].
  2:{ intros H. left. split.
      - destruct texto_v as [t|]; [|injection H as <-; reflexivity].
        destruct (Doble.motivo st); [injection H as <-; reflexivity|].
        destruct t; [|discriminate]. cbn [Doble.bind] in H.
        injection H as <-. reflexivity.
      - intros s' (ev' & r & m & Hev' & Hv' & _).
        rewrite Hev in Hev'. injection Hev' as <-. congruence. }
  destruct (Doble.evaluar_rollo_estandar ancho_rollo_mm ancho_etq
              Doble.GAP_HORIZONTAL_OBJETIVO Doble.BANDERA_HORIZONTAL)
    as [r|] eqn:Hr; [|discriminate].
  cbn [Doble.bind].
  destruct (Doble.etq_eje r <=? 0)%Z eqn:Hetq.
  { intros H. left. split.
    - destruct (Doble.fallback st); [injection H as <-; reflexivity|].
      destruct texto_h; [|discriminate]. cbn [Doble.bind] in H.
      injection H as <-. reflexivity.
    - intros s' (ev' & r' & m & _ & _ & Hr' & Hpos & _).
      rewrite Hr in Hr'. injection Hr' as <-.
      apply Z.leb_le in Hetq. lia. }
  cbv zeta.
  destruct (Doble.calcular_metraje_material unidades
              (Doble.ev_n ev * Doble.etq_eje r) (Doble.ev_desarrollo_mm ev)
              ancho_rollo_mm Doble.AJUSTE_DESARROLLO_REP_MM)
    as [m|] eqn:Hm; [|discriminate].
  cbn [Doble.bind]. intros H. right.
  exists (Doble.mkSolucion z (Doble.ev_n ev) (Doble.ev_desarrollo_mm ev)
            (Doble.ev_gap ev) (Doble.etq_eje r) (Doble.gap_entre r)
            (Doble.ev_n ev * Doble.etq_eje r) (Doble.repeticiones_reales m)
            (Doble.ml m) (Doble.m2 m) ancho_rollo_mm alternativo).
  split.
  - exists ev, r, m. apply Z.leb_gt in Hetq. repeat split; assumption.
  - cbn [Doble.s_ml]. unfold Doble.mejora in H.
    destruct (Doble.mejor st) as [b|] eqn:Hb.
    + destruct (Doble.ml m <? Doble.s_ml b)%float; injection H as <-.
      * reflexivity.
      * exact Hb.
    + injection H as <-. reflexivity.
Qed.

Lemma sorted_desc_prefijo (pre post : list Z) (z : Z) :
  StronglySorted (fun a b => (b < a)%Z) (pre ++ z :: post) ->
  forall y, In y pre -> (z < y)%Z.
Proof.
  induction pre as [|x pre IH]; intros Hs y Hy; [contradiction|].
  cbn [app] in Hs. inversion Hs as [|? ? Hs' Hall]; subst.
  destruct Hy as [<- | Hy].
  - rewrite Forall_forall in Hall. apply Hall. apply in_or_app.
    right. left. reflexivity.
  - apply IH; assumption.
Qed.

Lemma scan_minimo_doble (alto_etq ancho_etq : float) (unidades : Z)
    (ancho_rollo_mm : float) (texto_v : option (option string))
    (texto_h : option string) (alternativo : bool) (post : list Z) :
  forall pre st st',
    StronglySorted (fun a b => (b < a)%Z) (pre ++ post) ->
    Doble.mejor_hasta alto_etq ancho_etq unidades ancho_rollo_mm
      alternativo pre st ->
    Doble.for_each
      (Doble.cuerpo_comun alto_etq ancho_etq unidades ancho_rollo_mm
         texto_v texto_h alternativo) post st = Some st' ->
    Doble.mejor_hasta alto_etq ancho_etq unidades ancho_rollo_mm
      alternativo (pre ++ post) st'.
Proof.
  induction post as [|z post IH]; intros pre st st' Hs Hinv Hrun.
  - cbn in Hrun. injection Hrun as <-. rewrite app_nil_r. exact Hinv.
  - cbn [Doble.for_each] in Hrun.
    destruct (Doble.cuerpo_comun alto_etq ancho_etq unidades ancho_rollo_mm
                texto_v texto_h alternativo st z) as [st1|] eqn:Hbody;
      [|discriminate].
    cbn [Doble.bind] in Hrun.
    replace (pre ++ z :: post) with ((pre ++ [z]) ++ post) in *
      by (rewrite <- app_assoc; reflexivity).
    apply (IH (pre ++ [z]) st1 st' Hs); [|exact Hrun].
    assert (Hlt : forall y, In y pre -> (z < y)%Z).
    { apply (sorted_desc_prefijo pre post).
      rewrite <- app_assoc in Hs. exact Hs. }
    clear IH Hrun Hs.
    unfold Doble.mejor_hasta in *.
    destruct (cuerpo_comun_paso _ _ _ _ _ _ _ _ _ _ Hbody)
      as [[Hm Hno] | (c & Hc & Hm)].
    + (* no candidate at [z] *)
      rewrite Hm. destruct (Doble.mejor st) as [b|].
      * destruct Hinv as (Hin & Hcb & Hmin).
        split; [apply in_or_app; left; exact Hin|]. split; [exact Hcb|].
        intros z0 s0 Hz0 Hs0. apply in_app_or in Hz0 as [Hz0 | [<- | []]].
        -- exact (Hmin z0 s0 Hz0 Hs0).
        -- exfalso. exact (Hno s0 Hs0).
      * intros z0 s0 Hz0 Hs0. apply in_app_or in Hz0 as [Hz0 | [<- | []]].
        -- exact (Hinv z0 s0 Hz0 Hs0).
        -- exact (Hno s0 Hs0).
    + destruct (candidato_doble_z _ _ _ _ _ _ _ Hc) as (Hzc & _ & _).
      destruct (Doble.mejor st) as [b|].
      * destruct Hinv as (Hin & Hcb & Hmin).
        destruct (Doble.s_ml c <? Doble.s_ml b)%float eqn:Hcmp; rewrite Hm.
        -- (* the candidate replaces the best *)
           split; [apply in_or_app; right; left; symmetry; exact Hzc|].
           split; [rewrite Hzc; exact Hc|].
           intros z0 s0 Hz0 Hs0.
           apply in_app_or in Hz0 as [Hz0 | [<- | []]].
           ++ destruct (Hmin z0 s0 Hz0 Hs0) as [Hge Htie]. split.
              ** destruct (Doble.s_ml s0 <? Doble.s_ml c)%float eqn:E;
                   [|reflexivity].
                 rewrite (ltb_trans _ _ _ E Hcmp) in Hge. discriminate Hge.
              ** intros E. rewrite (eqb_ltb _ _ _ E Hcmp) in Hge.
                 discriminate Hge.
           ++ rewrite (candidato_doble_unico _ _ _ _ _ _ _ _ Hs0 Hc).
              split; [apply ltb_irrefl | intros _; lia].
        -- (* the best is kept *)
           split; [apply in_or_app; left; exact Hin|]. split; [exact Hcb|].
           intros z0 s0 Hz0 Hs0.
           apply in_app_or in Hz0 as [Hz0 | [<- | []]].
           ++ exact (Hmin z0 s0 Hz0 Hs0).
           ++ rewrite (candidato_doble_unico _ _ _ _ _ _ _ _ Hs0 Hc).
              split; [exact Hcmp|]. intros _.
              specialize (Hlt _ Hin). lia.
      * rewrite Hm.
        split; [apply in_or_app; right; left; symmetry; exact Hzc|].
        split; [rewrite Hzc; exact Hc|].
        intros z0 s0 Hz0 Hs0.
        apply in_app_or in Hz0 as [Hz0 | [<- | []]].
        -- exfalso. exact (Hinv z0 s0 Hz0 Hs0).
        -- rewrite (candidato_doble_unico _ _ _ _ _ _ _ _ Hs0 Hc).
           split; [apply ltb_irrefl | intros _; lia].
Qed.

Lemma primera_pasada_minimo (alto_etq ancho_etq : float) (unidades : Z)
    (ancho_rollo_mm : float) (st : Doble.Estado) :
  Doble.primera_pasada alto_etq ancho_etq unidades ancho_rollo_mm = Some st ->
  Doble.mejor_hasta alto_etq ancho_etq unidades ancho_rollo_mm false
    CILINDROS_FB st.
Proof.
  intros H.
  apply (scan_minimo_doble alto_etq ancho_etq unidades ancho_rollo_mm
           (Some (Doble.motivo_alto alto_etq))
           (Doble.motivo_ancho ancho_etq ancho_rollo_mm) false
           CILINDROS_FB [] (Doble.mkEstado None None None) st).
  - exact (proj2 CILINDROS_FB_sorted).
  - intros z s' [].
  - exact H.
Qed.

Lemma segunda_pasada_minimo (alto_etq ancho_etq : float) (unidades : Z)
    (st : Doble.Estado) :
  Doble.segunda_pasada alto_etq ancho_etq unidades = Some st ->
  Doble.mejor_hasta alto_etq ancho_etq unidades Doble.ROLLO_BASE_MM true
    CILINDROS_FB st.
Proof.
  intros H.
  apply (scan_minimo_doble alto_etq ancho_etq unidades Doble.ROLLO_BASE_MM
           None (Doble.motivo_ancho_330 ancho_etq) true
           CILINDROS_FB [] (Doble.mkEstado None None None) st).
  - exact (proj2 CILINDROS_FB_sorted).
  - intros z s' [].
  - exact H.
Qed.

Lemma obtener_z_sugerido_doble_minimo (alto_etq ancho_etq : float)
    (unidades : Z) (ancho_rollo_mm : option float) (s : Doble.Solucion) :
  let w := match ancho_rollo_mm with
           | Some w0 => w0
           | None => Doble.ROLLO_BASE_MM
           end in
  Doble.obtener_z_sugerido alto_etq ancho_etq unidades ancho_rollo_mm
  = Some (Some (Doble.Valido s)) ->
  Doble.minimo_del_catalogo alto_etq ancho_etq unidades
    (Doble.s_ancho_rollo_mm s) (Doble.s_rollo_alternativo s) CILINDROS_FB s
  /\ (Doble.s_rollo_alternativo s = false -> Doble.s_ancho_rollo_mm s = w)
  /\ (Doble.s_rollo_alternativo s = true ->
      Doble.s_ancho_rollo_mm s = Doble.ROLLO_BASE_MM
      /\ (w =? Doble.ROLLO_BASE_MM)%float = false
      /\ forall z s',
           In z CILINDROS_FB ->
           ~ Doble.candidato_de alto_etq ancho_etq unidades w false z s').
Proof.
  cbv zeta. unfold Doble.obtener_z_sugerido.
  set (w := match ancho_rollo_mm with
            | Some w0 => w0
            | None => Doble.ROLLO_BASE_MM
            end).
  replace (match ancho_rollo_mm with
           | Some w0 => w0
           | None => Doble.ROLLO_BASE_MM
           end) with w by reflexivity.
  destruct (Doble.primera_pasada alto_etq ancho_etq unidades w)
    as [st|] eqn:H1; [|discriminate].
  cbn [Doble.bind].
  pose proof (primera_pasada_minimo _ _ _ _ _ H1) as Hinv.
  unfold Doble.mejor_hasta in Hinv.
  destruct (Doble.mejor st) as [b|].
  - intros H. injection H as <-.
    destruct (candidato_doble_z _ _ _ _ _ _ _ (proj1 (proj2 Hinv)))
      as (_ & -> & ->).
    split; [exact Hinv|]. split; [reflexivity | discriminate].
  - destruct (w =? Doble.ROLLO_BASE_MM)%float eqn:Hw; cbn [negb].
    + unfold Doble.retorno_final.
      destruct (Doble.fallback st); [|discriminate].
      destruct (verdadero (Doble.motivo st)); discriminate.
    + destruct (Doble.segunda_pasada alto_etq ancho_etq unidades)
        as [st2|] eqn:H2; [|discriminate].
      cbn [Doble.bind].
      pose proof (segunda_pasada_minimo _ _ _ _ H2) as Hinv2.
      unfold Doble.mejor_hasta in Hinv2.
      destruct (Doble.mejor st2) as [b|].
      * intros H. injection H as <-.
        destruct (candidato_doble_z _ _ _ _ _ _ _ (proj1 (proj2 Hinv2)))
          as (_ & -> & ->).
        split; [exact Hinv2|]. split; [discriminate|].
        intros _. split; [reflexivity|]. split; [reflexivity | exact Hinv].
      * destruct (Doble.fallback st2); [discriminate|].
        unfold Doble.retorno_final.
        destruct (Doble.fallback st); [|discriminate].
        destruct (verdadero (Doble.motivo st)); discriminate.
Qed.

(** X4.  On binary64 floats, a configuration the selector returns is the
    best of the catalog on the roll it names, by the comparisons of the
    code: it is the candidate of its own cylinder, no candidate of a
    catalog cylinder on that roll compares below it in linear meters, and
    among those that compare equal it is the one of the largest cylinder.
    A configuration not flagged as alternative is on the roll asked for;
    one flagged as alternative is on the 330 mm roll, the roll asked for
    is another one, and no catalog cylinder has a candidate on it. *)
Theorem obtener_z_sugerido_minimo (alto_etq ancho_etq : float)
    (unidades : Z) (ancho_rollo_mm : option float) (s : Doble.Solucion) :
  let w := match ancho_rollo_mm with
           | Some w0 => w0
           | None => Doble.ROLLO_BASE_MM
           end in
  Doble.obtener_z_sugerido alto_etq ancho_etq unidades ancho_rollo_mm
  = Some (Some (Doble.Valido s)) ->
  Doble.minimo_del_catalogo alto_etq ancho_etq unidades
    (Doble.s_ancho_rollo_mm s) (Doble.s_rollo_alternativo s) CILINDROS_FB s
  /\ (Doble.s_rollo_alternativo s = false -> Doble.s_ancho_rollo_mm s = w)
  /\ (Doble.s_rollo_alternativo s = true ->
      Doble.s_ancho_rollo_mm s = Doble.ROLLO_BASE_MM
      /\ (w =? Doble.ROLLO_BASE_MM)%float = false
      /\ forall z s',
           In z CILINDROS_FB ->
           ~ Doble.candidato_de alto_etq ancho_etq unidades w false z s').
Proof.
  exact (obtener_z_sugerido_doble_minimo alto_etq ancho_etq unidades
           ancho_rollo_mm s).
Qed.

Set Warnings "-inexact-float".
(** Witness for X4: the label of 86.4 x 30 mm, 10000 units, on the
    standard roll; cylinder 116 with four repeats is returned. *)
Lemma obtener_z_sugerido_minimo_witness :
  exists s,
    Doble.obtener_z_sugerido 86.4 30 10000 None
    = Some (Some (Doble.Valido s))
    /\ Doble.s_z s = 116%Z /\ Doble.s_n s = 4%Z
    /\ Doble.minimo_del_catalogo 86.4 30 10000 (Doble.s_ancho_rollo_mm s)
         (Doble.s_rollo_alternativo s) CILINDROS_FB s.
Proof.
  eexists. split; [vm_compute; reflexivity|].
  split; [reflexivity|]. split; [reflexivity|].
  refine (proj1 (obtener_z_sugerido_minimo 86.4 30 10000 None _ _)).
  vm_compute. reflexivity.
Defined.
Set Warnings "inexact-float".

(** ** Rounding: signs and exact cases *)

(** [1.0 * a] is [a], for every float. *)
Lemma mul_uno_finito (s : bool) (m : positive) (e : Z) :
  bounded prec emax m e = true ->
  SFmul prec emax (S754_finite false 4503599627370496 (-52))
    (S754_finite s m e) = S754_finite s m e.
Proof.
  intros Hb. apply andb_true_iff in Hb as [Hc He].
  unfold canonical_mantissa in Hc. apply Z.eqb_eq in Hc.
  cbn [SFmul xorb Pos.mul].
  unfold binary_round_aux.
  unfold shr_fexp at 1.
  cbn [Zdigits2 digits2_pos].
  match goal with
  | |- context [fexp prec emax ?x] =>
      replace (fexp prec emax x) with e
        by (rewrite <- Hc at 1; f_equal; rewrite !Pos2Z.inj_succ; lia)
  end.
  replace (e - (-52 + e))%Z with 52%Z by lia.
  cbn [shr shr_record_of_loc iter_pos shr_1 orb shr_m loc_of_shr_record
         round_nearest_even].
  unfold shr_fexp. cbn [Zdigits2].
  replace (-52 + e + 52)%Z with e by lia.
  rewrite Hc, Z.sub_diag.
  cbn [shr shr_record_of_loc shr_m]. rewrite He. reflexivity.
Qed.

Lemma mul_uno (a : float) : (1 * a)%float = a.
Proof.
  apply Prim2SF_inj. rewrite mul_spec.
  change (Prim2SF 1) with (S754_finite false 4503599627370496 (-52)).
  pose proof (Prim2SF_valid a) as Hv.
  destruct (Prim2SF a) as [s|s| |s m e]; try reflexivity.
  apply mul_uno_finito. exact Hv.
Qed.

Lemma ltb_cero_negativo (x : float) :
  (x <? 0)%float = true -> negativo (Prim2SF x).
Proof.
  rewrite ltb_spec. change (Prim2SF 0) with (S754_zero false).
  unfold SFltb, SFcompare, negativo.
  destruct (Prim2SF x) as [s|s| |s m e]; try discriminate;
    destruct s; try discriminate; intros _; exact I.
Qed.

(** Rounding keeps the sign it is given. *)
Lemma binary_round_aux_signo (s : bool) (m e : Z) (l : location) :
  negativo (binary_round_aux prec emax s m e l) -> s = true.
Proof.
  unfold binary_round_aux.
  destruct (shr_fexp prec emax m e l) as [mrs e'].
  match goal with
  | |- context [shr_fexp prec emax ?a ?b ?c] =>
      destruct (shr_fexp prec emax a b c) as [mrs2 e2]
  end.
  destruct (shr_m mrs2); [contradiction| |contradiction].
  destruct (e2 <=? emax - prec)%Z; destruct s; cbn; tauto.
Qed.

Lemma binary_normalize_signo (m e : Z) :
  negativo (binary_normalize prec emax m e false) -> (m < 0)%Z.
Proof.
  unfold binary_normalize. destruct m as [|p|p].
  - contradiction.
  - unfold binary_round. destruct (shl_align _ _ _) as [mz ez].
    intros H. apply binary_round_aux_signo in H. discriminate H.
  - intros _. reflexivity.
Qed.

Lemma div_uno_negativo (x : spec_float) :
  negativo (SFdiv prec emax x (S754_finite false 4503599627370496 (-52))) ->
  negativo x.
Proof.
  destruct x as [s|s| |s m e]; cbn [SFdiv negativo xorb];
    try tauto; try (destruct s; cbn; tauto).
  match goal with
  | |- context [SFdiv_core_binary ?p ?q ?a ?b ?c ?d] =>
      destruct (SFdiv_core_binary p q a b c d) as [[mz ez] lz]
  end.
  intros H. apply binary_round_aux_signo in H.
  rewrite xorb_false_r in H. subst s. exact I.
Qed.

(** The size of a mantissa. *)
Lemma digits2_size (p : positive) : digits2_pos p = Pos.size p.
Proof. induction p; cbn; congruence. Qed.

Lemma bounded_cotas (m : positive) (e : Z) :
  bounded prec emax m e = true ->
  (Z.pos m < 2 ^ 53)%Z /\ (-1074 <= e)%Z
  /\ ((-1074 < e)%Z -> (2 ^ 52 <= Z.pos m)%Z).
Proof.
  intros Hb. apply andb_true_iff in Hb as [Hc _].
  unfold canonical_mantissa, fexp, SpecFloat.emin in Hc.
  apply Z.eqb_eq in Hc. rewrite digits2_size in Hc.
  change (3 - emax - prec)%Z with (-1074)%Z in Hc.
  change prec with 53%Z in Hc.
  pose proof (Pos.size_gt m) as Hgt. pose proof (Pos.size_le m) as Hle.
  apply Pos2Z.pos_lt_pos in Hgt. apply Pos2Z.pos_le_pos in Hle.
  rewrite Pos2Z.inj_pow in Hgt, Hle.
  change (Z.pos m~0) with (2 * Z.pos m)%Z in Hle.
  change (Z.pos 2) with 2%Z in Hgt, Hle.
  assert (Hsize : (Z.pos (Pos.size m) <= 53)%Z) by lia.
  split; [|split].
  - apply (Z.lt_le_trans _ _ _ Hgt). apply Z.pow_le_mono_r; lia.
  - lia.
  - intros He. assert (Hs : Z.pos (Pos.size m) = 53%Z) by lia.
    rewrite Hs in Hle. change (2 ^ 53)%Z with (2 * 2 ^ 52)%Z in Hle. lia.
Qed.

Lemma shl_align_valor (m : positive) (e e' : Z) :
  (e' <= e)%Z ->
  Z.pos (fst (shl_align m e e')) = (Z.pos m * 2 ^ (e - e'))%Z.
Proof.
  intros Hle. unfold shl_align.
  destruct (e' - e)%Z as [|d|d] eqn:Ed; try lia.
  - replace (e - e')%Z with 0%Z by lia. cbn [fst]. lia.
  - cbn [fst]. replace (e - e')%Z with (Z.pos d) by lia.
    clear Ed Hle. induction d as [|d IH] using Pos.peano_ind.
    + cbn. lia.
    + rewrite Pos.iter_succ, Pos2Z.inj_succ, Z.pow_succ_r by lia.
      rewrite Pos2Z.inj_xO, IH. ring.
Qed.

(** A difference that rounds to a negative float is the difference of a
    smaller float and a larger one. *)
Lemma sub_negativo (x y : spec_float) :
  valid_binary x = true -> valid_binary y = true ->
  negativo (SFsub prec emax x y) -> SFcompare x y = Some Lt.
Proof.
  intros Hx Hy.
  destruct x as [sx|sx| |sx mx ex], y as [sy|sy| |sy my ey];
    cbn [SFsub negativo SFcompare negb];
    try contradiction;
    try (destruct sx; destruct sy; cbn; (contradiction || reflexivity));
    try (destruct sx; cbn; (contradiction || reflexivity));
    try (destruct sy; cbn; (contradiction || reflexivity)).
  intros H. apply binary_normalize_signo in H.
  cbn [valid_binary SpecFloat.valid_binary] in Hx, Hy.
  destruct (bounded_cotas mx ex Hx) as (Hmx & Hex & Hnx).
  destruct (bounded_cotas my ey Hy) as (Hmy & Hey & Hny).
  rewrite !shl_align_valor in H by apply Z.le_min_l || apply Z.le_min_r.
  assert (Hpot : forall k, (1 <= k)%Z -> (2 <= 2 ^ k)%Z).
  { intros k Hk. change 2%Z with (2 ^ 1)%Z at 1.
    apply Z.pow_le_mono_r; lia. }
  destruct (Z.compare_spec ex ey) as [Heq | Hlt | Hgt].
  - subst ey. rewrite Z.min_id, Z.sub_diag in H.
    change (2 ^ 0)%Z with 1%Z in H. rewrite !Z.mul_1_r in H.
    change (Pos.compare_cont Eq mx my) with (Pos.compare mx my).
    destruct sx, sy; cbn [cond_Zopp] in H; try reflexivity; try lia.
    + rewrite Pos.compare_antisym.
      assert (E : (my ?= mx)%positive = Lt) by (apply Pos.compare_lt_iff; lia).
      rewrite E. reflexivity.
    + assert (E : (mx ?= my)%positive = Lt) by (apply Pos.compare_lt_iff; lia).
      rewrite E. reflexivity.
  - rewrite Z.min_l, Z.sub_diag in H by lia.
    change (2 ^ 0)%Z with 1%Z in H. rewrite Z.mul_1_r in H.
    specialize (Hpot (ey - ex)%Z ltac:(lia)).
    specialize (Hny ltac:(lia)).
    destruct sx, sy; cbn [cond_Zopp] in H; try reflexivity; nia.
  - rewrite Z.min_r, Z.sub_diag in H by lia.
    change (2 ^ 0)%Z with 1%Z in H. rewrite Z.mul_1_r in H.
    specialize (Hpot (ex - ey)%Z ltac:(lia)).
    specialize (Hnx ltac:(lia)).
    destruct sx, sy; cbn [cond_Zopp] in H; try reflexivity; nia.
Qed.

Lemma shr_1_m (mrs : shr_record) :
  (0 <= shr_m mrs)%Z -> shr_m (shr_1 mrs) = (shr_m mrs / 2)%Z.
Proof.
  destruct mrs as [m r s]. cbn [shr_m]. intros Hm.
  destruct m as [|p|p]; [reflexivity| |lia].
  destruct p as [p|p|]; cbn [shr_1 shr_m].
  - rewrite Pos2Z.inj_xI. apply Z.div_unique with 1%Z; lia.
  - rewrite Pos2Z.inj_xO. apply Z.div_unique with 0%Z; lia.
  - reflexivity.
Qed.

Lemma iter_pos_shr_1_m (p : positive) :
  forall mrs, (0 <= shr_m mrs)%Z ->
              shr_m (iter_pos shr_1 p mrs) = (shr_m mrs / 2 ^ Z.pos p)%Z.
Proof.
  induction p as [p IH|p IH|]; intros mrs Hm; cbn [iter_pos].
  - assert (H1 : (0 <= shr_m (shr_1 mrs))%Z)
      by (rewrite shr_1_m by exact Hm; apply Z.div_pos; lia).
    assert (H2 : (0 <= shr_m (iter_pos shr_1 p (shr_1 mrs)))%Z)
      by (rewrite IH by exact H1; apply Z.div_pos; lia).
    rewrite IH by exact H2. rewrite IH by exact H1.
    rewrite shr_1_m by exact Hm.
    rewrite !Z.div_div by lia.
    f_equal. change 2%Z with (2 ^ 1)%Z at 1.
    rewrite <- !Z.pow_add_r by lia. f_equal. lia.
  - assert (H2 : (0 <= shr_m (iter_pos shr_1 p mrs))%Z)
      by (rewrite IH by exact Hm; apply Z.div_pos; lia).
    rewrite IH by exact H2. rewrite IH by exact Hm.
    rewrite !Z.div_div by lia.
    f_equal. rewrite <- Z.pow_add_r by lia. f_equal. lia.
  - apply shr_1_m, Hm.
Qed.

Lemma shr_record_of_loc_m (m : Z) (l : location) :
  shr_m (shr_record_of_loc m l) = m.
Proof. destruct l as [|[| |]]; reflexivity. Qed.

(** Shifting a positive mantissa to its format leaves it positive. *)
Lemma shr_fexp_positivo (m : positive) (e : Z) (l : location) :
  (-1074 <= e)%Z ->
  (0 < shr_m (fst (shr_fexp prec emax (Z.pos m) e l)))%Z
  /\ (-1074 <= snd (shr_fexp prec emax (Z.pos m) e l))%Z.
Proof.
  intros He. unfold shr_fexp, shr. cbn [Zdigits2].
  unfold fexp, SpecFloat.emin.
  change (3 - emax - prec)%Z with (-1074)%Z. change prec with 53%Z.
  rewrite digits2_size.
  destruct (Z.max (Z.pos (Pos.size m) + e - 53) (-1074) - e)%Z
    as [|k|k] eqn:Ek; cbn [fst snd]; rewrite ?shr_record_of_loc_m;
    try (split; lia).
  rewrite iter_pos_shr_1_m by (rewrite shr_record_of_loc_m; lia).
  rewrite shr_record_of_loc_m. split; [|lia].
  assert (Hk : (Z.pos k < Z.pos (Pos.size m))%Z) by lia.
  pose proof (Pos.size_le m) as Hle. apply Pos2Z.pos_le_pos in Hle.
  rewrite Pos2Z.inj_pow in Hle.
  change (Z.pos m~0) with (2 * Z.pos m)%Z in Hle.
  change (Z.pos 2) with 2%Z in Hle.
  apply Z.div_str_pos. split; [apply Z.pow_pos_nonneg; lia|].
  assert (H2 : (2 * 2 ^ Z.pos k <= 2 ^ Z.pos (Pos.size m))%Z).
  { rewrite <- Z.pow_succ_r by lia. apply Z.pow_le_mono_r; lia. }
  lia.
Qed.

Lemma binary_round_aux_positivo (m : positive) (e : Z) (l : location) :
  (-1074 <= e)%Z ->
  positivo_sf (binary_round_aux prec emax false (Z.pos m) e l).
Proof.
  intros He. unfold binary_round_aux.
  destruct (shr_fexp_positivo m e l He) as [H1 H2].
  destruct (shr_fexp prec emax (Z.pos m) e l) as [mrs e'].
  cbn [fst snd] in H1, H2.
  assert (Hr : (0 < round_nearest_even (shr_m mrs) (loc_of_shr_record mrs))%Z).
  { unfold round_nearest_even.
    destruct (loc_of_shr_record mrs) as [|[| |]]; try lia.
    destruct (Z.even (shr_m mrs)); lia. }
  destruct (round_nearest_even (shr_m mrs) (loc_of_shr_record mrs))
    as [|m2|m2]; try lia.
  destruct (shr_fexp_positivo m2 e' loc_Exact H2) as [H3 _].
  destruct (shr_fexp prec emax (Z.pos m2) e' loc_Exact) as [mrs2 e2].
  cbn [fst] in H3.
  destruct (shr_m mrs2); try lia.
  destruct (e2 <=? emax - prec)%Z; exact I.
Qed.

Lemma shl_align_exponente (m : positive) (e e' : Z) :
  (-1074 <= e)%Z -> (-1074 <= e')%Z ->
  (-1074 <= snd (shl_align m e e'))%Z.
Proof.
  intros He He'. unfold shl_align.
  destruct (e' - e)%Z; cbn [snd]; assumption.
Qed.

Lemma binary_round_positivo (m : positive) (e : Z) :
  (-1074 <= e)%Z -> positivo_sf (binary_round prec emax false m e).
Proof.
  intros He. unfold binary_round.
  pose proof (shl_align_exponente m e
                (fexp prec emax (Z.pos (digits2_pos m) + e)) He) as Hs.
  destruct (shl_align m e (fexp prec emax (Z.pos (digits2_pos m) + e)))
    as [mz ez].
  apply binary_round_aux_positivo. apply Hs.
  unfold fexp, SpecFloat.emin. change (3 - emax - prec)%Z with (-1074)%Z.
  lia.
Qed.

Lemma positivo_sf_ltb (x : float) :
  positivo_sf (Prim2SF x) -> (0 <? x)%float = true.
Proof.
  rewrite ltb_spec. change (Prim2SF 0) with (S754_zero false).
  unfold positivo_sf.
  destruct (Prim2SF x) as [s|s| |s m e]; try contradiction;
    destruct s; try contradiction; reflexivity.
Qed.

(** The sum of two floats above zero is above zero. *)
Lemma suma_positiva (a b : float) :
  (0 <? a)%float = true -> (0 <? b)%float = true ->
  (0 <? a + b)%float = true.
Proof.
  intros Ha Hb. apply positivo_sf_ltb. rewrite add_spec.
  pose proof (Prim2SF_valid a) as Hva. pose proof (Prim2SF_valid b) as Hvb.
  destruct (positivo_clase a Ha) as [(ma & ea & Ea) | Ea];
    destruct (positivo_clase b Hb) as [(mb & eb & Eb) | Eb];
    rewrite Ea, Eb in *; try exact I.
  cbn [SFadd cond_Zopp].
  cbn [valid_binary SpecFloat.valid_binary] in Hva, Hvb.
  destruct (bounded_cotas ma ea Hva) as (_ & Hea & _).
  destruct (bounded_cotas mb eb Hvb) as (_ & Heb & _).
  cbn [Z.add binary_normalize].
  apply binary_round_positivo. lia.
Qed.

(** ** The horizontal fit on floats *)

Lemma positivo_no_negativo (x : float) :
  (0 <? x)%float = true -> no_negativo x.
Proof.
  intros H. unfold no_negativo.
  destruct (positivo_clase x H) as [(m & e & ->) | ->]; exact I.
Qed.

Lemma py_max_0_no_negativo (x : float) : no_negativo (Doble.py_max 0 x).
Proof.
  unfold Doble.py_max. destruct (0 <? x)%float eqn:E.
  - apply positivo_no_negativo, E.
  - exact I.
Qed.

Lemma mantisa_positiva (m : positive) (e : Z) :
  (0 < inject_Z (Zpos m) * Qpower 2 e)%Q.
Proof.
  apply Qmult_lt_0_compat; [reflexivity|].
  apply Qpower_0_lt. reflexivity.
Qed.

Lemma racional_no_negativo (x : float) (q : Q) :
  no_negativo x -> Doble.racional x = Some q -> (0 <= q)%Q.
Proof.
  unfold no_negativo, Doble.racional.
  destruct (Prim2SF x) as [s|s| |s m e]; try discriminate.
  - intros _ H. injection H as <-. apply Qle_refl.
  - destruct s; [contradiction|]. intros _ H. injection H as <-.
    apply Qlt_le_weak, mantisa_positiva.
Qed.

(** The floor of a quotient of a non-negative float by a positive one is
    taken whenever the dividend is finite, and is not negative. *)
Lemma floordiv_int_positivo (a b : float) :
  no_negativo a -> (0 <? b)%float = true ->
  (forall c, Doble.floordiv_int a b = Some c -> (0 <= c)%Z)
  /\ (Doble.racional a <> None -> exists c, Doble.floordiv_int a b = Some c).
Proof.
  intros Ha Hb. unfold Doble.floordiv_int.
  destruct (Doble.racional a) as [qa|] eqn:Eqa.
  2:{ split; [discriminate | intros H; contradiction]. }
  pose proof (racional_no_negativo a qa Ha Eqa) as Hqa.
  destruct (positivo_clase b Hb) as [(m & e & Eb) | Eb].
  - assert (Erb : Doble.racional b = Some (inject_Z (Z.pos m) * 2 ^ e)%Q)
      by (unfold Doble.racional; rewrite Eb; reflexivity).
    rewrite Erb.
    pose proof (mantisa_positiva m e) as Hqb.
    destruct (Qeq_bool (inject_Z (Z.pos m) * 2 ^ e) 0) eqn:E0.
    { apply Qeq_bool_eq in E0. rewrite E0 in Hqb.
      exfalso. apply (Qlt_irrefl 0), Hqb. }
    split; [|intros _; eexists; reflexivity].
    intros c H.
    replace c with (Qfloor (qa / (inject_Z (Z.pos m) * 2 ^ e)))
      by congruence.
    change 0%Z with (Qfloor 0). apply Qfloor_resp_le.
    apply Qle_shift_div_l; [exact Hqb|].
    rewrite Qmult_0_l. exact Hqa.
  - assert (Erb : Doble.racional b = None)
      by (unfold Doble.racional; rewrite Eb; reflexivity).
    rewrite Erb, Eb. split.
    + intros c. destruct (Qeq_bool qa 0); [intros H; injection H as <-; lia|].
      apply Qle_bool_iff in Hqa. rewrite Hqa. cbn.
      intros H; injection H as <-; lia.
    + intros _. destruct (Qeq_bool qa 0); [eexists; reflexivity|].
      destruct (Bool.eqb _ _); eexists; reflexivity.
Qed.

(** The refinement holds as soon as the roll width and the step are above
    zero. *)
Lemma evaluar_rollo_estandar_doble (roll label gap flag : float) :
  (0 <? roll)%float = true ->
  (0 <? label + gap)%float = true ->
  Doble.evaluar_rollo_estandar roll label gap flag
  = option_map rollo_de_spec (Doble.horizontal_fit_spec roll label gap flag).
Proof.
  intros Hroll Hpaso.
  unfold Doble.evaluar_rollo_estandar, Doble.horizontal_fit_spec.
  rewrite (positivo_no_leb _ Hroll). cbv zeta.
  rewrite (positivo_no_leb _ Hpaso).
  destruct (floordiv_int_positivo (Doble.py_max 0 (roll - flag))
              (label + gap) (py_max_0_no_negativo _) Hpaso) as [Hc1 _].
  destruct (Doble.floordiv_int (Doble.py_max 0 (roll - flag)) (label + gap))
    as [c1|] eqn:E1; [|reflexivity].
  cbn [Doble.bind]. specialize (Hc1 c1 eq_refl).
  rewrite (Z.max_r 0 c1 Hc1).
  destruct (Z.eq_dec c1 0) as [-> | Hne].
  - cbn [Z.leb Z.compare Z.eqb].
    destruct (floordiv_int_positivo roll (label + gap)
                (positivo_no_negativo _ Hroll) Hpaso) as [Hc2 _].
    destruct (Doble.floordiv_int roll (label + gap)) as [c2|] eqn:E2;
      [|reflexivity].
    cbn [Doble.bind]. specialize (Hc2 c2 eq_refl).
    rewrite (Z.max_r 0 c2 Hc2).
    destruct (Z.eq_dec c2 0) as [-> | Hne2].
    + cbn [Z.leb Z.compare Z.eqb andb].
      destruct (label <=? roll)%float.
      * cbn [Doble.bind]. rewrite Hroll.
        unfold Doble.truediv. rewrite (positivo_no_cero _ Hroll). reflexivity.
      * cbn [Z.ltb Z.compare Doble.bind]. rewrite Hroll.
        unfold Doble.truediv. rewrite (positivo_no_cero _ Hroll). reflexivity.
    + assert (Hle : (c2 <=? 0)%Z = false) by (apply Z.leb_gt; lia).
      assert (Heq : (c2 =? 0)%Z = false) by (apply Z.eqb_neq; lia).
      rewrite Hle, Heq. cbn [andb].
      destruct (1 <? c2)%Z eqn:E12.
      * unfold Doble.truediv_int.
        assert (H10 : (c2 - 1 =? 0)%Z = false)
          by (apply Z.eqb_neq; apply Z.ltb_lt in E12; lia).
        rewrite H10. cbn [Doble.bind]. rewrite Hroll.
        unfold Doble.truediv. rewrite (positivo_no_cero _ Hroll). reflexivity.
      * cbn [Doble.bind]. rewrite Hroll.
        unfold Doble.truediv. rewrite (positivo_no_cero _ Hroll). reflexivity.
  - assert (Hle : (c1 <=? 0)%Z = false) by (apply Z.leb_gt; lia).
    assert (Heq : (c1 =? 0)%Z = false) by (apply Z.eqb_neq; lia).
    rewrite Hle, Heq. cbn [Doble.bind andb].
    rewrite ?Hle, ?Heq. cbn [andb].
    destruct (1 <? c1)%Z eqn:E12.
    + unfold Doble.truediv_int.
      assert (H10 : (c1 - 1 =? 0)%Z = false)
        by (apply Z.eqb_neq; apply Z.ltb_lt in E12; lia).
      rewrite H10. cbn [Doble.bind].
      destruct (0 <? Doble.py_max 0 (roll - flag))%float eqn:Eu.
      * unfold Doble.truediv. rewrite (positivo_no_cero _ Eu). reflexivity.
      * reflexivity.
    + cbn [Doble.bind].
      destruct (0 <? Doble.py_max 0 (roll - flag))%float eqn:Eu.
      * unfold Doble.truediv. rewrite (positivo_no_cero _ Eu). reflexivity.
      * reflexivity.
Qed.

(** C6 (amended).  On binary64 floats, for a roll width, a label width
    and a gap that compare above zero, the horizontal fit is the one of the
    specification's procedure, field by field, with the count taken as the
    floor of the exact quotient of the two floats (Python's floor division)
    and the leftover widths clamped at 0: usable width = roll width minus
    the flag margin clamped at 0, count = the whole steps
    [label_width + gap] in it; if that is 0, the same with the full roll
    width; if still 0 and the label is not wider than the usable width, one
    column whose gap is the whole leftover; with more than one column the
    gap is the leftover divided by [across_count - 1]; the utilization is
    [across_count * label_width / usable_width * 100], or 0 when the usable
    width is not above 0.  The evaluator returns whenever the roll width
    and the usable width are finite. *)
Theorem evaluar_rollo_estandar_refines_spec (roll label gap flag : float) :
  (0 <? roll)%float = true ->
  (0 <? label)%float = true ->
  (0 <? gap)%float = true ->
  Doble.evaluar_rollo_estandar roll label gap flag
  = option_map rollo_de_spec (Doble.horizontal_fit_spec roll label gap flag)
  /\ (Doble.racional roll <> None ->
      Doble.racional (Doble.py_max 0 (roll - flag)) <> None ->
      exists r, Doble.evaluar_rollo_estandar roll label gap flag = Some r).
Proof.
  intros Hroll Hlabel Hgap.
  pose proof (suma_positiva label gap Hlabel Hgap) as Hpaso. split.
  - exact (evaluar_rollo_estandar_doble roll label gap flag Hroll Hpaso).
  - intros Hf1 Hf2.
    rewrite (evaluar_rollo_estandar_doble roll label gap flag Hroll Hpaso).
    unfold Doble.horizontal_fit_spec.
    destruct (floordiv_int_positivo (Doble.py_max 0 (roll - flag))
                (label + gap) (py_max_0_no_negativo _) Hpaso) as [_ Hc1].
    destruct (Hc1 Hf2) as (c1 & ->). cbn [Doble.bind].
    destruct (c1 =? 0)%Z.
    + destruct (floordiv_int_positivo roll (label + gap)
                  (positivo_no_negativo _ Hroll) Hpaso) as [_ Hc2].
      destruct (Hc2 Hf1) as (c2 & ->). cbn [Doble.bind option_map].
      eexists. reflexivity.
    + cbn [Doble.bind option_map]. eexists. reflexivity.
Qed.

Set Warnings "-inexact-float".

(** Witness for C6: a 30 mm label on the 330 mm roll, nine across. *)
Lemma evaluar_rollo_estandar_refines_spec_witness :
  Doble.evaluar_rollo_estandar 330 30 2.7 20
  = option_map rollo_de_spec (Doble.horizontal_fit_spec 330 30 2.7 20)
  /\ exists r, Doble.evaluar_rollo_estandar 330 30 2.7 20 = Some r
               /\ Doble.etq_eje r = 9%Z.
Proof.
  destruct (evaluar_rollo_estandar_refines_spec 330 30 2.7 20 eq_refl eq_refl
              eq_refl) as [H _].
  split; [exact H|]. eexists. split; vm_compute; reflexivity.
Defined.

(** C6, counterexample to the claim as written.  A 3.5 mm label with a
    2.7 mm gap on the 330 mm roll with a 20 mm flag: the usable width is
    310 and the quotient [310 / (3.5 + 2.7)] is 50, both in decimals and as
    the rounded quotient of the floats, so the claim's
    [floor(usable_width / (label_width + gap))] is 50; the evaluator puts
    49 across, because the float [3.5 + 2.7] is just above 6.2 and the
    floor division takes the floor of the exact quotient. *)
Lemma evaluar_rollo_estandar_cociente_redondeado :
  exists r,
    Doble.evaluar_rollo_estandar 330 3.5 2.7 20 = Some r
    /\ Doble.etq_eje r = 49%Z
    /\ Doble.ancho_util r = Some 310%float
    /\ (310 / (3.5 + 2.7))%float = 50%float
    /\ Doble.py_int (310 / (3.5 + 2.7))%float = Some 50%Z
    /\ Qfloor (310 / ((35 # 10) + (27 # 10)))%Q = 50%Z.
Proof.
  eexists. split; [vm_compute; reflexivity|].
  repeat split; vm_compute; reflexivity.
Qed.

(** Where the sum [label_width + gap] rounds to a divisor of the usable
    width the count is the quotient: a label of 152.3 mm gives a step of
    155 and two across. *)
Example evaluar_rollo_estandar_redondeos :
  exists r, Doble.evaluar_rollo_estandar 330 152.3 2.7 20 = Some r
            /\ Doble.etq_eje r = 2%Z
            /\ (152.3 + 2.7 =? 155)%float = true.
Proof.
  eexists. split; [vm_compute; reflexivity|].
  split; vm_compute; reflexivity.
Qed.

Set Warnings "inexact-float".

(** ** One repeat is always accepted, on floats *)

(** With a circumference that does not compare below the height, the
    tests of the loop at one repeat pass. *)
Lemma una_repeticion (d a : float) :
  (d <? a)%float = false ->
  (d <? Doble.float_de_int 1 * a)%float = false
  /\ (Doble.gap_de d a 1 <? 0)%float = false.
Proof.
  intros H. unfold Doble.gap_de.
  change (Doble.float_de_int 1) with 1%float.
  rewrite mul_uno. split; [exact H|].
  destruct ((d - a) / 1 <? 0)%float eqn:E; [|reflexivity].
  apply ltb_cero_negativo in E. rewrite div_spec in E.
  change (Prim2SF 1) with (S754_finite false 4503599627370496 (-52)) in E.
  apply div_uno_negativo in E. rewrite sub_spec in E.
  apply sub_negativo in E; try apply Prim2SF_valid.
  rewrite ltb_spec in H. unfold SFltb in H. rewrite E in H. discriminate H.
Qed.

(** X3.  On binary64 floats, one repeat is always accepted: with a repeat
    bound of at least 1 the vertical fit is valid exactly when the
    circumference [float(z) * 3.175] does not compare below the label
    height, whatever the gap limits, and it then reports between one repeat
    and the bound; the detail that no combination is valid is only produced
    by a repeat bound below 1.  An invalid fit reports 0 repeats and a gap
    of 0.  The evaluator returns on every input. *)
Theorem evaluar_z_uniforme_valido_sii (z : Z)
    (alto_etq gap_obj gap_min gap_max : float) (max_n : Z) :
  exists ev,
    Doble.evaluar_z_uniforme z alto_etq gap_obj gap_min gap_max max_n
    = Some ev
    /\ ((1 <= max_n)%Z ->
        (Doble.ev_valido ev = true
         <-> (Doble.float_de_int z * Doble.FACTOR_CILINDRO_A_MM
              <? alto_etq)%float = false)
        /\ Doble.ev_detalle ev <> Doble.SinCombinacionValida
        /\ (Doble.ev_valido ev = true ->
            (1 <= Doble.ev_n ev <= max_n)%Z))
    /\ ((max_n < 1)%Z -> Doble.ev_valido ev = false)
    /\ (Doble.ev_valido ev = false ->
        Doble.ev_n ev = 0%Z /\ Doble.ev_gap ev = 0%float).
Proof.
  destruct (Doble.float_de_int z * Doble.FACTOR_CILINDRO_A_MM
            <? alto_etq)%float eqn:Hd.
  - unfold Doble.evaluar_z_uniforme. cbv zeta. rewrite Hd.
    eexists. split; [reflexivity|].
    cbn [Doble.ev_valido Doble.ev_detalle Doble.ev_n Doble.ev_gap].
    split; [intros _; split; [|split]|split].
    + split; discriminate.
    + discriminate.
    + discriminate.
    + reflexivity.
    + intros _. split; reflexivity.
  - destruct (evaluar_z_uniforme_doble z alto_etq gap_obj gap_min gap_max
                max_n Hd)
      as (ev & Hrun & _ & Hdes
          & [(Hv & Hdet & Hf & _) | (Hv & _ & Hn & Hg & _ & Hnone)]).
    + exists ev. split; [exact Hrun|]. destruct Hf as (Hr & _).
      split; [intros _; split; [|split]|split].
      * split; auto.
      * rewrite Hdet. discriminate.
      * intros _. exact Hr.
      * intros Hmax. lia.
      * intros Hfalse. congruence.
    + exists ev. split; [exact Hrun|].
      split; [|split; [intros _; exact Hv | intros _; split; assumption]].
      intros Hmax. exfalso. apply (Hnone 1%Z). rewrite Hdes.
      destruct (una_repeticion _ _ Hd) as [H1 H2].
      split; [lia|]. split; [|split; [exact H2 | intros H; lia]].
      intros k Hk. assert (k = 1%Z) as -> by lia. exact H1.
Qed.

(** ** The row of a component with no quantity *)

Lemma evaluar_z_uniforme_valido_n (z : Z)
    (alto_etq gap_obj gap_min gap_max : float) (max_n : Z)
    (ev : Doble.EvaluacionZUniforme) :
  Doble.evaluar_z_uniforme z alto_etq gap_obj gap_min gap_max max_n
  = Some ev ->
  Doble.ev_valido ev = true ->
  (1 <= Doble.ev_n ev)%Z
  /\ Doble.ev_desarrollo_mm ev
     = (Doble.float_de_int z * Doble.FACTOR_CILINDRO_A_MM)%float.
Proof.
  intros Hrun Hv.
  destruct (Doble.float_de_int z * Doble.FACTOR_CILINDRO_A_MM
            <? alto_etq)%float eqn:Hd.
  - unfold Doble.evaluar_z_uniforme in Hrun. cbv zeta in Hrun.
    rewrite Hd in Hrun. injection Hrun as <-. discriminate Hv.
  - destruct (evaluar_z_uniforme_doble z alto_etq gap_obj gap_min gap_max
                max_n Hd)
      as (ev' & Hrun' & _ & Hdes & Hres).
    rewrite Hrun in Hrun'. injection Hrun' as <-.
    split; [|exact Hdes].
    destruct Hres as [(_ & _ & ((H1 & _) & _) & _) | (Hv' & _)];
      [exact H1 | congruence].
Qed.

Lemma CILINDROS_FB_desarrollo (z : Z) :
  In z CILINDROS_FB ->
  (Doble.float_de_int z * Doble.FACTOR_CILINDRO_A_MM <=? 0)%float = false.
Proof.
  unfold CILINDROS_FB. cbn [In]. intros H.
  repeat (destruct H as [<- | H]; [vm_compute; reflexivity|]).
  contradiction.
Qed.

Lemma evaluar_rollo_estandar_rollo_positivo
    (ancho_mm ancho_etq gap_h_usado bandera_mm : float)
    (r : Doble.EvaluacionRollo) :
  Doble.evaluar_rollo_estandar ancho_mm ancho_etq gap_h_usado bandera_mm
  = Some r ->
  (0 < Doble.etq_eje r)%Z ->
  (ancho_mm <=? 0)%float = false.
Proof.
  unfold Doble.evaluar_rollo_estandar.
  destruct (ancho_mm <=? 0)%float; [|reflexivity].
  intros H. injection H as <-. cbn. lia.
Qed.

(** The material usage recorded in a candidate of a catalog cylinder is
    computed, not the all-zero record of the guard. *)
Lemma candidato_doble_metraje (alto_etq ancho_etq : float) (unidades : Z)
    (ancho_rollo_mm : float) (alternativo : bool) (z : Z)
    (s : Doble.Solucion) :
  In z CILINDROS_FB ->
  Doble.candidato_de alto_etq ancho_etq unidades ancho_rollo_mm alternativo
    z s ->
  (1 <= Doble.s_etq_repeat s)%Z
  /\ Doble.int_truediv unidades (Doble.s_etq_repeat s)
     = Some (Doble.s_repeticiones s)
  /\ Doble.s_ml s
     = ((Doble.s_repeticiones s * Doble.s_desarrollo_mm s
         + Doble.s_repeticiones s * Doble.AJUSTE_DESARROLLO_REP_MM)
        / 1000)%float
  /\ Doble.s_m2 s
     = (Doble.s_ml s * (Doble.s_ancho_rollo_mm s / 1000))%float.
Proof.
  intros Hz (ev & r & m & Hev & Hv & Hr & Hpos & Hm & ->).
  cbn [Doble.s_etq_repeat Doble.s_repeticiones Doble.s_ml Doble.s_m2
         Doble.s_desarrollo_mm Doble.s_ancho_rollo_mm].
  destruct (evaluar_z_uniforme_valido_n _ _ _ _ _ _ _ Hev Hv) as [Hn Hd].
  assert (Hk : (1 <= Doble.ev_n ev * Doble.etq_eje r)%Z) by nia.
  split; [exact Hk|].
  unfold Doble.calcular_metraje_material in Hm.
  assert (E1 : (Doble.ev_n ev * Doble.etq_eje r <=? 0)%Z = false)
    by (apply Z.leb_gt; lia).
  rewrite E1, Hd, (CILINDROS_FB_desarrollo z Hz),
    (evaluar_rollo_estandar_rollo_positivo _ _ _ _ _ Hr Hpos) in Hm.
  cbn [orb] in Hm.
  destruct (Doble.int_truediv unidades (Doble.ev_n ev * Doble.etq_eje r))
    as [rep|]; [|discriminate].
  cbn [Doble.bind] in Hm. injection Hm as <-.
  cbn [Doble.repeticiones_reales Doble.ml Doble.m2].
  rewrite Hd. repeat split.
Qed.

(** C9, counterexample to the claim as written.  The optimizer
    [obtener_z_sugerido] makes no substitution: called with a quantity of
    0 for a 50 x 30 mm label, every cylinder needs 0 linear meters, so the
    first of the scan is kept, cylinder 168 with 8 repeats and 0 meters;
    called with a quantity of 1 it selects cylinder 116 with 7 repeats. *)
Lemma obtener_z_sugerido_cero_sin_sustitucion :
  exists s0 s1,
    Doble.obtener_z_sugerido 50 30 0 None = Some (Some (Doble.Valido s0))
    /\ Doble.obtener_z_sugerido 50 30 1 None = Some (Some (Doble.Valido s1))
    /\ Doble.s_z s0 = 168%Z /\ Doble.s_n s0 = 8%Z
    /\ Doble.s_repeticiones s0 = 0%float
    /\ Doble.s_ml s0 = 0%float /\ Doble.s_m2 s0 = 0%float
    /\ Doble.s_z s1 = 116%Z /\ Doble.s_n s1 = 7%Z
    /\ (0 <? Doble.s_ml s1)%float = true
    /\ (0 <? Doble.s_m2 s1)%float = true.
Proof.
  eexists. eexists.
  split; [vm_compute; reflexivity|]. split; [vm_compute; reflexivity|].
  repeat split.
Qed.

(** C9 (amended).  The substitution is made by the row function
    [calcular_z_y_metraje]: with a quantity of 0 it returns what it returns
    with a quantity of 1, and, if the label has its two measures, that is
    the row built from the result of the optimizer called with 1 unit.  If
    that result is a configuration, the row carries its cylinder, repeats
    and across-count, and its linear meters and area rounded to two
    decimals; the configuration is that of one unit: its revolutions are
    [1 / labels-per-revolution], its linear meters
    [(revolutions * circumference + revolutions * 0.75) / 1000] and its
    area the linear meters times the roll width in meters. *)
Theorem calcular_z_y_metraje_cero (alto ancho : float)
    (nombre_componente codigo : string) :
  let w := match Doble.extraer_ancho_rollo_mm nombre_componente with
           | Some w0 => w0
           | None => Doble.ROLLO_BASE_MM
           end in
  Doble.calcular_z_y_metraje alto ancho 0 nombre_componente codigo
  = Doble.calcular_z_y_metraje alto ancho 1 nombre_componente codigo
  /\ ((alto =? 0)%float || (ancho =? 0)%float = false ->
      Doble.calcular_z_y_metraje alto ancho 0 nombre_componente codigo
      = Doble.bind (Doble.obtener_z_sugerido alto ancho 1 (Some w))
          (Doble.fila_de_resultado alto ancho nombre_componente codigo w))
  /\ (forall s,
        (alto =? 0)%float || (ancho =? 0)%float = false ->
        Doble.obtener_z_sugerido alto ancho 1 (Some w)
        = Some (Some (Doble.Valido s)) ->
        (exists fila,
           Doble.calcular_z_y_metraje alto ancho 0 nombre_componente codigo
           = Some (fila, None)
           /\ Doble.Z_Sugerido fila = Some (Doble.s_z s)
           /\ Doble.n_vertical fila = Some (Doble.s_n s)
           /\ Doble.etq_eje_horizontal fila = Some (Doble.s_etq_eje s)
           /\ Doble.Ancho_rollo_mm fila = Doble.s_ancho_rollo_mm s
           /\ Doble.ML_sin_merma fila
              = Some (Doble.py_round (Doble.s_ml s) 2)
           /\ Doble.M2_sin_merma fila
              = Some (Doble.py_round (Doble.s_m2 s) 2))
        /\ (1 <= Doble.s_etq_repeat s)%Z
        /\ Doble.int_truediv 1 (Doble.s_etq_repeat s)
           = Some (Doble.s_repeticiones s)
        /\ Doble.s_ml s
           = ((Doble.s_repeticiones s * Doble.s_desarrollo_mm s
               + Doble.s_repeticiones s * Doble.AJUSTE_DESARROLLO_REP_MM)
              / 1000)%float
        /\ Doble.s_m2 s
           = (Doble.s_ml s * (Doble.s_ancho_rollo_mm s / 1000))%float).
Proof.
  cbv zeta.
  set (w := match Doble.extraer_ancho_rollo_mm nombre_componente with
            | Some w0 => w0
            | None => Doble.ROLLO_BASE_MM
            end).
  assert (Hcero :
    (alto =? 0)%float || (ancho =? 0)%float = false ->
    Doble.calcular_z_y_metraje alto ancho 0 nombre_componente codigo
    = Doble.bind (Doble.obtener_z_sugerido alto ancho 1 (Some w))
        (Doble.fila_de_resultado alto ancho nombre_componente codigo w)).
  { intros Hm. unfold Doble.calcular_z_y_metraje. cbv zeta. fold w.
    rewrite Hm. reflexivity. }
  split; [reflexivity|]. split; [exact Hcero|].
  intros s Hm Hs.
  destruct (obtener_z_sugerido_doble_minimo alto ancho 1 (Some w) s Hs)
    as ((Hin & Hc & _) & _).
  split.
  - rewrite (Hcero Hm), Hs. cbn [Doble.bind Doble.fila_de_resultado].
    eexists. split; [reflexivity|]. repeat split.
  - exact (candidato_doble_metraje _ _ _ _ _ _ _ Hin Hc).
Qed.

Set Warnings "-inexact-float".

(** The row of a 50 x 30 mm label with a quantity of 0 on a 280 mm roll:
    cylinder 116, 7 repeats, 7 across, and, of the linear meters and area
    of one unit, what is left after rounding to two decimals. *)
Example calcular_z_y_metraje_cero_fila :
  exists fila,
    Doble.calcular_z_y_metraje 50 30 0 "ETIQUETA BLANCA 280 MM" "C1"
    = Some (fila, None)
    /\ Doble.Ancho_rollo_mm fila = 280%float
    /\ Doble.Z_Sugerido fila = Some 116%Z
    /\ Doble.n_vertical fila = Some 7%Z
    /\ Doble.etq_eje_horizontal fila = Some 7%Z
    /\ Doble.Etiquetas_repeticion fila = Some 49%Z
    /\ Doble.ML_sin_merma fila = Some 0.01%float
    /\ Doble.M2_sin_merma fila = Some 0%float.
Proof.
  eexists. split; [vm_compute; reflexivity|]. repeat split.
Qed.

Set Warnings "inexact-float".
